(** * agoda_data_pipe: configuration loading, table creation and batched inserts

    A shallow embedding of [config/sql_config.py], [config/config_manager.py]
    and [pg_room.py], and the properties of the specification proved on it.

    - [Py]: the fragment of Python the sources rely on: values, exceptions,
      subscripting, [dict.get], [range], slicing, and a state-and-exception
      monad for code that mutates objects and raises.
    - [SqlConfig]: [DatabaseConfigLoader] and the module-level functions.
    - [ConfigManager]: the accessors of the application settings.
    - [PgRoom]: connection providers, [TableManager], [ThreadedDataManager]
      and [DataManager], run against a model of the database client.
    - [Spec]: the vocabulary of the statements; [Sample]: concrete
      configurations, databases and records the statements are tried on.

    The properties follow the definitions, claim by claim (C1 to C10). *)

From Stdlib Require Import ZArith.
From stdpp Require Import gmap strings list pretty.

Local Open Scope Z_scope.
Local Open Scope string_scope.

(* ===================================================================== *)
(** ** Python values, exceptions and built-ins *)
(* ===================================================================== *)

Module Py.

(** Values as [yaml.safe_load] produces them and as records carry them.
    A [dict] is kept as an association list in insertion order (the order
    [keys()] enumerates); lookup takes the first binding of a key. *)
#[warnings="-register-all"]
Inductive pyval :=
| PNone
| PBool (b : bool)
| PInt (z : Z)
| PStr (s : string)
| PList (l : list pyval)
| PDict (d : list (string * pyval)).

(** Instances of [Exception] raised by the sources, by the built-ins they
    call and by the database client.  The handlers of the sources are all
    [except Exception] or narrower; signals deriving from [BaseException]
    only ([KeyboardInterrupt], [SystemExit]) are outside the model. *)
Inductive exn :=
| KeyError (k : pyval)
| TypeError
| IndexError
| AttributeError
| ValueError         (* with its subclasses, [UnicodeDecodeError] among them *)
| FileNotFoundError
| OSError            (* an [OSError] that is no [FileNotFoundError] *)
| YAMLError
| DatabaseConfigError
| DatabaseError      (* psycopg2.Error and its subclasses *)
| PoolError.         (* psycopg2.pool.PoolError *)

Inductive Result (A : Type) :=
| Ok (a : A)
| Raise (e : exn).
Arguments Ok {A} a.
Arguments Raise {A} e.

Definition is_KeyError (e : exn) : bool :=
  match e with KeyError _ => true | _ => false end.

Definition is_YAMLError (e : exn) : bool :=
  match e with YAMLError => true | _ => false end.

Definition is_FileNotFoundError (e : exn) : bool :=
  match e with FileNotFoundError => true | _ => false end.

(** [bool(v)] *)
Definition truthy (v : pyval) : bool :=
  match v with
  | PNone => false
  | PBool b => b
  | PInt z => negb (z =? 0)%Z
  | PStr s => negb (String.eqb s EmptyString)
  | PList l => match l with [] => false | _ => true end
  | PDict d => match d with [] => false | _ => true end
  end.

Fixpoint dict_lookup (d : list (string * pyval)) (k : string) : option pyval :=
  match d with
  | [] => None
  | (k', v) :: d' => if String.eqb k' k then Some v else dict_lookup d' k
  end.

(** [list(d.keys())] *)
Definition dict_keys (d : list (string * pyval)) : list string := map fst d.

(** [v[k]] for a string key [k]: only a dict can be subscripted by a string;
    a missing key raises [KeyError], any other receiver [TypeError]. *)
Definition getitem (v : pyval) (k : string) : Result pyval :=
  match v with
  | PDict d => match dict_lookup d k with
               | Some x => Ok x
               | None => Raise (KeyError (PStr k))
               end
  | _ => Raise TypeError
  end.

(** An argument used where Python needs an integer ([bool] is an [int]). *)
Definition as_int (v : pyval) : Result Z :=
  match v with
  | PInt z => Ok z
  | PBool b => Ok (if b then 1 else 0)
  | _ => Raise TypeError
  end.

(** The position an index [i] names in a sequence of length [n]; a
    negative index counts from the end. *)
Definition seq_index (n : nat) (i : Z) : option nat :=
  let j := if (i <? 0)%Z then (i + Z.of_nat n)%Z else i in
  if ((0 <=? j)%Z && (j <? Z.of_nat n)%Z)%bool then Some (Z.to_nat j) else None.

(** [v[k]] for a key [k] that is itself a value read from somewhere.  The
    dicts of the model have string keys, so in a dict a hashable key of
    another type is missing, and a list or a dict is unhashable.  A list or
    a string takes an integer index, and raises [IndexError] when it is out
    of range; a string is the sequence of its characters. *)
Definition getitem_val (v k : pyval) : Result pyval :=
  match v with
  | PDict _ =>
      match k with
      | PStr s => getitem v s
      | PList _ | PDict _ => Raise TypeError
      | _ => Raise (KeyError k)
      end
  | PList l =>
      match as_int k with
      | Raise e => Raise e
      | Ok i =>
          match seq_index (length l) i with
          | Some j => match l !! j with
                      | Some x => Ok x
                      | None => Raise IndexError
                      end
          | None => Raise IndexError
          end
      end
  | PStr s =>
      match as_int k with
      | Raise e => Raise e
      | Ok i =>
          match seq_index (String.length s) i with
          | Some j => Ok (PStr (String.substring j 1 s))
          | None => Raise IndexError
          end
      end
  | _ => Raise TypeError
  end.

(** [v.get(k, default)]: only a dict has the method. *)
Definition get (v : pyval) (k : string) (default : pyval) : Result pyval :=
  match v with
  | PDict d => match dict_lookup d k with
               | Some x => Ok x
               | None => Ok default
               end
  | _ => Raise AttributeError
  end.

(** [len(range(start, stop, step))] *)
Definition range_len (start stop step : Z) : nat :=
  if (0 <? step)%Z then Z.to_nat ((stop - start + step - 1) / step)
  else Z.to_nat ((start - stop - step - 1) / (- step)).

(** [list(range(start, stop, step))]; a zero step raises [ValueError]. *)
Definition range (start stop step : Z) : Result (list Z) :=
  if (step =? 0)%Z then Raise ValueError
  else Ok (map (fun k : nat => start + Z.of_nat k * step)
               (seq 0 (range_len start stop step))).

(** Clamping of a slice bound against a sequence of length [n]. *)
Definition slice_bound (n i : Z) : Z :=
  if (i <? 0)%Z then Z.max 0 (i + n) else Z.min i n.

(** [l[i:j]] *)
Definition slice {A} (l : list A) (i j : Z) : list A :=
  let n := Z.of_nat (length l) in
  let a := slice_bound n i in
  let b := slice_bound n j in
  take (Z.to_nat (b - a)) (drop (Z.to_nat a) l).

(** *** Code that mutates state and may raise

    A computation takes the state, returns a value or raises, and leaves a
    state either way: what was mutated before a [raise] stays mutated. *)
Definition M (S A : Type) : Type := S → Result A * S.

Definition ret {S A} (a : A) : M S A := fun s => (Ok a, s).
Definition raise {S A} (e : exn) : M S A := fun s => (Raise e, s).
Definition bind {S A B} (m : M S A) (f : A → M S B) : M S B :=
  fun s => match m s with
           | (Ok a, s') => f a s'
           | (Raise e, s') => (Raise e, s')
           end.
Definition lift {S A} (r : Result A) : M S A := fun s => (r, s).
Definition gets {S A} (f : S → A) : M S A := fun s => (Ok (f s), s).
Definition modify {S} (f : S → S) : M S unit := fun s => (Ok tt, f s).

(** [try: m  except <matching sel> as e: h e] *)
Definition try_except {S A} (m : M S A) (sel : exn → bool) (h : exn → M S A)
  : M S A :=
  fun s => match m s with
           | (Ok a, s') => (Ok a, s')
           | (Raise e, s') => if sel e then h e s' else (Raise e, s')
           end.

(** Run [m] on a component of a larger state. *)
Definition zoom {S T A} (proj : T → S) (upd : S → T → T) (m : M S A) : M T A :=
  fun t => let '(r, s') := m (proj t) in (r, upd s' t).

End Py.

Export Py.

Declare Scope py_scope.
Delimit Scope py_scope with py.
Notation "'let*' x ':=' m 'in' k" := (Py.bind m (fun x => k))
  (at level 10, x name, m at level 100, k at level 200) : py_scope.
Notation "'run' m 'in' k" := (Py.bind m (fun _ => k))
  (at level 10, m at level 100, k at level 200) : py_scope.

Local Open Scope py_scope.

(** What a configuration path holds on disk when it is opened.  A file
    that is there and cannot be loaded makes [open], the decoding of its
    bytes or [yaml.safe_load] raise: an [OSError] when it cannot be opened,
    a [ValueError] when it is not UTF-8 ([UnicodeDecodeError]) or holds a
    scalar that a constructor rejects, a [YAMLError] when it is not YAML. *)
Inductive file_state :=
| Absent                (* no such file *)
| Unloadable (e : exn)  (* it exists; opening or loading it raises [e] *)
| Content (v : pyval).  (* [yaml.safe_load] returns [v] *)

(* ===================================================================== *)
(** ** config/sql_config.py *)
(* ===================================================================== *)

Module SqlConfig.

(** A reference to (a part of) a loaded configuration.  Every
    [yaml.safe_load] call builds new objects: [oid] numbers the call that
    built the tree and [opath] is the position inside it, so two references
    are the same object ([is]) exactly when they are equal. *)
Record pyobj := { oid : nat; opath : list string; oval : pyval }.

(** The step [k] makes from [v] into the tree: the key of a dict, the
    position in a list or a string. *)
Definition key_name (v k : pyval) : string :=
  match k with
  | PStr s => s
  | _ =>
      let n := match v with
               | PList l => length l
               | PStr s => String.length s
               | _ => 0%nat
               end in
      match as_int k with
      | Ok i => match seq_index n i with
                | Some j => pretty j
                | None => EmptyString
                end
      | Raise _ => EmptyString
      end
  end.

(** [o[k]]: the object stored under [k], not a copy of it. *)
Definition obj_getitem (o : pyobj) (k : pyval) : Result pyobj :=
  match getitem_val (oval o) k with
  | Ok v => Ok {| oid := oid o;
                  opath := opath o ++ [key_name (oval o) k];
                  oval := v |}
  | Raise e => Raise e
  end.

(** The loader object [_config_loader] together with the file it reads. *)
Record state := {
  config_yml : file_state;        (* contents of [config_path] *)
  opens : nat;                    (* [open(config_path)] calls so far *)
  next_oid : nat;                 (* trees built by [yaml.safe_load] so far *)
  _config_cache : option pyobj;   (* [self._config_cache] *)
}.

Definition set_cache (c : option pyobj) (s : state) : state :=
  {| config_yml := config_yml s; opens := opens s; next_oid := next_oid s;
     _config_cache := c |}.

Definition opened (s : state) : state :=
  {| config_yml := config_yml s; opens := S (opens s); next_oid := next_oid s;
     _config_cache := _config_cache s |}.

Definition allocated (s : state) : state :=
  {| config_yml := config_yml s; opens := opens s; next_oid := S (next_oid s);
     _config_cache := _config_cache s |}.

(** The environment rewrites the file between two calls. *)
Definition with_file (f : file_state) (s : state) : state :=
  {| config_yml := f; opens := opens s; next_oid := next_oid s;
     _config_cache := _config_cache s |}.

(** The body of the [try] in [_load_yaml_config]. *)
Definition _load_yaml_config_try : M state pyobj :=
  fun s =>
    match config_yml s with
    | Absent => (Raise DatabaseConfigError, s)
    | Unloadable e => (Raise e, opened s)
    | Content v =>
        let s' := allocated (opened s) in
        if truthy v
        then (Ok {| oid := next_oid s; opath := []; oval := v |}, s')
        else (Raise DatabaseConfigError, s')
    end.

Definition _load_yaml_config : M state pyobj :=
  try_except
    (try_except _load_yaml_config_try is_YAMLError
       (fun _ => raise DatabaseConfigError))
    (fun _ => true)
    (fun _ => raise DatabaseConfigError).

Definition get_config (force_reload : bool) : M state pyobj :=
  let* c := gets _config_cache in
  match c with
  | Some o =>
      if force_reload
      then (let* o' := _load_yaml_config in
            run modify (set_cache (Some o')) in
            ret o')
      else ret o
  | None =>
      let* o' := _load_yaml_config in
      run modify (set_cache (Some o')) in
      ret o'
  end.

Definition DatabaseConfigLoader_get_current_environment : M state pyval :=
  let* config := get_config false in
  try_except
    (let* e := lift (obj_getitem config (PStr "environment")) in
     let* env := lift (obj_getitem e (PStr "current")) in
     ret (oval env))
    is_KeyError
    (fun _ => ret (PStr "development")).

Definition get_database_config (environment : option string) : M state pyobj :=
  let* config := get_config false in
  let* environment := match environment with
                      | None => DatabaseConfigLoader_get_current_environment
                      | Some name => ret (PStr name)
                      end in
  try_except
    (let* d := lift (obj_getitem config (PStr "database")) in
     lift (obj_getitem d environment))
    is_KeyError
    (fun _ => raise DatabaseConfigError).

(** Module-level functions on the global [_config_loader]. *)
Definition load_config (environment : option string) : M state pyobj :=
  try_except (get_database_config environment) (fun _ => true)
    (fun e => raise e).

Definition get_current_environment : M state pyval :=
  DatabaseConfigLoader_get_current_environment.

Definition reload_config : M state unit :=
  run get_config true in ret tt.

End SqlConfig.

(* ===================================================================== *)
(** ** config/config_manager.py *)
(* ===================================================================== *)

Module ConfigManager.

(** A [ConfigManager] with the file it reads.  [_config_cache] is [None]
    until a load stores something else (a file that parses to [None] leaves
    it [None]). *)
Record state := {
  config_yml : file_state;
  _config_cache : pyval;
}.

(** [with open(...) as file: self._config_cache = yaml.safe_load(file)] *)
Definition read_config_file : M state unit :=
  fun s =>
    match config_yml s with
    | Absent => (Raise FileNotFoundError, s)
    | Unloadable e => (Raise e, s)
    | Content v => (Ok tt, {| config_yml := config_yml s; _config_cache := v |})
    end.

Definition load_config : M state pyval :=
  let* cached := gets _config_cache in
  run match cached with
      | PNone =>
          try_except
            (try_except read_config_file is_FileNotFoundError
               (fun e => raise e))
            is_YAMLError
            (fun e => raise e)
      | _ => ret tt
      end in
  gets _config_cache.

Definition get_table_name : M state pyval :=
  let* config := load_config in
  let* d := lift (getitem config "database") in
  lift (getitem d "table_name").

Definition get_log_level : M state pyval :=
  let* config := load_config in
  let* app := lift (get config "app" (PDict [])) in
  lift (get app "log_level" (PStr "INFO")).

Definition get_batch_size : M state pyval :=
  let* config := load_config in
  let* app := lift (get config "app" (PDict [])) in
  lift (get app "batch_size" (PInt 100)).

Definition get_connection_pool_config : M state pyval :=
  let* config := load_config in
  let* app := lift (get config "app" (PDict [])) in
  lift (get app "connection_pool"
          (PDict [("min_connections", PInt 2);
                  ("max_connections", PInt 10);
                  ("connection_timeout", PInt 30);
                  ("idle_timeout", PInt 300)])).

(** The dict literal [get_threading_config] falls back on. *)
Definition default_threading : pyval :=
  PDict [("max_workers", PInt 4);
         ("chunk_size", PInt 1000);
         ("enable_threading", PBool false)].

Definition get_threading_config : M state pyval :=
  let* config := load_config in
  let* app := lift (get config "app" (PDict [])) in
  lift (get app "threading" default_threading).

Definition is_threading_enabled : M state pyval :=
  let* threading_config := get_threading_config in
  lift (get threading_config "enable_threading" (PBool false)).

End ConfigManager.

(* ===================================================================== *)
(** ** pg_room.py *)
(* ===================================================================== *)

Module PgRoom.

(** One record of [room_list]: a dict from column name to value. *)
Abbreviation Row := (list (string * pyval)).

(** The SQL texts the module builds, by shape.  A table name read from the
    configuration is spliced in as whatever value it is. *)
Inductive Stmt :=
| CreateTableIfNotExists (table : pyval)
| CommentOnColumn (table : pyval) (column : string)
| InsertInto (table : pyval) (columns : list string).

(** Calls made to the database client, in the order they are made. *)
Inductive Event :=
| EConnect                                  (* psycopg2.connect *)
| EPoolInit                                 (* pool.ThreadedConnectionPool *)
| EGetConn                                  (* pool.getconn *)
| EExecute (s : Stmt)                       (* cursor.execute *)
| EExecuteBatch (s : Stmt) (rows : nat)     (* execute_batch *)
| ECommit
| ERollback
| EClose
| EPutConn.

(** The database client and the server behind it, as far as the module can
    see them.  Any call that reaches the server may raise: [fault n] tells
    whether the call made when [n] calls are already in the log does.
    [accepts table existing new] tells whether the server takes the rows
    [new] into [table] (column constraints and the like). *)
Record Client := {
  fault : nat → bool;
  accepts : string → list Row → list Row → bool;
}.

Record World := {
  sql : SqlConfig.state;                      (* sql_config._config_loader *)
  cm : ConfigManager.state;                   (* the shared ConfigManager *)
  dbm_db_config : option SqlConfig.pyobj;     (* DatabaseManager._db_config *)
  cpm_db_config : option SqlConfig.pyobj;     (* ConnectionPoolManager._db_config *)
  pool : bool;            (* ConnectionPoolManager._connection_pool is set *)
  tables : gmap string (list Row);            (* committed rows, per table *)
  work : gmap string (list Row);              (* what the open transaction sees *)
  log : list Event;
}.
(** One connection is open at a time.  The threaded path gives every chunk
    a connection and a transaction of its own; a transaction is one batch
    and its commit, and the model takes the transactions of a call one
    after the other, in the order of a [Schedule] (below). *)

Definition set_sql (x : SqlConfig.state) (w : World) : World :=
  {| sql := x; cm := cm w; dbm_db_config := dbm_db_config w;
     cpm_db_config := cpm_db_config w; pool := pool w; tables := tables w;
     work := work w; log := log w |}.
Definition set_cm (x : ConfigManager.state) (w : World) : World :=
  {| sql := sql w; cm := x; dbm_db_config := dbm_db_config w;
     cpm_db_config := cpm_db_config w; pool := pool w; tables := tables w;
     work := work w; log := log w |}.
Definition set_dbm_db_config (x : option SqlConfig.pyobj) (w : World) : World :=
  {| sql := sql w; cm := cm w; dbm_db_config := x;
     cpm_db_config := cpm_db_config w; pool := pool w; tables := tables w;
     work := work w; log := log w |}.
Definition set_cpm_db_config (x : option SqlConfig.pyobj) (w : World) : World :=
  {| sql := sql w; cm := cm w; dbm_db_config := dbm_db_config w;
     cpm_db_config := x; pool := pool w; tables := tables w;
     work := work w; log := log w |}.
Definition set_pool (x : bool) (w : World) : World :=
  {| sql := sql w; cm := cm w; dbm_db_config := dbm_db_config w;
     cpm_db_config := cpm_db_config w; pool := x; tables := tables w;
     work := work w; log := log w |}.
Definition set_tables (x : gmap string (list Row)) (w : World) : World :=
  {| sql := sql w; cm := cm w; dbm_db_config := dbm_db_config w;
     cpm_db_config := cpm_db_config w; pool := pool w; tables := x;
     work := work w; log := log w |}.
Definition set_work (x : gmap string (list Row)) (w : World) : World :=
  {| sql := sql w; cm := cm w; dbm_db_config := dbm_db_config w;
     cpm_db_config := cpm_db_config w; pool := pool w; tables := tables w;
     work := x; log := log w |}.
Definition add_event (e : Event) (w : World) : World :=
  {| sql := sql w; cm := cm w; dbm_db_config := dbm_db_config w;
     cpm_db_config := cpm_db_config w; pool := pool w; tables := tables w;
     work := work w; log := log w ++ [e] |}.

(** *** The database client *)

(** A call that reaches the server: it is logged, and it raises [err] when
    the client faults at this point. *)
Definition client_call (c : Client) (ev : Event) (err : exn) : M World unit :=
  fun w => if fault c (length (log w))
           then (Raise err, add_event ev w)
           else (Ok tt, add_event ev w).

(** Unpacking [v] into keyword arguments: only a mapping can be. *)
Definition kwargs (v : pyval) : Result unit :=
  match v with PDict _ => Ok tt | _ => Raise TypeError end.

(** The name a spliced value denotes in the SQL text, if the text parses:
    a string stands for itself, [None] is rendered as an identifier, and the
    rendering of any other value is not a table name. *)
Definition sql_ident (v : pyval) : option string :=
  match v with
  | PStr s => Some s
  | PNone => Some "None"
  | _ => None
  end.

(** [psycopg2.connect] on the unpacked [db_config]; the new connection sees the committed
    state. *)
Definition connect (c : Client) (db_config : pyval) : M World unit :=
  run lift (kwargs db_config) in
  run client_call c EConnect DatabaseError in
  fun w => (Ok tt, set_work (tables w) w).

Definition getconn (c : Client) : M World unit :=
  run client_call c EGetConn PoolError in
  fun w => (Ok tt, set_work (tables w) w).

(** [conn.rollback()] is a call to the server like the others: on a
    connection that is lost it raises.  When it returns, what the
    transaction had done is dropped. *)
Definition rollback (c : Client) : M World unit :=
  run client_call c ERollback DatabaseError in
  fun w => (Ok tt, set_work (tables w) w).

(** The releasing calls do not raise: [conn.close()] succeeds on a broken
    connection too, and [putconn] is handed a connection of the pool while
    the pool is open (no method closes the pool while one of its
    connections is held). *)
Definition close : M World unit := modify (add_event EClose).
Definition putconn : M World unit := modify (add_event EPutConn).

Definition commit (c : Client) : M World unit :=
  run client_call c ECommit DatabaseError in
  fun w => (Ok tt, set_tables (work w) w).

(** [cursor.execute(sql)] for the data definition statements. *)
Definition execute (c : Client) (s : Stmt) : M World unit :=
  run client_call c (EExecute s) DatabaseError in
  fun w =>
    match s with
    | CreateTableIfNotExists t =>
        match sql_ident t with
        | None => (Raise DatabaseError, w)
        | Some n => match work w !! n with
                    | Some _ => (Ok tt, w)
                    | None => (Ok tt, set_work (<[n := []]> (work w)) w)
                    end
        end
    | CommentOnColumn t _ =>
        match sql_ident t with
        | None => (Raise DatabaseError, w)
        | Some n => match work w !! n with
                    | Some _ => (Ok tt, w)
                    | None => (Raise DatabaseError, w)
                    end
        end
    | InsertInto _ _ => (Raise DatabaseError, w)
    end.

(** The parameters [%(col)s] of one record: every column must be a key. *)
Fixpoint bind_params (columns : list string) (r : Row) : Result Row :=
  match columns with
  | [] => Ok []
  | col :: rest =>
      match dict_lookup r col with
      | None => Raise (KeyError (PStr col))
      | Some v => match bind_params rest r with
                  | Ok row => Ok ((col, v) :: row)
                  | Raise e => Raise e
                  end
      end
  end.

Fixpoint bind_all (columns : list string) (rows : list Row) : Result (list Row) :=
  match rows with
  | [] => Ok []
  | r :: rest =>
      match bind_params columns r with
      | Raise e => Raise e
      | Ok row => match bind_all columns rest with
                  | Ok rows' => Ok (row :: rows')
                  | Raise e => Raise e
                  end
      end
  end.

(** [execute_batch(cursor, insert_sql, argslist, page_size=page_size)]:
    the pages are cut by [range(page_size)], and a page size below one
    sends an empty query, which the client refuses.  All pages run in the
    connection's open transaction. *)
Definition execute_batch (c : Client) (table : pyval) (columns : list string)
    (argslist : list Row) (page_size : pyval) : M World unit :=
  let* ps := lift (as_int page_size) in
  run (if (ps <=? 0)%Z then raise DatabaseError else ret tt) in
  let* rows := lift (bind_all columns argslist) in
  run client_call c
        (EExecuteBatch (InsertInto table columns) (length argslist))
        DatabaseError in
  fun w =>
    match sql_ident table with
    | None => (Raise DatabaseError, w)
    | Some n =>
        match work w !! n with
        | None => (Raise DatabaseError, w)
        | Some existing =>
            if accepts c n existing rows
            then (Ok tt, set_work (<[n := (existing ++ rows)%list]> (work w)) w)
            else (Raise DatabaseError, w)
        end
    end.

(** [ThreadPoolExecutor(max_workers=max_workers)] *)
Definition ThreadPoolExecutor (max_workers : pyval) : Result unit :=
  match max_workers with
  | PNone => Ok tt
  | PInt z => if (z <=? 0)%Z then Raise ValueError else Ok tt
  | PBool b => if b then Ok tt else Raise ValueError
  | _ => Raise TypeError
  end.


(** What [self._db_config] holds after the assignment: a configuration
    that is [None] leaves the attribute [None]. *)
Definition as_cached (o : SqlConfig.pyobj) : option SqlConfig.pyobj :=
  match SqlConfig.oval o with PNone => None | _ => Some o end.

(** *** ConnectionPoolManager *)

Definition ConnectionPoolManager__get_db_config : M World SqlConfig.pyobj :=
  let* cached := gets cpm_db_config in
  match cached with
  | Some o => ret o
  | None =>
      let* o := zoom sql set_sql (SqlConfig.load_config None) in
      run modify (set_cpm_db_config (as_cached o)) in
      (* the log line formats [self._db_config['host']] and [['port']] *)
      run lift (SqlConfig.obj_getitem o (PStr "host")) in
      run lift (SqlConfig.obj_getitem o (PStr "port")) in
      ret o
  end.

Definition _initialize_pool (c : Client) : M World unit :=
  let* ready := gets pool in
  if ready then ret tt else
  let* db_config := ConnectionPoolManager__get_db_config in
  let* pool_config :=
    zoom cm set_cm ConfigManager.get_connection_pool_config in
  run lift (getitem pool_config "min_connections") in
  run lift (getitem pool_config "max_connections") in
  run lift (kwargs (SqlConfig.oval db_config)) in
  run client_call c EPoolInit DatabaseError in
  modify (set_pool true).

(** What [get_connection] does before it yields: the pool is set up outside
    the [try], the connection is taken inside it. *)
Definition ConnectionPoolManager_acquire (c : Client) : M World unit :=
  run _initialize_pool c in getconn c.

(** [with self.connection_pool_manager.get_connection() as conn: body].
    When no connection was obtained the exception leaves as it is; when the
    body raises, the handler calls [rollback] and re-raises, unless the
    rollback raises, and then it is that exception that leaves; [finally]
    returns the connection to the pool on every path. *)
Definition ConnectionPoolManager_get_connection {A} (c : Client)
    (body : M World A) : M World A :=
  fun w =>
    match _initialize_pool c w with
    | (Raise e, w0) => (Raise e, w0)
    | (Ok _, w0) =>
        match getconn c w0 with
        | (Raise e, w1) => (Raise e, w1)
        | (Ok _, w1) =>
            match body w1 with
            | (Ok a, w2) => (Ok a, snd (putconn w2))
            | (Raise e, w2) =>
                match rollback c w2 with
                | (Ok _, w3) => (Raise e, snd (putconn w3))
                | (Raise e', w3) => (Raise e', snd (putconn w3))
                end
            end
        end
    end.

(** *** DatabaseManager (single connection) *)

Definition DatabaseManager__get_db_config : M World SqlConfig.pyobj :=
  let* cached := gets dbm_db_config in
  match cached with
  | Some o => ret o
  | None =>
      let* o := zoom sql set_sql (SqlConfig.load_config None) in
      run modify (set_dbm_db_config (as_cached o)) in
      run lift (SqlConfig.obj_getitem o (PStr "host")) in
      run lift (SqlConfig.obj_getitem o (PStr "port")) in
      ret o
  end.

Definition DatabaseManager_acquire (c : Client) : M World unit :=
  let* db_config := DatabaseManager__get_db_config in
  connect c (SqlConfig.oval db_config).

(** [with self.db_manager.get_connection() as conn: body] *)
Definition DatabaseManager_get_connection {A} (c : Client)
    (body : M World A) : M World A :=
  fun w =>
    match DatabaseManager_acquire c w with
    | (Raise e, w1) => (Raise e, w1)
    | (Ok _, w1) =>
        match body w1 with
        | (Ok a, w2) => (Ok a, snd (close w2))
        | (Raise e, w2) =>
            match rollback c w2 with
            | (Ok _, w3) => (Raise e, snd (close w3))
            | (Raise e', w3) => (Raise e', snd (close w3))
            end
        end
    end.

(** *** TableManager *)

Definition agoda_columns : list string :=
  ["id"; "room_id"; "check_in_date"; "room_name"; "room_enname"; "area";
   "capacity"; "bed_type"; "smoking"; "price"; "breakfast"; "cancel";
   "currency"; "hotel_name"; "defaultname"; "distance_m"; "rating";
   "longitude"; "latitude"; "hop_hotel_name"; "hop_hotel_id"; "created_at";
   "updated_at"].

(** [for comment_sql in comment_sqls: cursor.execute(comment_sql)] *)
Fixpoint execute_each (c : Client) (sqls : list Stmt) : M World unit :=
  match sqls with
  | [] => ret tt
  | s :: rest => run execute c s in execute_each c rest
  end.

Definition create_table (c : Client) (table_name : option string) : M World bool :=
  let* table_name :=
    match table_name with
    | None => zoom cm set_cm ConfigManager.get_table_name
    | Some name => ret (PStr name)
    end in
  try_except
    (DatabaseManager_get_connection c
       (let create_table_sql := CreateTableIfNotExists table_name in
        let comment_sqls := map (CommentOnColumn table_name) agoda_columns in
        run execute c create_table_sql in
        run execute_each c comment_sqls in
        run commit c in
        ret true))
    (fun _ => true)
    (fun _ => ret false).


(** *** ThreadedDataManager *)

Definition _chunk_data (data : list Row) (chunk_size : pyval)
  : Result (list (list Row)) :=
  match as_int chunk_size with
  | Raise e => Raise e
  | Ok step =>
      match range 0 (Z.of_nat (length data)) step with
      | Raise e => Raise e
      | Ok starts => Ok (map (fun i => slice data i (i + step)) starts)
      end
  end.

Definition _insert_chunk (c : Client) (chunk : list Row) (target_table : string)
    (thread_id : nat) : M World nat :=
  match chunk with
  | [] => ret 0%nat
  | first :: _ =>
      let* batch_size := zoom cm set_cm ConfigManager.get_batch_size in
      ConnectionPoolManager_get_connection c
        (let columns := dict_keys first in
         try_except
           (run execute_batch c (PStr target_table) columns chunk batch_size in
            run commit c in
            ret (length chunk))
           (fun _ => true)
           (fun e => run rollback c in raise e))
  end.

(** The order in which the worker threads get to run the submitted tasks,
    and the order in which [as_completed] hands the futures back.  Both
    list chunk indices; an executor runs every task once and hands every
    future back once. *)
Record Schedule := {
  started : list nat;
  completed : list nat;
}.

Definition valid_schedule (sch : Schedule) (n : nat) : Prop :=
  Permutation (started sch) (seq 0 n) ∧ Permutation (completed sch) (seq 0 n).

(** The tasks [executor.submit(self._insert_chunk, chunk, target_table, i)],
    each run to its end in a connection of its own, with the result or the
    exception each future ends up holding. *)
Fixpoint run_tasks (c : Client) (target_table : string)
    (chunks : list (list Row)) (order : list nat)
  : World → list (nat * Result nat) * World :=
  fun w =>
    match order with
    | [] => ([], w)
    | i :: rest =>
        match chunks !! i with
        | None => run_tasks c target_table chunks rest w
        | Some chunk =>
            let '(r, w1) := _insert_chunk c chunk target_table i w in
            let '(rs, w2) := run_tasks c target_table chunks rest w1 in
            ((i, r) :: rs, w2)
        end
    end.

(** [future.result()] of the future of chunk [i]. *)
Fixpoint future_result (futures : list (nat * Result nat)) (i : nat)
  : option (Result nat) :=
  match futures with
  | [] => None
  | (j, r) :: rest => if Nat.eqb j i then Some r else future_result rest i
  end.

(** The loop over [as_completed(future_to_chunk)]: counts are added up, the
    first exception met returns [False]. *)
Fixpoint gather (futures : list (nat * Result nat)) (order : list nat)
    (total_inserted : nat) : bool * nat :=
  match order with
  | [] => (true, total_inserted)
  | i :: rest =>
      match future_result futures i with
      | Some (Ok inserted_count) =>
          gather futures rest (total_inserted + inserted_count)
      | Some (Raise _) => (false, total_inserted)
      | None => gather futures rest total_inserted
      end
  end.

(** A call of [insert_raw_data_threaded] with its local variables: what it
    returns or raises, [total_inserted] when it leaves, and the futures it
    submitted with what each holds. *)
Record Run := {
  returned : Result bool;
  total_inserted : nat;
  future_to_chunk : list (nat * Result nat);
}.

Definition insert_raw_data_threaded_run (c : Client) (sch : Schedule)
    (room_list : list Row) (target_table : string) : World → Run * World :=
  fun w =>
    match room_list with
    | [] => ({| returned := Ok true; total_inserted := 0;
                future_to_chunk := [] |}, w)
    | _ =>
        let leave r w' :=
          ({| returned := r; total_inserted := 0; future_to_chunk := [] |}, w') in
        match zoom cm set_cm ConfigManager.get_threading_config w with
        | (Raise e, w1) => leave (Raise e) w1
        | (Ok threading_config, w1) =>
        match getitem threading_config "max_workers" with
        | Raise e => leave (Raise e) w1
        | Ok max_workers =>
        match getitem threading_config "chunk_size" with
        | Raise e => leave (Raise e) w1
        | Ok chunk_size =>
        match _chunk_data room_list chunk_size with
        | Raise e => leave (Raise e) w1
        | Ok chunks =>
        match ThreadPoolExecutor max_workers with
        | Raise _ => leave (Ok false) w1
        | Ok _ =>
            let '(futures, w2) :=
              run_tasks c target_table chunks (started sch) w1 in
            let '(ok, total) := gather futures (completed sch) 0 in
            ({| returned := Ok ok; total_inserted := total;
                future_to_chunk := futures |}, w2)
        end end end end end
    end.

Definition insert_raw_data_threaded (c : Client) (sch : Schedule)
    (room_list : list Row) (target_table : string) : M World bool :=
  fun w =>
    let '(r, w') := insert_raw_data_threaded_run c sch room_list target_table w
    in (returned r, w').

(** *** DataManager *)

(** A [target_table] left at [None] is spliced into the statement as it is. *)
Definition table_arg (target_table : option string) : pyval :=
  match target_table with Some name => PStr name | None => PNone end.

Definition insert_raw_data (c : Client) (room_list : list Row)
    (target_table : option string) : M World bool :=
  match room_list with
  | [] => ret true
  | first :: _ =>
      let columns := dict_keys first in
      try_except
        (DatabaseManager_get_connection c
           (let* batch_size := zoom cm set_cm ConfigManager.get_batch_size in
            run execute_batch c (table_arg target_table) columns room_list
                  batch_size in
            run commit c in
            ret true))
        (fun _ => true)
        (fun _ => ret false)
  end.

End PgRoom.

(* ===================================================================== *)
(** ** Vocabulary of the statements *)
(* ===================================================================== *)

Module Spec.
Import PgRoom.

(** The number of rows of a table, when the table exists. *)
Definition row_count (w : World) (table : string) : option nat :=
  length <$> tables w !! table.

(** What [threading_config[key]] evaluates to in [w]. *)
Definition configured (w : World) (key : string) : Result pyval :=
  match ConfigManager.get_threading_config (cm w) with
  | (Ok threading_config, _) => getitem threading_config key
  | (Raise e, _) => Raise e
  end.

(** Every one of the [n] chunks has a future, and it holds a count: the
    chunk's [_insert_chunk] ran and returned. *)
Definition every_chunk_inserted (r : Run) (n : nat) : Prop :=
  ∀ i, (i < n)%nat → ∃ k, future_result (future_to_chunk r) i = Some (Ok k).

(** [len(range(0, n, C))] for a positive [C]: the number of chunks. *)
Definition chunk_count (n : nat) (C : Z) : nat :=
  Z.to_nat ((Z.of_nat n + C - 1) / C).

(** The configuration has no [app] section, or the section has no [key]. *)
Definition app_lacks (cfg : list (string * pyval)) (key : string) : Prop :=
  dict_lookup cfg "app" = None ∨
  ∃ app, dict_lookup cfg "app" = Some (PDict app) ∧ dict_lookup app key = None.

(** The entry a dotted path such as [environment.current] names in a
    configuration, if there is one. *)
Fixpoint lookup_path (v : pyval) (path : list string) : option pyval :=
  match path with
  | [] => Some v
  | k :: rest =>
      match v with
      | PDict d => match dict_lookup d k with
                   | Some x => lookup_path x rest
                   | None => None
                   end
      | _ => None
      end
  end.

(** No call to the client raises. *)
Definition faultless (c : Client) : Prop := ∀ n, fault c n = false.

(** The calls [create_table] makes on [name], from connecting to closing. *)
Definition create_table_calls (name : string) : list Event :=
  ([EConnect; EExecute (CreateTableIfNotExists (PStr name))]
   ++ (EExecute <$> (CommentOnColumn (PStr name) <$> agoda_columns))
   ++ [ECommit; EClose])%list.

End Spec.

(* ===================================================================== *)
(** ** Sample configurations, databases and records *)
(* ===================================================================== *)

Module Sample.
Import PgRoom.

(** A [config.yml] of the loader with one environment. *)
Definition sql_yml : pyval :=
  PDict [("environment", PDict [("current", PStr "development")]);
         ("database",
          PDict [("development",
                  PDict [("host", PStr "localhost"); ("port", PInt 5432)])])].

Definition sql_state (f : file_state) : SqlConfig.state :=
  {| SqlConfig.config_yml := f; SqlConfig.opens := 0;
     SqlConfig.next_oid := 0; SqlConfig._config_cache := None |}.

(** A [config.yml] of the manager with the given threading settings. *)
Definition app_yml (max_workers chunk_size : pyval) : pyval :=
  PDict [("database", PDict [("table_name", PStr "rooms")]);
         ("app",
          PDict [("batch_size", PInt 2);
                 ("threading",
                  PDict [("max_workers", max_workers);
                         ("chunk_size", chunk_size);
                         ("enable_threading", PBool true)])])].

Definition cm_state (v : pyval) : ConfigManager.state :=
  {| ConfigManager.config_yml := Content v;
     ConfigManager._config_cache := PNone |}.

(** A database holding [tbls], nothing cached, nothing called yet. *)
Definition world (max_workers chunk_size : pyval)
    (tbls : gmap string (list Row)) : World :=
  {| sql := sql_state (Content sql_yml);
     cm := cm_state (app_yml max_workers chunk_size);
     dbm_db_config := None; cpm_db_config := None; pool := false;
     tables := tbls; work := tbls; log := [] |}.

(** A client that never fails and a server that takes every row. *)
Definition healthy : Client :=
  {| fault := fun _ => false; accepts := fun _ _ _ => true |}.

(** A client whose link to the server is lost from its [n]-th call on. *)
Definition lost_from (n : nat) : Client :=
  {| fault := fun i => (n <=? i)%nat; accepts := fun _ _ _ => true |}.

(** A server that refuses rows whose price is missing ([None]). *)
Definition priced (r : Row) : bool :=
  match dict_lookup r "price" with
  | Some PNone | None => false
  | Some _ => true
  end.
Definition strict : Client :=
  {| fault := fun _ => false; accepts := fun _ _ rows => forallb priced rows |}.

Definition room (id : string) (price : pyval) : Row :=
  [("room_id", PStr id); ("price", price)].

Definition five_rooms : list Row :=
  [room "a" (PInt 100); room "b" (PInt 120); room "c" (PInt 90);
   room "d" (PInt 300); room "e" (PInt 75)].

End Sample.

(* ===================================================================== *)
(** ** More vocabulary *)
(* ===================================================================== *)

Module Obs.
Import PgRoom.


(** The calls made to the client since the log was [before] long. *)
Definition calls_since (before : World) (after : World) : list Event :=
  drop (length (log before)) (log after).

(** The sum of the counts the futures hold. *)
Definition counts (futures : list (nat * Result nat)) : nat :=
  sum_list_with (fun f => match snd f with Ok n => n | Raise _ => 0%nat end)
    futures.

(** What [execute_batch] stores for the records [data] of a call: the
    columns of the first record, bound in each record. *)
Definition stored_rows (data : list Row) : Result (list Row) :=
  match data with
  | [] => Ok []
  | first :: _ => bind_all (dict_keys first) data
  end.

(** [w'] comes after [w] and the calls made in between are [es]. *)
Definition logs (w w' : World) (es : list Event) : Prop :=
  log w' = (log w ++ es)%list.

(** Calls that neither obtain nor release a connection. *)
Definition inner (e : Event) : Prop :=
  match e with
  | EExecute _ | EExecuteBatch _ _ | ECommit | ERollback => True
  | _ => False
  end.

(** The calls of one use of a connection by the client [c], the first of
    them being call number [n]: none at all; or the attempt to obtain the
    connection alone, and it failed; or obtaining it, calls on it, and its
    release as the last call. *)
Definition session (c : Client) (n : nat) (obtain release : Event)
    (es : list Event) : Prop :=
  es = []
  ∨ (es = [obtain] ∧ fault c n = true)
  ∨ (∃ mid, es = (obtain :: mid ++ [release])%list ∧ Forall inner mid
            ∧ fault c n = false).





(** Pool settings from which [min_connections] or [max_connections] cannot
    be read. *)
Definition pool_unconfigured (pc : pyval) : Prop :=
  (∃ e, getitem pc "min_connections" = Raise e)
  ∨ (∃ e, getitem pc "max_connections" = Raise e).

End Obs.

(* ===================================================================== *)
(** ** pg_room.py: the pipeline and the module-level functions *)
(* ===================================================================== *)

(** The methods of the two data managers for a [target_table] of any type.
    [AgodaDataPipeline] hands them what [get_table_name] returned, and that
    is whatever the settings hold; the value is spliced into the statement
    as it is.  On a string they are the methods of [PgRoom]. *)
Module AnyTable.
Import PgRoom.

Definition _insert_chunk (c : Client) (chunk : list Row) (target_table : pyval)
    (thread_id : nat) : M World nat :=
  match chunk with
  | [] => ret 0%nat
  | first :: _ =>
      let* batch_size := zoom cm set_cm ConfigManager.get_batch_size in
      ConnectionPoolManager_get_connection c
        (let columns := dict_keys first in
         try_except
           (run execute_batch c target_table columns chunk batch_size in
            run commit c in
            ret (length chunk))
           (fun _ => true)
           (fun e => run rollback c in raise e))
  end.

Fixpoint run_tasks (c : Client) (target_table : pyval)
    (chunks : list (list Row)) (order : list nat)
  : World → list (nat * Result nat) * World :=
  fun w =>
    match order with
    | [] => ([], w)
    | i :: rest =>
        match chunks !! i with
        | None => run_tasks c target_table chunks rest w
        | Some chunk =>
            let '(r, w1) := _insert_chunk c chunk target_table i w in
            let '(rs, w2) := run_tasks c target_table chunks rest w1 in
            ((i, r) :: rs, w2)
        end
    end.

Definition insert_raw_data_threaded_run (c : Client) (sch : Schedule)
    (room_list : list Row) (target_table : pyval) : World → Run * World :=
  fun w =>
    match room_list with
    | [] => ({| returned := Ok true; total_inserted := 0;
                future_to_chunk := [] |}, w)
    | _ =>
        let leave r w' :=
          ({| returned := r; total_inserted := 0; future_to_chunk := [] |}, w') in
        match zoom cm set_cm ConfigManager.get_threading_config w with
        | (Raise e, w1) => leave (Raise e) w1
        | (Ok threading_config, w1) =>
        match getitem threading_config "max_workers" with
        | Raise e => leave (Raise e) w1
        | Ok max_workers =>
        match getitem threading_config "chunk_size" with
        | Raise e => leave (Raise e) w1
        | Ok chunk_size =>
        match _chunk_data room_list chunk_size with
        | Raise e => leave (Raise e) w1
        | Ok chunks =>
        match ThreadPoolExecutor max_workers with
        | Raise _ => leave (Ok false) w1
        | Ok _ =>
            let '(futures, w2) :=
              run_tasks c target_table chunks (started sch) w1 in
            let '(ok, total) := gather futures (completed sch) 0 in
            ({| returned := Ok ok; total_inserted := total;
                future_to_chunk := futures |}, w2)
        end end end end end
    end.

Definition insert_raw_data_threaded (c : Client) (sch : Schedule)
    (room_list : list Row) (target_table : pyval) : M World bool :=
  fun w =>
    let '(r, w') := insert_raw_data_threaded_run c sch room_list target_table w
    in (returned r, w').

Definition insert_raw_data (c : Client) (room_list : list Row)
    (target_table : pyval) : M World bool :=
  match room_list with
  | [] => ret true
  | first :: _ =>
      let columns := dict_keys first in
      try_except
        (DatabaseManager_get_connection c
           (let* batch_size := zoom cm set_cm ConfigManager.get_batch_size in
            run execute_batch c target_table columns room_list batch_size in
            run commit c in
            ret true))
        (fun _ => true)
        (fun _ => ret false)
  end.

End AnyTable.

Module AgodaDataPipeline.
Import PgRoom.

(** The [_connection_pool] of a [ConnectionPoolManager]: not set, set, or
    set and closed by [closeall]. *)
Inductive PoolState := NoPool | PoolOpen | PoolClosed.

Record PoolManager := {
  _db_config : option SqlConfig.pyobj;
  _connection_pool : PoolState;
}.

(** A [DatabaseManager] object is its [_db_config]. *)
Abbreviation DbManager := (option SqlConfig.pyobj).

(** The managers of a pipeline that [__init__] has built.  In threaded mode
    there are [connection_pool_manager] and [threaded_data_manager], and
    the table manager has a [DatabaseManager] of its own; in single-thread
    mode there are [db_manager] and [data_manager], and the table manager
    holds what [_get_database_manager] returned: [self.db_manager] itself
    ([None] below) or a [DatabaseManager] of its own. *)
Inductive Self :=
| Threaded (connection_pool_manager : PoolManager) (table_db_manager : DbManager)
| Single (db_manager : DbManager) (table_db_manager : option DbManager).

(** What is outside the pipeline: the [World], in which [cm] is the
    pipeline's [ConfigManager], and the number of pools that [closeall] has
    closed so far.  The manager slots of the [World] hold the state of a
    manager object while one of its methods runs. *)
Record Process := {
  env : World;
  pools_closed : nat;
}.

Record state := {
  self : Self;
  process : Process;
}.

Definition set_env (w : World) (e : Process) : Process :=
  {| env := w; pools_closed := pools_closed e |}.
Definition set_process (e : Process) (p : state) : state :=
  {| self := self p; process := e |}.

Definition in_env {A} (m : M World A) : M Process A := zoom env set_env m.
Definition in_process {A} (m : M Process A) : M state A :=
  zoom process set_process m.

(** A method of the [DatabaseManager] object [o], or of an object that
    holds it: the object is in the manager slot while the method runs. *)
Definition on_db_manager {A} (o : DbManager) (m : M World A)
  : World → Result A * DbManager * World :=
  fun w =>
    let '(r, w1) := m (set_dbm_db_config o w) in
    (r, dbm_db_config w1, set_dbm_db_config (dbm_db_config w) w1).

Definition pool_is_set (s : PoolState) : bool :=
  match s with NoPool => false | _ => true end.

(** The client as seen through the pool of [o]: [getconn] on a closed pool
    raises [PoolError], which is the one call a method makes on a pool that
    is set. *)
Definition through_pool (c : Client) (o : PoolManager) : Client :=
  match _connection_pool o with
  | PoolClosed => {| fault := fun _ => true; accepts := accepts c |}
  | _ => c
  end.

(** A method of an object that holds the [ConnectionPoolManager] [o]. *)
Definition on_pool_manager {A} (o : PoolManager) (m : M World A)
  : World → Result A * PoolManager * World :=
  fun w =>
    let '(r, w1) :=
      m (set_pool (pool_is_set (_connection_pool o))
           (set_cpm_db_config (_db_config o) w)) in
    (r,
     {| _db_config := cpm_db_config w1;
        _connection_pool := match _connection_pool o with
                            | NoPool => if pool w1 then PoolOpen else NoPool
                            | s => s
                            end |},
     set_pool (pool w) (set_cpm_db_config (cpm_db_config w) w1)).

(** [ConnectionPoolManager.close_pool]: [closeall] on a pool that is set;
    on a pool that is closed already [closeall] raises [PoolError].  The
    changed manager is returned. *)
Definition close_pool (o : PoolManager) : M Process PoolManager :=
  fun e =>
    match _connection_pool o with
    | NoPool => (Ok o, e)
    | PoolOpen =>
        (Ok {| _db_config := _db_config o; _connection_pool := PoolClosed |},
         {| env := env e; pools_closed := S (pools_closed e) |})
    | PoolClosed => (Raise PoolError, e)
    end.

(** [if self.config_manager.is_threading_enabled():] *)
Definition threading_enabled : M World bool :=
  let* v := zoom cm set_cm ConfigManager.is_threading_enabled in
  ret (truthy v).

(** [_get_database_manager], for the table manager: a new
    [DatabaseManager] ([Some]), or [self.db_manager] ([None]), an attribute
    that is there when [__init__] took the single-thread branch. *)
Definition _get_database_manager (has_db_manager : bool)
  : M World (option DbManager) :=
  let* enabled := threading_enabled in
  if enabled then ret (Some None)
  else if has_db_manager then ret None
  else raise AttributeError.

(** [AgodaDataPipeline(config_path)], the file at [config_path] being the
    one of [cm]: a new [ConfigManager], then the managers. *)
Definition __init__ : M Process Self :=
  in_env
    (run modify (fun w =>
           set_cm {| ConfigManager.config_yml := ConfigManager.config_yml (cm w);
                     ConfigManager._config_cache := PNone |} w) in
     let* enabled := threading_enabled in
     if enabled
     then
       let* table_db := _get_database_manager false in
       match table_db with
       | Some o => ret (Threaded {| _db_config := None;
                                    _connection_pool := NoPool |} o)
       | None => raise AttributeError
       end
     else
       let* table_db := _get_database_manager true in
       ret (Single None table_db)).

(** [self.table_manager.create_table(table_name)] *)
Definition create_table (c : Client) (table_name : option string)
  : M state bool :=
  fun p =>
    let w := env (process p) in
    let m := PgRoom.create_table c table_name in
    match self p with
    | Threaded pm o =>
        let '(r, o', w') := on_db_manager o m w in
        (r, {| self := Threaded pm o'; process := set_env w' (process p) |})
    | Single o None =>
        let '(r, o', w') := on_db_manager o m w in
        (r, {| self := Single o' None; process := set_env w' (process p) |})
    | Single db (Some o) =>
        let '(r, o', w') := on_db_manager o m w in
        (r, {| self := Single db (Some o'); process := set_env w' (process p) |})
    end.

(** [if target_table is None: target_table = get_table_name()] *)
Definition default_table (target_table : option string) : M state pyval :=
  match target_table with
  | Some name => ret (PStr name)
  | None => in_process (in_env (zoom cm set_cm ConfigManager.get_table_name))
  end.

(** [self.threaded_data_manager.insert_raw_data_threaded(...)] *)
Definition threaded_data_manager (c : Client) (sch : Schedule)
    (room_list : list Row) (target_table : pyval) : M state bool :=
  fun p =>
    match self p with
    | Threaded pm o =>
        let '(r, pm', w') :=
          on_pool_manager pm
            (AnyTable.insert_raw_data_threaded (through_pool c pm) sch
               room_list target_table)
            (env (process p)) in
        (r, {| self := Threaded pm' o; process := set_env w' (process p) |})
    | Single _ _ => (Raise AttributeError, p)
    end.

(** [self.data_manager.insert_raw_data(...)] *)
Definition data_manager (c : Client) (room_list : list Row)
    (target_table : pyval) : M state bool :=
  fun p =>
    match self p with
    | Single o t =>
        let '(r, o', w') :=
          on_db_manager o (AnyTable.insert_raw_data c room_list target_table)
            (env (process p)) in
        (r, {| self := Single o' t; process := set_env w' (process p) |})
    | Threaded _ _ => (Raise AttributeError, p)
    end.

Definition insert_data (c : Client) (sch : Schedule) (room_list : list Row)
    (target_table : option string) : M state bool :=
  let* target_table := default_table target_table in
  let* enabled := in_process (in_env threading_enabled) in
  if enabled
  then threaded_data_manager c sch room_list target_table
  else data_manager c room_list target_table.

Definition insert_data_single_thread (c : Client) (room_list : list Row)
    (target_table : option string) : M state bool :=
  let* target_table := default_table target_table in
  let* enabled := in_process (in_env threading_enabled) in
  if enabled
  then
    (* a [DatabaseManager] and a [DataManager] made for this call *)
    in_process (in_env (fun w =>
      let '(r, _, w') :=
        on_db_manager None (AnyTable.insert_raw_data c room_list target_table) w
      in (r, w')))
  else data_manager c room_list target_table.

(** The branch of [insert_data_multi_thread] for single-thread mode: a
    [ConnectionPoolManager] and a [ThreadedDataManager] made for this call;
    both the [try] and the handler close the pool. *)
Definition temp_threaded_data_manager (c : Client) (sch : Schedule)
    (room_list : list Row) (target_table : pyval) : M Process bool :=
  fun e =>
    let temp := {| _db_config := None; _connection_pool := NoPool |} in
    let '(r, temp, w') :=
      on_pool_manager temp
        (AnyTable.insert_raw_data_threaded c sch room_list target_table)
        (env e) in
    let handler := run close_pool temp in ret false in
    match r with
    | Ok result =>
        try_except (run close_pool temp in ret result) (fun _ => true)
          (fun _ => handler) (set_env w' e)
    | Raise _ => handler (set_env w' e)
    end.

Definition insert_data_multi_thread (c : Client) (sch : Schedule)
    (room_list : list Row) (target_table : option string) : M state bool :=
  let* target_table := default_table target_table in
  let* enabled := in_process (in_env threading_enabled) in
  if negb enabled
  then in_process (temp_threaded_data_manager c sch room_list target_table)
  else threaded_data_manager c sch room_list target_table.

Definition close : M state unit :=
  let* enabled := in_process (in_env threading_enabled) in
  fun p =>
    match enabled, self p with
    | true, Threaded pm o =>
        match close_pool pm (process p) with
        | (Ok pm', e) => (Ok tt, {| self := Threaded pm' o; process := e |})
        | (Raise x, e) => (Raise x, {| self := self p; process := e |})
        end
    | _, _ => (Ok tt, p)
    end.

(** [with AgodaDataPipeline() as pipeline: return body]: [__exit__] closes
    the pipeline whether the body returned or raised, and suppresses
    nothing. *)
Definition with_pipeline {A} (body : M state A) : M Process A :=
  fun e =>
    match __init__ e with
    | (Raise x, e1) => (Raise x, e1)
    | (Ok o, e1) =>
        let '(r, p1) := body {| self := o; process := e1 |} in
        match close p1 with
        | (Ok _, p2) => (r, process p2)
        | (Raise x, p2) => (Raise x, process p2)
        end
    end.

End AgodaDataPipeline.

(** The functions at the end of the module. *)
Module Functions.
Import PgRoom AgodaDataPipeline.

Definition create_table (c : Client) (table_name : option string)
  : M Process bool :=
  with_pipeline (AgodaDataPipeline.create_table c table_name).

Definition insert_raw_data (c : Client) (sch : Schedule) (room_list : list Row)
  : M Process bool :=
  with_pipeline (insert_data c sch room_list None).

Definition insert_raw_data_threaded (c : Client) (sch : Schedule)
    (room_list : list Row) (target_table : option string) : M Process bool :=
  with_pipeline (insert_data_multi_thread c sch room_list target_table).

End Functions.
(* ===================================================================== *)
(** ** Vocabulary for the pipeline *)
(* ===================================================================== *)

Module PipelineSpec.
Import PgRoom AgodaDataPipeline.

(** The pools set up by the calls [es], made when [n] calls were in the
    log: the [ThreadedConnectionPool] calls that did not raise. *)
Fixpoint pools_set_up (c : Client) (n : nat) (es : list Event) : nat :=
  match es with
  | [] => 0
  | e :: rest =>
      (match e with
       | EPoolInit => if fault c n then 0 else 1
       | _ => 0
       end + pools_set_up c (S n) rest)%nat
  end.

(** The pools that came to be set in a manager. *)
Definition pool_delta (before after : bool) : nat :=
  if before then 0%nat else if after then 1%nat else 0%nat.

(** From [w] to [w'] in the course of a method: a [ConfigManager] that has
    its configuration is left as it is, calls are added to the log, and a
    pool comes to be set exactly when a [ThreadedConnectionPool] call went
    through.  A method that is [quiet], and any method once the pool is
    set, leaves the pool as it is and asks for none. *)
Definition step (quiet : bool) (c : Client) (w w' : World) : Prop :=
  (ConfigManager._config_cache (cm w) ≠ PNone → cm w' = cm w)
  ∧ ∃ es, log w' = (log w ++ es)%list
          ∧ pools_set_up c (length (log w)) es = pool_delta (pool w) (pool w')
          ∧ (quiet = true ∨ pool w = true →
             pool w' = pool w ∧ Forall (fun e => e ≠ EPoolInit) es).

Definition steps (quiet : bool) (c : Client) {A} (m : M World A) : Prop :=
  ∀ w r w', m w = (r, w') → step quiet c w w'.

(** The calls a user makes on a pipeline. *)
Inductive Call :=
| CreateTable (table_name : option string)
| InsertData (sch : Schedule) (room_list : list Row)
    (target_table : option string)
| InsertDataSingleThread (room_list : list Row) (target_table : option string)
| InsertDataMultiThread (sch : Schedule) (room_list : list Row)
    (target_table : option string)
| Close.

(** The pipeline after a call, whether the call returned or raised. *)
Definition perform (c : Client) (k : Call) (p : state) : state :=
  match k with
  | CreateTable table_name => snd (create_table c table_name p)
  | InsertData sch room_list target_table =>
      snd (insert_data c sch room_list target_table p)
  | InsertDataSingleThread room_list target_table =>
      snd (insert_data_single_thread c room_list target_table p)
  | InsertDataMultiThread sch room_list target_table =>
      snd (insert_data_multi_thread c sch room_list target_table p)
  | Close => snd (close p)
  end.

Definition perform_all (c : Client) (calls : list Call) (p : state) : state :=
  fold_left (fun p k => perform c k p) calls p.

(** The mode [__init__] built the managers for. *)
Definition threaded (o : Self) : bool :=
  match o with Threaded _ _ => true | Single _ _ => false end.

(** The table manager has a [DatabaseManager] of its own. *)
Definition table_db_is_own (o : Self) : bool :=
  match o with Single _ None => false | _ => true end.

(** The pool of the pipeline that is set and not closed, if there is one. *)
Definition open_pools (o : Self) : nat :=
  match o with
  | Threaded pm _ =>
      match _connection_pool pm with PoolOpen => 1%nat | _ => 0%nat end
  | Single _ _ => 0%nat
  end.

(** From [p] to [p'] in the course of a call on the pipeline: the managers
    are those [__init__] made, the [ConfigManager] is as it was, and every
    pool that was set up has been closed or is the one still open in the
    pipeline. *)
Definition kept (c : Client) (p p' : state) : Prop :=
  cm (env (process p')) = cm (env (process p))
  ∧ threaded (self p') = threaded (self p)
  ∧ table_db_is_own (self p') = table_db_is_own (self p)
  ∧ ∃ es, log (env (process p')) = (log (env (process p)) ++ es)%list
          ∧ (pools_closed (process p') + open_pools (self p')
             = pools_closed (process p) + open_pools (self p)
               + pools_set_up c (length (log (env (process p)))) es)%nat.

Definition keeps (c : Client) {A} (m : M state A) : Prop :=
  ∀ p r p', m p = (r, p') →
    ConfigManager._config_cache (cm (env (process p))) ≠ PNone →
    kept c p p'.

(** The settings say [enabled], and the [ConfigManager] has them. *)
Definition settled (s : ConfigManager.state) (enabled : bool) : Prop :=
  ConfigManager._config_cache s ≠ PNone
  ∧ ∃ v, ConfigManager.is_threading_enabled s = (Ok v, s) ∧ truthy v = enabled.

(** The managers of [p] are those for what the settings say. *)
Definition in_mode (p : state) : Prop :=
  settled (cm (env (process p))) (threaded (self p))
  ∧ table_db_is_own (self p) = threaded (self p).

(** Every pool that a call of the function set up, the call has closed. *)
Definition closes_its_pools (c : Client) {A} (m : M Process A) : Prop :=
  ∀ e, let '(r, e') := m e in
       ∃ es, log (env e') = (log (env e) ++ es)%list
             ∧ pools_closed e'
               = (pools_closed e
                  + pools_set_up c (length (log (env e))) es)%nat.

End PipelineSpec.


(* ===================================================================== *)
(** * Properties *)
(* ===================================================================== *)

Local Open Scope nat_scope.
Local Open Scope list_scope.

(** ** Configuration loading ([config/sql_config.py]) *)

Section SqlConfigFacts.
Import SqlConfig.

(** A loader that holds a configuration answers from it and touches
    nothing, whatever the file has become. *)
Lemma get_config_hit (s : state) (o : pyobj) :
  _config_cache s = Some o → get_config false s = (Ok o, s).
Proof. intros H. unfold get_config, bind, gets. rewrite H. reflexivity. Qed.

(** A successful [get_config] leaves the returned object in the cache. *)
Lemma get_config_caches (b : bool) (s s1 : state) (o : pyobj) :
  get_config b s = (Ok o, s1) → _config_cache s1 = Some o.
Proof.
  unfold get_config, bind, gets, modify, ret.
  destruct (_config_cache s) as [o0|] eqn:Hc; [destruct b|];
    try (destruct (_load_yaml_config s) as [[o'|e] s'] eqn:Hl);
    intros H; inversion H; subst; try reflexivity; assumption.
Qed.

Lemma with_file_cache (f : file_state) (s : state) :
  _config_cache (with_file f s) = _config_cache s.
Proof. reflexivity. Qed.

(** What a load can end in. *)
Lemma _load_yaml_config_cases (s s' : state) (r : Result pyobj) :
  _load_yaml_config s = (r, s') →
  match config_yml s with
  | Absent => r = Raise DatabaseConfigError ∧ s' = s
  | Unloadable _ => r = Raise DatabaseConfigError ∧ s' = opened s
  | Content v =>
      s' = allocated (opened s) ∧
      r = if truthy v
          then Ok {| oid := next_oid s; opath := []; oval := v |}
          else Raise DatabaseConfigError
  end.
Proof.
  unfold _load_yaml_config, try_except, _load_yaml_config_try, raise.
  destruct (config_yml s) as [|e|v]; simpl;
    try (intros H; inversion H; subst; split; reflexivity).
  - destruct (is_YAMLError e); intros H; inversion H; subst; split; reflexivity.
  - destruct (truthy v); simpl; intros H; inversion H; subst; split; reflexivity.
Qed.

End SqlConfigFacts.

Section SqlConfigClaims.
Import SqlConfig.

(** With a configuration in the cache, [load_config] neither reads the file
    nor changes the loader. *)
Lemma load_config_hit (env : option string) (s : state) (o : pyobj)
    (f : file_state) :
  _config_cache s = Some o →
  snd (load_config env s) = s ∧
  load_config env (with_file f s) = (fst (load_config env s), with_file f s).
Proof.
  intros Hc.
  assert (Hc' : _config_cache (with_file f s) = Some o) by exact Hc.
  unfold load_config, get_database_config, try_except, bind.
  rewrite (get_config_hit s o Hc), (get_config_hit _ o Hc').
  destruct env as [name|]; simpl.
  - unfold lift, raise.
    destruct (obj_getitem o (PStr "database")) as [d|e]; simpl.
    + destruct (obj_getitem d (PStr name)) as [x|e]; simpl;
        [|destruct (is_KeyError e)]; split; reflexivity.
    + destruct (is_KeyError e); split; reflexivity.
  - unfold DatabaseConfigLoader_get_current_environment, try_except, bind.
    rewrite (get_config_hit s o Hc), (get_config_hit _ o Hc').
    unfold lift, raise, ret.
    destruct (obj_getitem o (PStr "environment")) as [e|e]; simpl.
    + destruct (obj_getitem e (PStr "current")) as [cur|e']; simpl.
      * destruct (obj_getitem o (PStr "database")) as [d|e']; simpl.
        -- destruct (obj_getitem d (oval cur)) as [x|e']; simpl;
             [|destruct (is_KeyError e')]; split; reflexivity.
        -- destruct (is_KeyError e'); split; reflexivity.
      * destruct (is_KeyError e'); simpl; [|split; reflexivity].
        destruct (obj_getitem o (PStr "database")) as [d|e'']; simpl.
        -- destruct (obj_getitem d (PStr "development")) as [x|e'']; simpl;
             [|destruct (is_KeyError e'')]; split; reflexivity.
        -- destruct (is_KeyError e''); split; reflexivity.
    + destruct (is_KeyError e); simpl; [|split; reflexivity].
      destruct (obj_getitem o (PStr "database")) as [d|e'']; simpl.
      * destruct (obj_getitem d (PStr "development")) as [x|e'']; simpl;
          [|destruct (is_KeyError e'')]; split; reflexivity.
      * destruct (is_KeyError e''); split; reflexivity.
Qed.

(** C4. The first [get_config] of a loader reads the file once and caches
    the object it built.  A second call without [force_reload] returns that
    very object and opens no file, whatever the file has become in between,
    and so does [load_config], which answers from the cached object.  A call
    with [force_reload] ([reload_config]) does not answer from the cache: it
    opens the file again whenever there is one, and what it returns and
    caches is a new object built from the file as it is now; when the file
    cannot be loaded it raises [DatabaseConfigError] and the loader is left
    with the configuration it had. *)
Theorem config_cached_until_forced_reload
    (s s1 : state) (o : pyobj) (f : file_state) :
  _config_cache s = None →
  get_config false s = (Ok o, s1) →
  let s1' := with_file f s1 in
  opens s1 = S (opens s)
  ∧ get_config false s1' = (Ok o, s1')
  ∧ (∀ env, snd (load_config env s1) = s1 ∧
            load_config env s1' = (fst (load_config env s1), s1'))
  ∧ opens (snd (get_config true s1')) =
      match f with Absent => opens s1 | _ => S (opens s1) end
  ∧ match get_config true s1' with
    | (Ok o', s2) =>
        f = Content (oval o') ∧ oid o' = next_oid s1 ∧ opath o' = [] ∧
        o' ≠ o ∧ _config_cache s2 = Some o' ∧
        get_config false s2 = (Ok o', s2)
    | (Raise e, s2) => e = DatabaseConfigError ∧ _config_cache s2 = Some o
    end
  ∧ reload_config s1' =
      (match fst (get_config true s1') with
       | Ok _ => Ok tt
       | Raise e => Raise e
       end, snd (get_config true s1')).
Proof.
  intros Hnone Hfirst s1'.
  pose proof (get_config_caches _ _ _ _ Hfirst) as Hc.
  assert (Hc' : _config_cache s1' = Some o) by exact Hc.
  (* what the first call did *)
  assert (Hload : config_yml s = Content (oval o) ∧ oid o = next_oid s ∧
                  s1 = set_cache (Some o) (allocated (opened s))).
  { revert Hfirst. unfold get_config, bind, gets, modify, ret. rewrite Hnone.
    destruct (_load_yaml_config s) as [[o'|e] s'] eqn:Hl; [|discriminate].
    intros H; inversion H; subst; clear H.
    apply _load_yaml_config_cases in Hl.
    destruct (config_yml s) as [|e0|v]; try (destruct Hl; discriminate).
    destruct Hl as [-> Hr]. destruct (truthy v); [|discriminate].
    inversion Hr; subst. repeat split; reflexivity. }
  destruct Hload as (Hfile & Hoid & Hs1).
  split; [subst s1; reflexivity|].
  split; [apply get_config_hit; exact Hc'|].
  split; [intros env; apply (load_config_hit env s1 o f Hc)|].
  assert (Hforce : get_config true s1' =
            match _load_yaml_config s1' with
            | (Ok o', s2) => (Ok o', set_cache (Some o') s2)
            | (Raise e, s2) => (Raise e, s2)
            end).
  { unfold get_config, bind, gets, modify, ret. rewrite Hc'.
    destruct (_load_yaml_config s1') as [[o'|e] s2]; reflexivity. }
  destruct (_load_yaml_config s1') as [r s2] eqn:Hl.
  pose proof (_load_yaml_config_cases _ _ _ Hl) as Hcases.
  assert (Hf : config_yml s1' = f) by reflexivity. rewrite Hf in Hcases.
  unfold reload_config, bind, ret. rewrite Hforce.
  destruct f as [|e0|v].
  - destruct Hcases as [-> ->]. repeat split; first [reflexivity | exact Hc].
  - destruct Hcases as [-> ->]. repeat split; first [reflexivity | exact Hc].
  - destruct Hcases as [-> ->]. destruct (truthy v); simpl.
    + repeat split; try reflexivity.
      intros Heq. assert (Hn : next_oid s1 = oid o) by (rewrite <- Heq; reflexivity).
      rewrite Hoid, Hs1 in Hn. simpl in Hn. lia.
    + repeat split; first [reflexivity | exact Hc].
Qed.

(** C5. When the loaded configuration has a database section and the
    requested environment name is not one of its keys,
    [get_database_config], and [load_config] with that argument, raise
    [DatabaseConfigError] and return no configuration. *)
Theorem unknown_environment_raises
    (s s1 : state) (config : pyobj) (d : list (string * pyval)) (name : string) :
  get_config false s = (Ok config, s1) →
  getitem (oval config) "database" = Ok (PDict d) →
  dict_lookup d name = None →
  get_database_config (Some name) s = (Raise DatabaseConfigError, s1)
  ∧ load_config (Some name) s = (Raise DatabaseConfigError, s1).
Proof.
  intros Hcfg Hdb Hmiss.
  assert (H : get_database_config (Some name) s = (Raise DatabaseConfigError, s1)).
  { unfold get_database_config, bind. rewrite Hcfg. simpl.
    unfold try_except, bind, lift, obj_getitem.
    destruct (oval config) as [| | | | |cfg] eqn:Hv; try discriminate.
    simpl in *. rewrite Hdb. simpl. rewrite Hmiss. reflexivity. }
  split; [exact H|].
  unfold load_config, try_except. rewrite H. reflexivity.
Qed.

(** C9, as the code has it.  When the loaded configuration has no
    [environment] key, or its [environment] section is a mapping without a
    [current] key, [get_current_environment] does not raise and returns
    ['development'], and [load_config] without an environment argument does
    what [load_config('development')] does. *)
Theorem default_environment_is_development
    (s s1 : state) (config : pyobj) (cfg : list (string * pyval)) :
  get_config false s = (Ok config, s1) →
  oval config = PDict cfg →
  (dict_lookup cfg "environment" = None ∨
   ∃ e, dict_lookup cfg "environment" = Some (PDict e) ∧
        dict_lookup e "current" = None) →
  DatabaseConfigLoader_get_current_environment s = (Ok (PStr "development"), s1)
  ∧ get_current_environment s = (Ok (PStr "development"), s1)
  ∧ load_config None s = load_config (Some "development") s.
Proof.
  intros Hcfg Hv Hno.
  assert (Henv : ∀ s0 s0', get_config false s0 = (Ok config, s0') →
            DatabaseConfigLoader_get_current_environment s0
            = (Ok (PStr "development"), s0')).
  { intros s0 s0' H0.
    unfold DatabaseConfigLoader_get_current_environment, bind. rewrite H0.
    unfold try_except, bind, lift, ret, obj_getitem. rewrite Hv. simpl.
    destruct Hno as [Hno|(e & He & Hcur)].
    - rewrite Hno. reflexivity.
    - rewrite He. simpl. rewrite Hcur. reflexivity. }
  split; [apply Henv; exact Hcfg|].
  split; [apply Henv; exact Hcfg|].
  unfold load_config, get_database_config, try_except, bind. rewrite Hcfg.
  rewrite (Henv s1 s1); [reflexivity|].
  apply get_config_hit. eapply get_config_caches; exact Hcfg.
Qed.

End SqlConfigClaims.

(** ** Application settings ([config/config_manager.py]) *)

Section ConfigManagerClaims.
Import ConfigManager Spec.

(** C10. For a loaded configuration without an [app] section, or with an
    [app] section that lacks the key an accessor reads, the accessor
    returns its default and does not fail: [get_batch_size] returns 100,
    [get_threading_config] returns [max_workers] 4, [chunk_size] 1000 and
    threading disabled, and [is_threading_enabled] returns [False], also
    for a [threading] section without [enable_threading]. *)
Theorem accessors_default
    (s s1 : state) (cfg : list (string * pyval)) :
  load_config s = (Ok (PDict cfg), s1) →
  (app_lacks cfg "batch_size" → get_batch_size s = (Ok (PInt 100), s1))
  ∧ (app_lacks cfg "threading" →
     get_threading_config s = (Ok default_threading, s1)
     ∧ getitem default_threading "max_workers" = Ok (PInt 4)
     ∧ getitem default_threading "chunk_size" = Ok (PInt 1000)
     ∧ getitem default_threading "enable_threading" = Ok (PBool false)
     ∧ is_threading_enabled s = (Ok (PBool false), s1))
  ∧ (∀ app th, dict_lookup cfg "app" = Some (PDict app) →
       dict_lookup app "threading" = Some (PDict th) →
       dict_lookup th "enable_threading" = None →
       is_threading_enabled s = (Ok (PBool false), s1)).
Proof.
  intros Hload. split; [|split].
  - intros [H|(app & H & Hk)];
      unfold get_batch_size, bind; rewrite Hload; unfold lift, get;
      rewrite H; simpl; [|rewrite Hk]; reflexivity.
  - intros Hl.
    assert (Hcfg : get_threading_config s = (Ok default_threading, s1)).
    { destruct Hl as [H|(app & H & Hk)];
        unfold get_threading_config, bind; rewrite Hload; unfold lift, get;
        rewrite H; simpl; [|rewrite Hk]; reflexivity. }
    repeat split; try reflexivity; try exact Hcfg.
    unfold is_threading_enabled, bind. rewrite Hcfg. reflexivity.
  - intros app th Happ Hth He.
    unfold is_threading_enabled, get_threading_config, bind.
    rewrite Hload. unfold lift, get. rewrite Happ. simpl. rewrite Hth. simpl.
    rewrite He. reflexivity.
Qed.

End ConfigManagerClaims.

(** ** Chunking ([ThreadedDataManager._chunk_data]) *)

Section Chunking.
Import PgRoom Spec.

Lemma chunk_count_covers (n : nat) (C : Z) :
  (0 < C)%Z → n ≤ chunk_count n C * Z.to_nat C.
Proof.
  intros HC. unfold chunk_count.
  pose proof (Z.div_mod (Z.of_nat n + C - 1) C ltac:(lia)) as Hdm.
  pose proof (Z.mod_pos_bound (Z.of_nat n + C - 1) C HC) as Hmod.
  assert (0 ≤ (Z.of_nat n + C - 1) / C)%Z by (apply Z.div_pos; lia).
  nia.
Qed.

Lemma chunk_count_tight (n : nat) (C : Z) (i : nat) :
  (0 < C)%Z → i < chunk_count n C → i * Z.to_nat C < n.
Proof.
  intros HC. unfold chunk_count.
  pose proof (Z.div_mod (Z.of_nat n + C - 1) C ltac:(lia)) as Hdm.
  pose proof (Z.mod_pos_bound (Z.of_nat n + C - 1) C HC) as Hmod.
  intros Hi. nia.
Qed.

Lemma slice_chunk {A} (l : list A) (i : nat) (C : Z) :
  (0 < C)%Z →
  slice l (Z.of_nat i * C) (Z.of_nat i * C + C)
  = take (Z.to_nat C) (drop (i * Z.to_nat C) l).
Proof.
  intros HC. unfold slice, slice_bound.
  assert (Hi : (0 ≤ Z.of_nat i * C)%Z) by nia.
  destruct (Z.ltb_spec (Z.of_nat i * C) 0); [lia|].
  destruct (Z.ltb_spec (Z.of_nat i * C + C) 0); [lia|].
  destruct (Z.le_gt_cases (Z.of_nat i * C + C) (Z.of_nat (length l))) as [Hle|Hgt].
  - rewrite !Z.min_l by lia. f_equal; [lia|f_equal; nia].
  - destruct (Z.le_gt_cases (Z.of_nat i * C) (Z.of_nat (length l))) as [Hle'|Hgt'].
    + rewrite (Z.min_l (Z.of_nat i * C)) by lia. rewrite Z.min_r by lia.
      replace (Z.to_nat (Z.of_nat i * C)) with (i * Z.to_nat C)%nat by nia.
      rewrite !take_ge; [reflexivity| |]; rewrite length_drop; nia.
    + rewrite !Z.min_r by lia.
      rewrite (drop_ge l (Z.to_nat (Z.of_nat (length l)))) by lia.
      rewrite (drop_ge l (i * Z.to_nat C)) by nia.
      rewrite !take_nil. reflexivity.
Qed.

Lemma _chunk_data_pos (data : list Row) (C : Z) :
  (0 < C)%Z →
  _chunk_data data (PInt C)
  = Ok ((λ k : nat, take (Z.to_nat C) (drop (k * Z.to_nat C) data))
          <$> seq 0 (chunk_count (length data) C)).
Proof.
  intros HC. unfold _chunk_data, range, range_len. simpl.
  destruct (Z.eqb_spec C 0); [lia|].
  destruct (Z.ltb_spec 0 C); [|lia].
  f_equal. rewrite map_map. unfold chunk_count.
  replace (Z.of_nat (length data) - 0 + C - 1)%Z
    with (Z.of_nat (length data) + C - 1)%Z by lia.
  apply map_ext. intros k. simpl. apply slice_chunk. exact HC.
Qed.

Lemma concat_chunks {A} (l : list A) (c m : nat) :
  concat ((λ k : nat, take c (drop (k * c) l)) <$> seq 0 m) = take (m * c) l.
Proof.
  induction m as [|m IH]; [reflexivity|].
  rewrite seq_S, fmap_app, concat_app, IH. simpl.
  rewrite app_nil_r, take_take_drop. f_equal. lia.
Qed.

(** The chunks of a positive chunk size are the consecutive slices of the
    list, none empty and all but the last full. *)
Lemma _chunk_data_spec (data : list Row) (C : Z) :
  (0 < C)%Z →
  ∃ chunks,
    _chunk_data data (PInt C) = Ok chunks
    ∧ length chunks = chunk_count (length data) C
    ∧ concat chunks = data
    ∧ (data ≠ [] → chunks ≠ [])
    ∧ ∀ i chunk, chunks !! i = Some chunk →
        chunk = take (Z.to_nat C) (drop (i * Z.to_nat C) data)
        ∧ 0 < length chunk ≤ Z.to_nat C
        ∧ (S i < length chunks → length chunk = Z.to_nat C).
Proof.
  intros HC. eexists. split; [apply _chunk_data_pos; exact HC|].
  pose proof (chunk_count_covers (length data) C HC) as Hcov.
  split; [rewrite length_fmap, length_seq; reflexivity|].
  split; [|split].
  - rewrite concat_chunks. apply take_ge. exact Hcov.
  - intros Hne Hnil. apply fmap_nil_inv in Hnil.
    assert (Hz : chunk_count (length data) C = 0)
      by (destruct (chunk_count (length data) C); [reflexivity|discriminate]).
    rewrite Hz in Hcov. destruct data; [congruence|simpl in Hcov; lia].
  - intros i chunk Hi. rewrite list_lookup_fmap in Hi.
    destruct (seq 0 (chunk_count (length data) C) !! i) as [k|] eqn:Hk;
      [|discriminate].
    apply lookup_seq in Hk. destruct Hk as [-> Hlt]. simpl in Hi.
    inversion Hi; subst chunk; clear Hi.
    pose proof (chunk_count_tight (length data) C i HC Hlt) as Htight.
    split; [reflexivity|].
    rewrite length_take, length_drop.
    split; [lia|].
    rewrite length_fmap, length_seq. intros HS.
    pose proof (chunk_count_tight (length data) C (S i) HC HS). lia.
Qed.

End Chunking.

(** ** The database seen through the client ([pg_room.py]) *)

Section Transactions.
Import PgRoom Spec.
Variable c : Client.

(** Reading the settings touches neither the database nor the log. *)
Lemma zoom_cm_frame {A} (m : M ConfigManager.state A) (w w' : World)
    (r : Result A) :
  zoom cm set_cm m w = (r, w') →
  tables w' = tables w ∧ work w' = work w ∧ log w' = log w ∧ pool w' = pool w.
Proof.
  unfold zoom. destruct (m (cm w)) as [r0 s']. intros H; inversion H; subst.
  repeat split; reflexivity.
Qed.

Lemma zoom_sql_frame {A} (m : M SqlConfig.state A) (w w' : World)
    (r : Result A) :
  zoom sql set_sql m w = (r, w') →
  tables w' = tables w ∧ work w' = work w ∧ log w' = log w ∧ pool w' = pool w.
Proof.
  unfold zoom. destruct (m (sql w)) as [r0 s']. intros H; inversion H; subst.
  repeat split; reflexivity.
Qed.

Lemma client_call_inv (ev : Event) (err : exn) (w w' : World) (r : Result unit) :
  client_call c ev err w = (r, w') →
  w' = add_event ev w ∧
  r = if fault c (length (log w)) then Raise err else Ok tt.
Proof.
  unfold client_call. destruct (fault c (length (log w)));
    intros H; inversion H; subst; split; reflexivity.
Qed.

Lemma ConnectionPoolManager__get_db_config_tables (w w' : World)
    (r : Result SqlConfig.pyobj) :
  ConnectionPoolManager__get_db_config w = (r, w') →
  tables w' = tables w ∧ log w' = log w.
Proof.
  unfold ConnectionPoolManager__get_db_config, bind, gets, modify, lift, ret.
  destruct (cpm_db_config w) as [o|].
  - intros H; inversion H; subst. split; reflexivity.
  - destruct (zoom sql set_sql (SqlConfig.load_config None) w) as [[o|e] w1] eqn:Hz;
      apply zoom_sql_frame in Hz; destruct Hz as (Ht & _ & Hl & _).
    + destruct (SqlConfig.obj_getitem o (PStr "host"));
        [destruct (SqlConfig.obj_getitem o (PStr "port"))|];
        intros H; inversion H; subst; split; assumption.
    + intros H; inversion H; subst; split; assumption.
Qed.

Lemma DatabaseManager__get_db_config_tables (w w' : World)
    (r : Result SqlConfig.pyobj) :
  DatabaseManager__get_db_config w = (r, w') →
  tables w' = tables w ∧ log w' = log w.
Proof.
  unfold DatabaseManager__get_db_config, bind, gets, modify, lift, ret.
  destruct (dbm_db_config w) as [o|].
  - intros H; inversion H; subst. split; reflexivity.
  - destruct (zoom sql set_sql (SqlConfig.load_config None) w) as [[o|e] w1] eqn:Hz;
      apply zoom_sql_frame in Hz; destruct Hz as (Ht & _ & Hl & _).
    + destruct (SqlConfig.obj_getitem o (PStr "host"));
        [destruct (SqlConfig.obj_getitem o (PStr "port"))|];
        intros H; inversion H; subst; split; assumption.
    + intros H; inversion H; subst; split; assumption.
Qed.

Lemma _initialize_pool_tables (w w' : World) (r : Result unit) :
  _initialize_pool c w = (r, w') → tables w' = tables w.
Proof.
  unfold _initialize_pool, bind, gets, modify, lift, ret.
  destruct (pool w); [intros H; inversion H; subst; reflexivity|].
  destruct (ConnectionPoolManager__get_db_config w) as [[o|e] w1] eqn:H1;
    apply ConnectionPoolManager__get_db_config_tables in H1; destruct H1 as [H1 _];
    [|intros H; inversion H; subst; assumption].
  destruct (zoom cm set_cm ConfigManager.get_connection_pool_config w1)
    as [[pc|e] w2] eqn:H2; apply zoom_cm_frame in H2; destruct H2 as (H2 & _);
    [|intros H; inversion H; subst; congruence].
  destruct (getitem pc "min_connections");
    [|intros H; inversion H; subst; congruence].
  destruct (getitem pc "max_connections");
    [|intros H; inversion H; subst; congruence].
  destruct (kwargs (SqlConfig.oval o));
    [|intros H; inversion H; subst; congruence].
  destruct (client_call c EPoolInit DatabaseError w2) as [[[]|e] w3] eqn:H3;
    apply client_call_inv in H3; destruct H3 as [-> _];
    intros H; inversion H; subst; simpl; congruence.
Qed.

Lemma getconn_inv (w w' : World) (r : Result unit) :
  getconn c w = (r, w') →
  tables w' = tables w ∧
  log w' = log w ++ [EGetConn] ∧
  (r = Ok tt → work w' = tables w).
Proof.
  unfold getconn, bind.
  destruct (client_call c EGetConn PoolError w) as [[[]|e] w1] eqn:H1;
    apply client_call_inv in H1; destruct H1 as [-> _];
    intros H; inversion H; subst; simpl; repeat split; try reflexivity.
  discriminate.
Qed.

Lemma commit_inv (w w' : World) (r : Result unit) :
  commit c w = (r, w') →
  log w' = log w ++ [ECommit] ∧
  match r with
  | Ok _ => tables w' = work w
  | Raise _ => tables w' = tables w
  end.
Proof.
  unfold commit, bind.
  destruct (client_call c ECommit DatabaseError w) as [[[]|e] w1] eqn:H1;
    apply client_call_inv in H1; destruct H1 as [-> _];
    intros H; inversion H; subst; simpl; split; reflexivity.
Qed.

Lemma bind_all_length (columns : list string) (rows rows' : list Row) :
  bind_all columns rows = Ok rows' → length rows' = length rows.
Proof.
  revert rows'. induction rows as [|r rows IH]; intros rows'; simpl.
  - intros H; inversion H; reflexivity.
  - destruct (bind_params columns r); [|discriminate].
    destruct (bind_all columns rows) as [rs|]; [|discriminate].
    intros H; inversion H; subst. simpl. f_equal. apply IH. reflexivity.
Qed.

(** [execute_batch] never touches the committed state; when it returns, the
    open transaction holds as many more rows of the table as it was given
    records. *)
Lemma execute_batch_inv (table : pyval) (columns : list string)
    (argslist : list Row) (page_size : pyval) (w w' : World) (r : Result unit) :
  execute_batch c table columns argslist page_size w = (r, w') →
  tables w' = tables w ∧
  (r = Ok tt →
   ∃ n existing rows,
     sql_ident table = Some n ∧ work w !! n = Some existing ∧
     length rows = length argslist ∧
     work w' = <[n := (existing ++ rows)%list]> (work w)).
Proof.
  unfold execute_batch, bind, lift, raise, ret.
  destruct (as_int page_size) as [ps|e];
    [|intros H; inversion H; subst; split; [reflexivity|discriminate]].
  destruct (ps <=? 0)%Z;
    [intros H; inversion H; subst; split; [reflexivity|discriminate]|].
  destruct (bind_all columns argslist) as [rows|e] eqn:Hb;
    [|intros H; inversion H; subst; split; [reflexivity|discriminate]].
  destruct (client_call c _ DatabaseError w) as [[[]|e] w1] eqn:H1;
    apply client_call_inv in H1; destruct H1 as [-> _];
    [|intros H; inversion H; subst; split; [reflexivity|discriminate]].
  destruct (sql_ident table) as [n|];
    [|intros H; inversion H; subst; split; [reflexivity|discriminate]].
  simpl. destruct (work w !! n) as [existing|] eqn:Hw;
    [|intros H; inversion H; subst; split; [reflexivity|discriminate]].
  destruct (accepts c n existing rows);
    intros H; inversion H; subst; split; try reflexivity; try discriminate.
  intros _. exists n, existing, rows.
  repeat split; first [reflexivity | exact Hw | exact (bind_all_length _ _ _ Hb)].
Qed.

End Transactions.

Section Rollback.
Import PgRoom Spec.

(** A rollback is logged and changes no table; it raises exactly when the
    client faults, and when it returns the transaction is back at what is
    committed. *)
Lemma rollback_inv (c : Client) (w w' : World) (r : Result unit) :
  rollback c w = (r, w') →
  tables w' = tables w ∧
  log w' = log w ++ [ERollback] ∧
  r = (if fault c (length (log w)) then Raise DatabaseError else Ok tt) ∧
  (r = Ok tt → work w' = tables w).
Proof.
  unfold rollback, bind.
  destruct (client_call c ERollback DatabaseError w) as [[[]|e] w1] eqn:H1;
    apply client_call_inv in H1; destruct H1 as [-> Hr];
    intros H; inversion H; subst; repeat split; try exact Hr.
  intros Hx. rewrite Hx in Hr. discriminate.
Qed.

End Rollback.

(** Case analysis on every rollback in the goal. *)
Ltac roll :=
  repeat match goal with
  | |- context [PgRoom.rollback ?c ?w] =>
      let H := fresh "Hrb" in
      let Ht := fresh "Hrt" in
      let Hl := fresh "Hrl" in
      let Hr := fresh "Hrr" in
      let Hw := fresh "Hrw" in
      let e := fresh "er" in
      let w' := fresh "wr" in
      destruct (PgRoom.rollback c w) as [[[]|e] w'] eqn:H;
      apply rollback_inv in H; destruct H as (Ht & Hl & Hr & Hw)
  end.

Section ChunkInsert.
Import PgRoom Spec.
Variable c : Client.

(** One chunk: a returned count is the chunk's length and the table has
    that many more rows; a raised exception leaves the tables as they
    were. *)
Lemma _insert_chunk_inv (chunk : list Row) (target : string) (i : nat)
    (w w' : World) (r : Result nat) :
  _insert_chunk c chunk target i w = (r, w') →
  match r with
  | Ok n => n = length chunk ∧
            row_count w' target = (λ k, k + length chunk) <$> row_count w target
  | Raise _ => tables w' = tables w
  end.
Proof.
  unfold _insert_chunk. destruct chunk as [|first rest].
  { intros H; inversion H; subst. split; [reflexivity|].
    unfold row_count. destruct (tables w' !! target); simpl; [f_equal; lia|done]. }
  set (chunk := first :: rest).
  unfold bind.
  destruct (zoom cm set_cm ConfigManager.get_batch_size w) as [[bs|e] w1] eqn:H1;
    apply zoom_cm_frame in H1; destruct H1 as (Ht1 & _);
    [|intros H; inversion H; subst; exact Ht1].
  unfold ConnectionPoolManager_get_connection.
  destruct (_initialize_pool c w1) as [[[]|e] w0] eqn:H0;
    apply _initialize_pool_tables in H0;
    [|intros H; inversion H; subst; congruence].
  destruct (getconn c w0) as [[[]|e] w2] eqn:H2;
    apply getconn_inv in H2; destruct H2 as (Ht2 & _ & Hw2);
    [|intros H; inversion H; subst; congruence].
  specialize (Hw2 eq_refl).
  unfold try_except, bind, raise, ret.
  destruct (execute_batch c (PStr target) (dict_keys first) chunk bs w2)
    as [[[]|e] w3] eqn:H3; apply execute_batch_inv in H3;
    destruct H3 as (Ht3 & Hok).
  - destruct (Hok eq_refl) as (n & existing & rows & Hn & Hex & Hlen & Hw3).
    simpl in Hn. inversion Hn; subst n; clear Hn Hok.
    destruct (commit c w3) as [[[]|e] w4] eqn:H4; apply commit_inv in H4;
      destruct H4 as (_ & Ht4).
    + intros H; inversion H; subst; clear H. split; [reflexivity|].
      unfold row_count. simpl. rewrite Ht4, Hw3, lookup_insert_eq.
      assert (Hrow : tables w !! target = Some existing)
        by (rewrite <- Ht1, <- H0, <- Hw2; exact Hex).
      rewrite Hrow. simpl. rewrite length_app, Hlen. reflexivity.
    + simpl.
      destruct (rollback c w4) as [[[]|e1] w5] eqn:R1; apply rollback_inv in R1;
        destruct R1 as (Hr1 & _);
        (destruct (rollback c w5) as [[[]|e2] w6] eqn:R2;
         apply rollback_inv in R2; destruct R2 as (Hr2 & _));
        intros H; inversion H; subst; clear H; simpl; congruence.
  - simpl.
    destruct (rollback c w3) as [[[]|e1] w5] eqn:R1; apply rollback_inv in R1;
      destruct R1 as (Hr1 & _);
      (destruct (rollback c w5) as [[[]|e2] w6] eqn:R2;
       apply rollback_inv in R2; destruct R2 as (Hr2 & _));
      intros H; inversion H; subst; clear H; simpl; congruence.
Qed.

End ChunkInsert.

(** ** The threaded insert ([ThreadedDataManager.insert_raw_data_threaded]) *)

Section ThreadedRun.
Import PgRoom Spec.
Variable c : Client.

Lemma future_result_elem (futures : list (nat * Result nat)) (i : nat)
    (r : Result nat) :
  future_result futures i = Some r → (i, r) ∈ futures.
Proof.
  induction futures as [|[j r0] rest IH]; simpl; [discriminate|].
  destruct (Nat.eqb_spec j i) as [->|Hne].
  - intros H; inversion H; subst. apply list_elem_of_here.
  - intros H. apply list_elem_of_further, IH, H.
Qed.

(** A future is found under its index when no index was submitted twice. *)
Lemma future_result_unique (futures : list (nat * Result nat)) (i : nat)
    (r : Result nat) :
  NoDup futures.*1 → (i, r) ∈ futures → future_result futures i = Some r.
Proof.
  induction futures as [|[j r0] rest IH]; simpl; intros Hnd Hin.
  - inversion Hin.
  - apply NoDup_cons in Hnd. destruct Hnd as [Hnotin Hnd].
    apply elem_of_cons in Hin. destruct Hin as [Heq|Hin].
    + inversion Heq; subst. rewrite Nat.eqb_refl. reflexivity.
    + destruct (Nat.eqb_spec j i) as [->|Hne]; [|apply IH; assumption].
      exfalso. apply Hnotin. apply list_elem_of_fmap. exists (i, r). split; [reflexivity|exact Hin].
Qed.

(** Every future comes from running [_insert_chunk] on the chunk of its
    index, and the futures are those of the scheduled indices. *)
Lemma run_tasks_inv (target : string) (chunks : list (list Row))
    (order : list nat) (w w' : World) (futures : list (nat * Result nat)) :
  run_tasks c target chunks order w = (futures, w') →
  futures.*1 = filter (λ i, i < length chunks) order
  ∧ (∀ i r, (i, r) ∈ futures →
       ∃ chunk, chunks !! i = Some chunk ∧
                match r with Ok n => n = length chunk | Raise _ => True end)
  ∧ ((∀ i r, (i, r) ∈ futures → ∃ n, r = Ok n) →
     row_count w' target
     = (λ k, k + sum_list_with (λ i, from_option length 0 (chunks !! i)) order)
         <$> row_count w target).
Proof.
  revert w futures. induction order as [|i rest IH]; intros w futures; simpl.
  - intros H; inversion H; subst. split; [reflexivity|].
    split; [intros i r Hin; inversion Hin|].
    intros _. unfold row_count. destruct (tables w' !! target); simpl;
      [f_equal; lia|done].
  - destruct (chunks !! i) as [chunk|] eqn:Hi.
    + destruct (_insert_chunk c chunk target i w) as [r w1] eqn:H1.
      destruct (run_tasks c target chunks rest w1) as [rs w2] eqn:H2.
      intros H; inversion H; subst; clear H.
      destruct (IH _ _ H2) as (IHidx & IHel & IHrows).
      apply _insert_chunk_inv in H1.
      split; [|split].
      * rewrite filter_cons_True by (apply lookup_lt_Some in Hi; exact Hi).
        simpl. f_equal. exact IHidx.
      * intros j r' Hin. apply elem_of_cons in Hin.
        destruct Hin as [Heq|Hin]; [|apply IHel; exact Hin].
        injection Heq as -> ->. exists chunk. split; [exact Hi|].
        destruct r; [apply H1|exact I].
      * intros Hall.
        destruct (Hall i r (list_elem_of_here _ _)) as [n ->].
        destruct H1 as [_ H1].
        rewrite IHrows, H1
          by (intros j r' Hin; apply (Hall j r'), list_elem_of_further, Hin).
        simpl. destruct (row_count w target); simpl; [f_equal; lia|done].
    + intros H. destruct (IH _ _ H) as (IHidx & IHel & IHrows).
      split; [|split].
      * rewrite filter_cons_False by (apply lookup_ge_None in Hi; lia).
        exact IHidx.
      * exact IHel.
      * intros Hall. rewrite (IHrows Hall). simpl. reflexivity.
Qed.

(** The loop over the completed futures says [False] as soon as one of them
    holds an exception. *)
Lemma gather_raise (futures : list (nat * Result nat)) (order : list nat)
    (total : nat) (i : nat) (e : exn) :
  i ∈ order → future_result futures i = Some (Raise e) →
  fst (gather futures order total) = false.
Proof.
  revert total. induction order as [|j rest IH]; intros total Hin Hr.
  - inversion Hin.
  - simpl. destruct (future_result futures j) as [[n|e']|] eqn:Hj;
      try reflexivity;
      (apply elem_of_cons in Hin; destruct Hin as [->|Hin];
       [congruence|apply IH; assumption]).
Qed.

(** With a count in every completed future, the loop adds them all up. *)
Lemma gather_all (futures : list (nat * Result nat)) (order : list nat)
    (total : nat) (f : nat → nat) :
  (∀ i, i ∈ order → future_result futures i = Some (Ok (f i))) →
  gather futures order total = (true, total + sum_list_with f order).
Proof.
  revert total. induction order as [|j rest IH]; intros total Hall; simpl.
  - f_equal. lia.
  - rewrite (Hall j (list_elem_of_here _ _)).
    rewrite IH by (intros i Hi; apply Hall, list_elem_of_further, Hi).
    f_equal. lia.
Qed.

Lemma sum_lengths_concat {A} (ls : list (list A)) :
  sum_list_with length ls = length (concat ls).
Proof.
  induction ls as [|l ls IH]; simpl; [reflexivity|].
  rewrite length_app, IH. reflexivity.
Qed.

Lemma sum_over_indices {A} (ls : list (list A)) :
  sum_list_with (λ i, from_option length 0 (ls !! i)) (seq 0 (length ls))
  = length (concat ls).
Proof.
  rewrite <- sum_lengths_concat.
  induction ls as [|l ls IH] using rev_ind; [reflexivity|].
  rewrite length_app. simpl. rewrite Nat.add_1_r, seq_S.
  rewrite !sum_list_with_app. simpl. rewrite <- IH.
  rewrite lookup_app_r, Nat.sub_diag by lia. simpl.
  f_equal. clear IH.
  assert (H : ∀ k n, k + n ≤ length ls →
            sum_list_with (λ i, from_option length 0 ((ls ++ [l]) !! i)) (seq k n)
            = sum_list_with (λ i, from_option length 0 (ls !! i)) (seq k n)).
  { intros k n. revert k. induction n as [|n IHn]; intros k Hk; simpl;
      [reflexivity|].
    rewrite lookup_app_l by lia. rewrite IHn by lia. reflexivity. }
  apply H. lia.
Qed.

End ThreadedRun.

Section ThreadedClaims.
Import PgRoom Spec.
Variable c : Client.

Lemma zoom_threading_config (w : World) :
  zoom cm set_cm ConfigManager.get_threading_config w
  = (fst (ConfigManager.get_threading_config (cm w)),
     set_cm (snd (ConfigManager.get_threading_config (cm w))) w).
Proof.
  unfold zoom. destruct (ConfigManager.get_threading_config (cm w)); reflexivity.
Qed.

(** What a call on a non-empty list comes down to once the settings are
    read and the executor is up. *)
Lemma threaded_run_unfold (sch : Schedule) (data : list Row) (target : string)
    (w : World) (W Cv : pyval) (chunks : list (list Row)) :
  data ≠ [] →
  configured w "max_workers" = Ok W →
  configured w "chunk_size" = Ok Cv →
  _chunk_data data Cv = Ok chunks →
  let w1 := set_cm (snd (ConfigManager.get_threading_config (cm w))) w in
  insert_raw_data_threaded_run c sch data target w
  = match ThreadPoolExecutor W with
    | Raise _ => ({| returned := Ok false; total_inserted := 0;
                     future_to_chunk := [] |}, w1)
    | Ok _ =>
        let '(futures, w2) := run_tasks c target chunks (started sch) w1 in
        let '(ok, total) := gather futures (completed sch) 0 in
        ({| returned := Ok ok; total_inserted := total;
            future_to_chunk := futures |}, w2)
    end.
Proof.
  intros Hne HW HC Hch. unfold insert_raw_data_threaded_run.
  destruct data as [|first rest]; [congruence|].
  rewrite zoom_threading_config. unfold configured in HW, HC.
  destruct (ConfigManager.get_threading_config (cm w)) as [[tc|e] s']; simpl;
    [|roll; discriminate].
  rewrite HW, HC, Hch. reflexivity.
Qed.

(** C1. For a positive chunk size [C], [_chunk_data] returns the
    consecutive slices of the list: their concatenation is the list, chunk
    [i] starts at record [i * C], every chunk has [C] records except
    possibly the last, which has at least one.  When the configured chunk
    size is [C], then for any worker count [W] and any order in which the
    futures complete, if every chunk's [_insert_chunk] returned, the call
    returns [True] and [total_inserted] is the number of records. *)
Theorem threaded_insert_counts_every_record
    (sch : Schedule) (data : list Row) (target : string) (w : World)
    (C : Z) (W : pyval) :
  (0 < C)%Z →
  ∃ chunks,
    _chunk_data data (PInt C) = Ok chunks
    ∧ concat chunks = data
    ∧ (∀ i chunk, chunks !! i = Some chunk →
         chunk = take (Z.to_nat C) (drop (i * Z.to_nat C) data)
         ∧ 0 < length chunk ≤ Z.to_nat C
         ∧ (S i < length chunks → length chunk = Z.to_nat C))
    ∧ (configured w "chunk_size" = Ok (PInt C) →
       configured w "max_workers" = Ok W →
       completed sch ≡ₚ seq 0 (length chunks) →
       let r := fst (insert_raw_data_threaded_run c sch data target w) in
       every_chunk_inserted r (length chunks) →
       returned r = Ok true
       ∧ total_inserted r = length data
       ∧ fst (insert_raw_data_threaded c sch data target w) = Ok true).
Proof.
  intros HC.
  destruct (_chunk_data_spec data C HC) as (chunks & Hch & _ & Hcat & Hne & Hsz).
  exists chunks. split; [exact Hch|]. split; [exact Hcat|]. split; [exact Hsz|].
  intros HCfg HW Hperm r Hall.
  assert (Hret : returned r = Ok true ∧ total_inserted r = length data).
  { subst r. destruct data as [|first rest] eqn:Hdata; [split; reflexivity|].
    rewrite <- Hdata in *.
    assert (Hd : data ≠ []) by (rewrite Hdata; discriminate).
    revert Hall.
    rewrite (threaded_run_unfold sch data target w W (PInt C) chunks Hd HW HCfg Hch).
    assert (Hpos : 0 < length chunks).
    { specialize (Hne Hd). destruct chunks; [congruence|simpl; lia]. }
    destruct (ThreadPoolExecutor W).
    2:{ simpl. intros Hall. destruct (Hall 0 Hpos) as [k Hk]. discriminate. }
    destruct (run_tasks c target chunks (started sch) _) as [futures w2] eqn:Hrun.
    destruct (gather futures (completed sch) 0) as [ok total] eqn:Hg.
    simpl. intros Hall. unfold every_chunk_inserted in Hall. simpl in Hall.
    apply run_tasks_inv in Hrun. destruct Hrun as (_ & Hel & _).
    assert (Hcount : ∀ i, i ∈ completed sch →
              future_result futures i
              = Some (Ok (from_option length 0 (chunks !! i)))).
    { intros i Hi. rewrite Hperm in Hi. apply elem_of_seq in Hi.
      destruct (Hall i ltac:(lia)) as [k Hk]. rewrite Hk.
      apply future_result_elem in Hk.
      destruct (Hel _ _ Hk) as (chunk & Hi' & Hlen).
      rewrite Hi'. simpl. congruence. }
    rewrite (gather_all _ _ _ _ Hcount) in Hg. inversion Hg; subst.
    split; [reflexivity|].
    rewrite (sum_list_with_Permutation_proper _ _ _ Hperm).
    rewrite sum_over_indices, Hcat. reflexivity. }
  destruct Hret as [Hret Htot]. split; [exact Hret|]. split; [exact Htot|].
  unfold insert_raw_data_threaded. subst r.
  destruct (insert_raw_data_threaded_run c sch data target w). exact Hret.
Qed.

End ThreadedClaims.

Section InsertClaims.
Import PgRoom Spec.

Lemma DatabaseManager_acquire_inv (c : Client) (w w' : World) (r : Result unit) :
  DatabaseManager_acquire c w = (r, w') →
  tables w' = tables w ∧
  match r with
  | Ok _ => work w' = tables w ∧ log w' = log w ++ [EConnect] ∧
            ∃ o d, dbm_db_config w' = Some o ∧ SqlConfig.oval o = PDict d
  | Raise _ => True
  end.
Proof.
  unfold DatabaseManager_acquire, connect, bind, lift.
  destruct (DatabaseManager__get_db_config w) as [[o|e] w1] eqn:H1.
  2:{ apply DatabaseManager__get_db_config_tables in H1. destruct H1 as [Ht _].
      intros Hx; inversion Hx; subst. split; [exact Ht|exact I]. }
  assert (Hcached : kwargs (SqlConfig.oval o) = Ok tt →
            ∃ d, dbm_db_config w1 = Some o ∧ SqlConfig.oval o = PDict d).
  { revert H1.
    unfold DatabaseManager__get_db_config, bind, gets, modify, lift, ret.
    destruct (dbm_db_config w) as [o0|] eqn:Hc.
    - intros H; inversion H; subst. intros Hk.
      destruct (SqlConfig.oval o) eqn:Hv; try discriminate. eauto.
    - destruct (zoom sql set_sql (SqlConfig.load_config None) w) as [[o0|e] w0];
        [|roll; discriminate].
      destruct (SqlConfig.obj_getitem o0 (PStr "host")); [|roll; discriminate].
      destruct (SqlConfig.obj_getitem o0 (PStr "port")); [|roll; discriminate].
      intros H; inversion H; subst. intros Hk. simpl. unfold as_cached.
      destruct (SqlConfig.oval o) eqn:Hv; try discriminate. eauto. }
  apply DatabaseManager__get_db_config_tables in H1. destruct H1 as [Ht Hl].
  destruct (kwargs (SqlConfig.oval o)) as [[]|e];
    [|intros H; inversion H; subst; split; [assumption|exact I]].
  destruct (Hcached eq_refl) as (d & Hc & Hd).
  destruct (client_call c EConnect DatabaseError w1) as [[[]|e] w2] eqn:H2;
    apply client_call_inv in H2; destruct H2 as [-> _];
    intros H; inversion H; subst; simpl; (split; [assumption|]); [|exact I].
  repeat split; [assumption|congruence|]. eauto.
Qed.

(** The sequential path returns a boolean whatever happens, and [True] only
    after it has added every record to the table. *)
Lemma insert_raw_data_inv (c : Client) (data : list Row) (target : string)
    (w w' : World) (r : Result bool) :
  insert_raw_data c data (Some target) w = (r, w') →
  ∃ b, r = Ok b ∧
    (b = true →
     row_count w' target = (λ k, k + length data) <$> row_count w target).
Proof.
  unfold insert_raw_data. destruct data as [|first rest].
  { intros H; inversion H; subst. exists true. split; [reflexivity|].
    intros _. unfold row_count. destruct (tables w' !! target); simpl;
      [f_equal; lia|done]. }
  set (data := first :: rest).
  unfold try_except, DatabaseManager_get_connection, ret.
  destruct (DatabaseManager_acquire c w) as [[[]|e] w1] eqn:H1;
    [|intros H; inversion H; subst; exists false; split; [reflexivity|discriminate]].
  apply DatabaseManager_acquire_inv in H1. destruct H1 as (Ht1 & Hw1 & _).
  unfold bind.
  destruct (zoom cm set_cm ConfigManager.get_batch_size w1) as [[bs|e] w2] eqn:H2;
    apply zoom_cm_frame in H2; destruct H2 as (Ht2 & Hw2 & _);
    [|simpl; roll; (intros H; inversion H; subst; exists false;
      split; [reflexivity|discriminate])].
  destruct (execute_batch c (table_arg (Some target)) (dict_keys first) data bs w2)
    as [[[]|e] w3] eqn:H3; apply execute_batch_inv in H3;
    destruct H3 as (Ht3 & Hok);
    [|simpl; roll; (intros H; inversion H; subst; exists false;
      split; [reflexivity|discriminate])].
  destruct (Hok eq_refl) as (n & existing & rows & Hn & Hex & Hlen & Hw3).
  simpl in Hn. inversion Hn; subst n; clear Hn Hok.
  destruct (commit c w3) as [[[]|e] w4] eqn:H4; apply commit_inv in H4;
    destruct H4 as (_ & Ht4);
    [|simpl; roll; (intros H; inversion H; subst; exists false;
      split; [reflexivity|discriminate])].
  simpl. intros H; inversion H; subst; clear H.
  exists true. split; [reflexivity|]. intros _.
  unfold row_count. simpl. rewrite Ht4, Hw3, lookup_insert_eq.
  assert (Hrow : tables w !! target = Some existing)
    by (rewrite <- Hw1, <- Hw2; exact Hex).
  rewrite Hrow. simpl. rewrite length_app, Hlen. reflexivity.
Qed.

(** The ways a call of the threaded path can go. *)
Lemma threaded_run_cases (c : Client) (sch : Schedule) (data : list Row)
    (target : string) (w w' : World) (r : Run) :
  insert_raw_data_threaded_run c sch data target w = (r, w') →
  (data = [] ∧ returned r = Ok true ∧ future_to_chunk r = [] ∧ w' = w)
  ∨ (data ≠ [] ∧ future_to_chunk r = [] ∧ returned r ≠ Ok true)
  ∨ (∃ Cv chunks w1 futures,
       data ≠ [] ∧ configured w "chunk_size" = Ok Cv ∧
       _chunk_data data Cv = Ok chunks ∧ tables w1 = tables w ∧
       run_tasks c target chunks (started sch) w1 = (futures, w') ∧
       future_to_chunk r = futures ∧
       returned r = Ok (fst (gather futures (completed sch) 0))).
Proof.
  unfold insert_raw_data_threaded_run. destruct data as [|first rest].
  { intros H; inversion H; subst. left. repeat split; reflexivity. }
  cbv beta iota. set (data := first :: rest). intros Hrun0. right. revert Hrun0.
  assert (Hd : data ≠ []) by discriminate.
  rewrite zoom_threading_config. unfold configured.
  destruct (ConfigManager.get_threading_config (cm w)) as [[tc|e] s']; simpl;
    [|intros H; inversion H; subst; left; repeat split;
      [assumption|discriminate]].
  destruct (getitem tc "max_workers") as [W|e];
    [|intros H; inversion H; subst; left; repeat split;
      [assumption|discriminate]].
  destruct (getitem tc "chunk_size") as [Cv|e];
    [|intros H; inversion H; subst; left; repeat split;
      [assumption|discriminate]].
  destruct (_chunk_data data Cv) as [chunks|e] eqn:Hch;
    [|intros H; inversion H; subst; left; repeat split;
      [assumption|discriminate]].
  destruct (ThreadPoolExecutor W);
    [|intros H; inversion H; subst; left; repeat split;
      [assumption|discriminate]].
  destruct (run_tasks c target chunks (started sch) (set_cm s' w))
    as [futures w2] eqn:Hrun.
  destruct (gather futures (completed sch) 0) as [ok total] eqn:Hg.
  intros H; inversion H; subst; clear H. right.
  exists Cv, chunks, (set_cm s' w), futures.
  rewrite Hg. repeat split; assumption || reflexivity.
Qed.

(** [create_table] with a table name catches whatever is raised while it
    holds or seeks the connection. *)
Lemma create_table_returns (c : Client) (name : string) (w : World) :
  ∃ b, fst (create_table c (Some name) w) = Ok b.
Proof.
  unfold create_table, bind, ret, try_except.
  destruct (DatabaseManager_get_connection c _ w) as [[b|e] w1]; simpl; eauto.
Qed.

End InsertClaims.

Section InsertTheorems.
Import PgRoom Spec.

Lemma insert_raw_data_returns (c : Client) (data : list Row)
    (target : option string) (w : World) :
  ∃ b, fst (insert_raw_data c data target w) = Ok b.
Proof.
  unfold insert_raw_data. destruct data as [|first rest]; [simpl; eauto|].
  unfold try_except, ret.
  destruct (DatabaseManager_get_connection c _ w) as [[b|e] w1]; simpl; eauto.
Qed.

(** When a submitted chunk ended in an exception, the call says [False]. *)
Lemma threaded_raise_false (c : Client) (sch : Schedule) (data : list Row)
    (target : string) (w : World) (m i : nat) (e : exn) :
  valid_schedule sch m →
  (i, Raise e) ∈ future_to_chunk
                   (fst (insert_raw_data_threaded_run c sch data target w)) →
  returned (fst (insert_raw_data_threaded_run c sch data target w)) = Ok false.
Proof.
  intros [Hst Hco].
  destruct (insert_raw_data_threaded_run c sch data target w) as [r w'] eqn:Hrun.
  simpl. intros Hin.
  destruct (threaded_run_cases _ _ _ _ _ _ _ Hrun)
    as [(_ & _ & Hnil & _)|[(_ & Hnil & _)|Hcase]];
    try (rewrite Hnil in Hin; inversion Hin).
  destruct Hcase as (Cv & chunks & w1 & futures & _ & _ & _ & _ & Htasks & Hf & Hret).
  rewrite Hf in Hin. rewrite Hret.
  apply run_tasks_inv in Htasks. destruct Htasks as (Hidx & _ & _).
  assert (Hnd : NoDup (started sch)) by (rewrite Hst; apply NoDup_seq).
  assert (Hres : future_result futures i = Some (Raise e)).
  { apply future_result_unique; [|exact Hin].
    rewrite Hidx. apply NoDup_filter. exact Hnd. }
  assert (Hi : i ∈ completed sch).
  { rewrite Hco, <- Hst.
    assert (Hi' : i ∈ futures.*1)
      by (apply list_elem_of_fmap; exists (i, Raise e); split; [reflexivity|exact Hin]).
    rewrite Hidx in Hi'. apply list_elem_of_filter in Hi'. apply Hi'. }
  f_equal. exact (gather_raise _ _ _ _ _ Hi Hres).
Qed.

(** C2. In a call of [insert_raw_data_threaded], if the future of any
    chunk holds an exception the call returns [False]; when it returns
    [True] every future holds a count.  [create_table] with a table name
    and [insert_raw_data] always return a boolean and raise nothing: a
    connection that cannot be obtained makes them return [False]. *)
Theorem failed_chunk_reports_failure
    (c : Client) (sch : Schedule) (data : list Row) (target name : string)
    (w : World) (m : nat) :
  valid_schedule sch m →
  let r := fst (insert_raw_data_threaded_run c sch data target w) in
  (∀ i e, (i, Raise e) ∈ future_to_chunk r →
     returned r = Ok false
     ∧ fst (insert_raw_data_threaded c sch data target w) = Ok false)
  ∧ (returned r = Ok true → ∀ i x, (i, x) ∈ future_to_chunk r → ∃ k, x = Ok k)
  ∧ (∃ b, fst (create_table c (Some name) w) = Ok b)
  ∧ (∀ e w1, DatabaseManager_acquire c w = (Raise e, w1) →
       create_table c (Some name) w = (Ok false, w1))
  ∧ (∀ tbl, ∃ b, fst (insert_raw_data c data tbl w) = Ok b)
  ∧ (∀ tbl e w1, data ≠ [] → DatabaseManager_acquire c w = (Raise e, w1) →
       insert_raw_data c data tbl w = (Ok false, w1)).
Proof.
  intros Hv r.
  assert (Hfalse : ∀ i e, (i, Raise e) ∈ future_to_chunk r → returned r = Ok false)
    by (intros i e; apply (threaded_raise_false c sch data target w m i e Hv)).
  split; [|split; [|split; [|split; [|split]]]].
  - intros i e Hin. split; [exact (Hfalse i e Hin)|].
    unfold insert_raw_data_threaded. specialize (Hfalse i e Hin). subst r.
    destruct (insert_raw_data_threaded_run c sch data target w). exact Hfalse.
  - intros Htrue i [k|e] Hin; [eauto|].
    rewrite (Hfalse i e Hin) in Htrue. discriminate.
  - apply create_table_returns.
  - intros e w1 Hacq. unfold create_table, bind, ret, try_except,
      DatabaseManager_get_connection. rewrite Hacq. reflexivity.
  - intros tbl. apply insert_raw_data_returns.
  - intros tbl e w1 Hne Hacq. unfold insert_raw_data.
    destruct data as [|first rest]; [congruence|].
    unfold try_except, ret, DatabaseManager_get_connection. rewrite Hacq.
    reflexivity.
Qed.

Lemma row_count_tables (w w' : World) (t : string) :
  tables w' = tables w → row_count w' t = row_count w t.
Proof. unfold row_count. intros ->. reflexivity. Qed.

(** C3, as the code has it.  For a positive configured chunk size, when the
    sequential path and the threaded path both return [True] on the same
    records from the same state of the table, the table ends with the same
    number of rows: the rows it had and one more for every record. *)
Theorem same_row_count_for_positive_chunk_size
    (c1 c2 : Client) (sch : Schedule) (data : list Row) (target : string)
    (w w1 w2 : World) (C : Z) :
  (0 < C)%Z →
  configured w "chunk_size" = Ok (PInt C) →
  valid_schedule sch (chunk_count (length data) C) →
  insert_raw_data c1 data (Some target) w = (Ok true, w1) →
  insert_raw_data_threaded c2 sch data target w = (Ok true, w2) →
  row_count w1 target = row_count w2 target
  ∧ row_count w2 target = (λ k, k + length data) <$> row_count w target.
Proof.
  intros HC HCfg Hv Hseq Hthr.
  apply insert_raw_data_inv in Hseq. destruct Hseq as (b & Hb & Hrows1).
  inversion Hb; subst b. specialize (Hrows1 eq_refl).
  assert (Hrows2 : row_count w2 target
                   = (λ k, k + length data) <$> row_count w target).
  2:{ split; [congruence|exact Hrows2]. }
  clear Hrows1 Hb.
  unfold insert_raw_data_threaded in Hthr.
  destruct (insert_raw_data_threaded_run c2 sch data target w) as [r w'] eqn:Hrun.
  inversion Hthr; subst w'; clear Hthr. rename H0 into Htrue.
  pose proof (failed_raise :=
    threaded_raise_false c2 sch data target w (chunk_count (length data) C)).
  rewrite Hrun in failed_raise. simpl in failed_raise.
  destruct (threaded_run_cases _ _ _ _ _ _ _ Hrun)
    as [(-> & _ & _ & ->)|[(_ & _ & Hno)|Hcase]]; [| congruence |].
  { unfold row_count. destruct (tables w !! target); simpl; [f_equal; lia|done]. }
  destruct Hcase as (Cv & chunks & w0 & futures & Hne & HCv & Hch & Ht0 & Htasks & Hf & _).
  rewrite HCfg in HCv. inversion HCv; subst Cv; clear HCv.
  destruct (_chunk_data_spec data C HC) as (chunks' & Hch' & Hlen & Hcat & _).
  rewrite Hch in Hch'. inversion Hch'; subst chunks'; clear Hch'.
  pose proof Hv as [Hst _]. rewrite <- Hlen in Hst.
  apply run_tasks_inv in Htasks. destruct Htasks as (_ & _ & Hrows).
  rewrite Hrows.
  - rewrite (row_count_tables w w0 target Ht0).
    rewrite (sum_list_with_Permutation_proper _ _ _ Hst).
    rewrite sum_over_indices, Hcat. reflexivity.
  - intros i [k|e] Hin; [eauto|]. rewrite <- Hf in Hin.
    specialize (failed_raise i e Hv Hin). congruence.
Qed.

(** C8. On the empty list both insert paths return [True] and leave the
    world as it is: no connection is taken, no statement is sent, the
    tables are untouched. *)
Theorem empty_list_is_skipped
    (c : Client) (sch : Schedule) (target : string) (tbl : option string)
    (w : World) :
  insert_raw_data c [] tbl w = (Ok true, w)
  ∧ insert_raw_data_threaded c sch [] target w = (Ok true, w)
  ∧ log (snd (insert_raw_data c [] tbl w)) = log w
  ∧ log (snd (insert_raw_data_threaded c sch [] target w)) = log w
  ∧ tables (snd (insert_raw_data c [] tbl w)) = tables w
  ∧ tables (snd (insert_raw_data_threaded c sch [] target w)) = tables w.
Proof. repeat split; reflexivity. Qed.

End InsertTheorems.

(** ** Table creation and connection scopes *)

Section TableClaims.
Import PgRoom Spec.

Lemma execute_inv (c : Client) (s : Stmt) (w w' : World) :
  execute c s w = (Ok tt, w') →
  dbm_db_config w' = dbm_db_config w ∧ tables w' = tables w ∧
  match s with
  | CreateTableIfNotExists t =>
      ∃ n, sql_ident t = Some n ∧ is_Some (work w' !! n)
  | CommentOnColumn _ _ => work w' = work w
  | InsertInto _ _ => False
  end.
Proof.
  unfold execute, bind.
  destruct (client_call c (EExecute s) DatabaseError w) as [[[]|e] w1] eqn:H1;
    apply client_call_inv in H1; destruct H1 as [-> _]; [|roll; discriminate].
  destruct s as [t|t col|t cols]; simpl.
  - destruct (sql_ident t) as [n|]; [|roll; discriminate].
    destruct (work w !! n) as [rows|] eqn:Hw;
      intros H; inversion H; subst; simpl; repeat split; exists n;
      (split; [reflexivity|]).
    + rewrite Hw. eauto.
    + rewrite lookup_insert_eq. eauto.
  - destruct (sql_ident t) as [n|]; [|roll; discriminate].
    destruct (work w !! n); [|roll; discriminate].
    intros H; inversion H; subst. repeat split.
  - discriminate.
Qed.

Lemma execute_each_comments_inv (c : Client) (t : pyval) (cols : list string)
    (w w' : World) :
  execute_each c (CommentOnColumn t <$> cols) w = (Ok tt, w') →
  dbm_db_config w' = dbm_db_config w ∧ tables w' = tables w ∧ work w' = work w.
Proof.
  revert w. induction cols as [|col cols IH]; intros w; simpl.
  - intros H; inversion H; subst. repeat split.
  - unfold bind.
    destruct (execute c (CommentOnColumn t col) w) as [[[]|e] w1] eqn:H1;
      [|roll; discriminate].
    apply execute_inv in H1. destruct H1 as (Hd & Ht & Hw).
    intros H. destruct (IH _ H) as (Hd' & Ht' & Hw').
    repeat split; congruence.
Qed.

(** After a call that returned [True] the table is there, and the manager
    holds the connection settings it connected with. *)
Lemma create_table_true_inv (c : Client) (name : string) (w w' : World) :
  create_table c (Some name) w = (Ok true, w') →
  is_Some (tables w' !! name) ∧
  ∃ o d, dbm_db_config w' = Some o ∧ SqlConfig.oval o = PDict d.
Proof.
  unfold create_table, bind, ret, try_except, DatabaseManager_get_connection.
  destruct (DatabaseManager_acquire c w) as [[[]|e] w1] eqn:H1; [|roll; discriminate].
  apply DatabaseManager_acquire_inv in H1.
  destruct H1 as (_ & _ & _ & o & d & Ho & Hd).
  destruct (execute c (CreateTableIfNotExists (PStr name)) w1)
    as [[[]|e] w2] eqn:H2; [|roll; discriminate].
  apply execute_inv in H2. destruct H2 as (Hd2 & _ & n & Hn & Hsome).
  simpl in Hn. inversion Hn; subst n; clear Hn.
  destruct (execute_each c (map (CommentOnColumn (PStr name)) agoda_columns) w2)
    as [[[]|e] w3] eqn:H3; [|roll; discriminate].
  apply execute_each_comments_inv in H3. destruct H3 as (Hd3 & _ & Hw3).
  destruct (commit c w3) as [[[]|e] w4] eqn:H4; [|roll; discriminate].
  assert (Hd4 : dbm_db_config w4 = dbm_db_config w3).
  { revert H4. unfold commit, bind.
    destruct (client_call c ECommit DatabaseError w3) as [[[]|e] w5] eqn:H5;
      apply client_call_inv in H5; destruct H5 as [-> _];
      intros H; inversion H; subst; reflexivity. }
  apply commit_inv in H4. destruct H4 as (_ & Ht4).
  simpl. intros H; inversion H; subst; clear H. simpl.
  split; [rewrite Ht4, Hw3; exact Hsome|].
  exists o, d. split; [congruence|exact Hd].
Qed.

(** With the settings at hand and a client that does not fault, the
    connection is obtained. *)
Lemma DatabaseManager_acquire_cached (c : Client) (w : World)
    (o : SqlConfig.pyobj) (d : list (string * pyval)) :
  faultless c → dbm_db_config w = Some o → SqlConfig.oval o = PDict d →
  DatabaseManager_acquire c w
  = (Ok tt, set_work (tables w) (add_event EConnect w)).
Proof.
  intros Hf Ho Hd.
  unfold DatabaseManager_acquire, DatabaseManager__get_db_config, connect,
    client_call, bind, gets, ret, lift.
  rewrite Ho, Hd. simpl. rewrite Hf. reflexivity.
Qed.

Lemma execute_existing_run (c : Client) (name : string) (s : Stmt) (w : World) :
  faultless c → is_Some (work w !! name) →
  s = CreateTableIfNotExists (PStr name) ∨
  (∃ col, s = CommentOnColumn (PStr name) col) →
  execute c s w = (Ok tt, add_event (EExecute s) w).
Proof.
  intros Hf [rows Hw] Hs. unfold execute, client_call, bind. rewrite Hf.
  destruct Hs as [->|[col ->]]; simpl; rewrite Hw; reflexivity.
Qed.

Lemma commit_run (c : Client) (w : World) :
  faultless c →
  commit c w = (Ok tt, set_tables (work w) (add_event ECommit w)).
Proof.
  intros Hf. unfold commit, client_call, bind. rewrite Hf. reflexivity.
Qed.

Lemma execute_each_comments_run (c : Client) (name : string)
    (cols : list string) (w : World) :
  faultless c → is_Some (work w !! name) →
  ∃ w', execute_each c (CommentOnColumn (PStr name) <$> cols) w = (Ok tt, w')
        ∧ tables w' = tables w ∧ work w' = work w
        ∧ log w' = log w ++ (EExecute <$> (CommentOnColumn (PStr name) <$> cols)).
Proof.
  intros Hf. revert w. induction cols as [|col cols IH]; intros w [rows Hw].
  - exists w. simpl. rewrite app_nil_r. repeat split.
  - rewrite !fmap_cons. cbn [execute_each]. unfold bind.
    rewrite (execute_existing_run c name _ w Hf) by eauto.
    destruct (IH (add_event (EExecute (CommentOnColumn (PStr name) col)) w))
      as (w' & Hrun & Ht & Hwk & Hl); [simpl; eauto|].
    exists w'. rewrite Hrun, Ht, Hwk, Hl.
    split; [reflexivity|]. split; [reflexivity|]. split; [reflexivity|].
    cbn [log add_event]. rewrite <- app_assoc. reflexivity.
Qed.

(** On a table that is there, with the connection obtained and no faults,
    [create_table] returns [True] and changes no table. *)
Lemma create_table_existing (c : Client) (name : string) (w wa : World) :
  faultless c →
  is_Some (tables w !! name) →
  DatabaseManager_acquire c w = (Ok tt, wa) →
  ∃ w', create_table c (Some name) w = (Ok true, w')
        ∧ tables w' = tables w
        ∧ log w' = log w ++ create_table_calls name.
Proof.
  intros Hf [rows Hrows] Hacq.
  pose proof (DatabaseManager_acquire_inv _ _ _ _ Hacq) as (Hta & Hwa & Hla & _).
  unfold create_table, bind, ret, try_except, DatabaseManager_get_connection.
  rewrite Hacq.
  rewrite (execute_existing_run c name _ wa Hf)
    by (rewrite ?Hwa, ?Hrows; eauto).
  destruct (execute_each_comments_run c name agoda_columns
              (add_event (EExecute (CreateTableIfNotExists (PStr name))) wa) Hf)
    as (w3 & Hrun & Ht3 & Hw3 & Hl3); [simpl; rewrite Hwa, Hrows; eauto|].
  change (map (CommentOnColumn (PStr name)) agoda_columns)
    with (CommentOnColumn (PStr name) <$> agoda_columns).
  rewrite Hrun, (commit_run c w3 Hf). simpl.
  eexists. split; [reflexivity|]. simpl. split.
  - rewrite Hw3. simpl. exact Hwa.
  - rewrite Hl3. simpl. rewrite Hla. unfold create_table_calls.
    rewrite <- !app_assoc. reflexivity.
Qed.


(** C6. [create_table] is idempotent.  When the table is already there, as
    it is after a call that returned [True], and the connection is obtained
    and the client does not fault, a call sends
    [CREATE TABLE IF NOT EXISTS] and the column comments, commits, returns
    [True], and leaves the tables exactly as they were: the table is still
    there, once. *)
Theorem create_table_idempotent (c : Client) (name : string) (w : World) :
  faultless c →
  (∀ wa, is_Some (tables w !! name) →
         DatabaseManager_acquire c w = (Ok tt, wa) →
     ∃ w', create_table c (Some name) w = (Ok true, w')
           ∧ tables w' = tables w
           ∧ is_Some (tables w' !! name)
           ∧ log w' = log w ++ create_table_calls name)
  ∧ (∀ c0 w0, create_table c0 (Some name) w0 = (Ok true, w) →
     ∃ w', create_table c (Some name) w = (Ok true, w')
           ∧ tables w' = tables w
           ∧ is_Some (tables w' !! name)
           ∧ log w' = log w ++ create_table_calls name).
Proof.
  intros Hf.
  assert (Hgen : ∀ wa, is_Some (tables w !! name) →
            DatabaseManager_acquire c w = (Ok tt, wa) →
            ∃ w', create_table c (Some name) w = (Ok true, w')
                  ∧ tables w' = tables w
                  ∧ is_Some (tables w' !! name)
                  ∧ log w' = log w ++ create_table_calls name).
  { intros wa Hex Hacq.
    destruct (create_table_existing c name w wa Hf Hex Hacq) as (w' & Hrun & Ht & Hl).
    exists w'. rewrite Ht. repeat split; assumption. }
  split; [exact Hgen|].
  intros c0 w0 Hfirst.
  destruct (create_table_true_inv c0 name w0 w Hfirst) as (Hex & o & d & Ho & Hd).
  exact (Hgen _ Hex (DatabaseManager_acquire_cached c w o d Hf Ho Hd)).
Qed.

(** C7, as the code has it.  A [with get_connection()] block, pooled or single.
    When no connection is obtained the exception leaves and nothing is
    rolled back or released.  When the body raises with the connection
    held, the calls made after the body are a rollback and then the release
    ([putconn], or [close]), in that order and whatever the rollback does.
    When the rollback returns, the uncommitted work is gone and the
    exception of the body is raised; when the rollback itself raises, it is
    the exception of the rollback that is raised.  When the body returns,
    the only call after it is the release, and its value is returned. *)
Theorem connection_scope {A} (c : Client) (body : M World A) (w : World) :
  match ConnectionPoolManager_acquire c w with
  | (Raise e, w1) =>
      ConnectionPoolManager_get_connection c body w = (Raise e, w1)
  | (Ok _, w1) =>
      match body w1 with
      | (Raise e, w2) =>
          ∃ w3, ConnectionPoolManager_get_connection c body w
                = (Raise (if fault c (length (log w2))
                          then DatabaseError else e), w3)
                ∧ log w3 = log w2 ++ [ERollback; EPutConn]
                ∧ tables w3 = tables w2
                ∧ (fault c (length (log w2)) = false → work w3 = tables w2)
      | (Ok a, w2) =>
          ∃ w3, ConnectionPoolManager_get_connection c body w = (Ok a, w3)
                ∧ log w3 = log w2 ++ [EPutConn]
                ∧ tables w3 = tables w2 ∧ work w3 = work w2
      end
  end
  ∧
  match DatabaseManager_acquire c w with
  | (Raise e, w1) =>
      DatabaseManager_get_connection c body w = (Raise e, w1)
  | (Ok _, w1) =>
      match body w1 with
      | (Raise e, w2) =>
          ∃ w3, DatabaseManager_get_connection c body w
                = (Raise (if fault c (length (log w2))
                          then DatabaseError else e), w3)
                ∧ log w3 = log w2 ++ [ERollback; EClose]
                ∧ tables w3 = tables w2
                ∧ (fault c (length (log w2)) = false → work w3 = tables w2)
      | (Ok a, w2) =>
          ∃ w3, DatabaseManager_get_connection c body w = (Ok a, w3)
                ∧ log w3 = log w2 ++ [EClose]
                ∧ tables w3 = tables w2 ∧ work w3 = work w2
      end
  end.
Proof.
  assert (Hafter : ∀ (ev : Event) (e : exn) (w2 : World),
            ∃ w3, match rollback c w2 with
                  | (Ok _, w3) => (@Raise A e, snd (modify (add_event ev) w3))
                  | (Raise e', w3) => (Raise e', snd (modify (add_event ev) w3))
                  end
                  = (Raise (if fault c (length (log w2))
                            then DatabaseError else e), w3)
                  ∧ log w3 = log w2 ++ [ERollback; ev]
                  ∧ tables w3 = tables w2
                  ∧ (fault c (length (log w2)) = false → work w3 = tables w2)).
  { intros ev e w2.
    destruct (rollback c w2) as [[[]|e'] w3] eqn:Hrb; apply rollback_inv in Hrb;
      destruct Hrb as (Ht & Hl & Hr & Hw);
      destruct (fault c (length (log w2))); try discriminate;
      eexists; (split; [try reflexivity|]).
    - simpl. rewrite Hl, <- app_assoc. repeat split; [exact Ht|].
      intros _. apply Hw. reflexivity.
    - inversion Hr; subst. reflexivity.
    - simpl. rewrite Hl, <- app_assoc. repeat split; [exact Ht|].
      intros Hx. discriminate Hx. }
  split.
  - unfold ConnectionPoolManager_acquire, ConnectionPoolManager_get_connection,
      bind.
    destruct (_initialize_pool c w) as [[[]|e] w0]; [|reflexivity].
    destruct (getconn c w0) as [[[]|e] w1]; [|reflexivity].
    destruct (body w1) as [[a|e] w2].
    + eexists; (split; [reflexivity|]); simpl; repeat split.
    + exact (Hafter EPutConn e w2).
  - unfold DatabaseManager_get_connection.
    destruct (DatabaseManager_acquire c w) as [[[]|e] w1]; [|reflexivity].
    destruct (body w1) as [[a|e] w2].
    + eexists; (split; [reflexivity|]); simpl; repeat split.
    + exact (Hafter EClose e w2).
Qed.

End TableClaims.

(** ** The statements at work on the sample data *)

Section Instances.
Import PgRoom Spec Sample.

(** Five records, chunk size 2, four workers; the tasks start in the order
    1, 0, 2 and complete in the order 2, 0, 1. *)
Lemma threaded_insert_counts_every_record_witness :
  let w := world (PInt 4) (PInt 2) {[ "rooms" := [] ]} in
  let sch := {| started := [1; 0; 2]; completed := [2; 0; 1] |} in
  let r := fst (insert_raw_data_threaded_run healthy sch five_rooms "rooms" w) in
  returned r = Ok true ∧ total_inserted r = 5.
Proof.
  intros w sch r.
  destruct (threaded_insert_counts_every_record healthy sch five_rooms "rooms"
              w 2 (PInt 4) ltac:(lia))
    as (chunks & Hch & _ & _ & Hrun).
  vm_compute in Hch. injection Hch as <-.
  destruct Hrun as (Hret & Htot & _).
  - reflexivity.
  - reflexivity.
  - simpl. etrans; [apply perm_swap|]. apply perm_skip, perm_swap.
  - intros i Hi. simpl in Hi.
    destruct i as [|[|[|i]]]; [| | |lia]; vm_compute; eauto.
  - split; [exact Hret|exact Htot].
Defined.

(** Six records of which the last has no price, on a server that wants
    one: the third chunk fails, the call returns [False]. *)
Lemma failed_chunk_reports_failure_witness :
  let w := world (PInt 4) (PInt 2) {[ "rooms" := [] ]} in
  let sch := {| started := [1; 0; 2]; completed := [2; 0; 1] |} in
  let data := five_rooms ++ [room "f" PNone] in
  fst (insert_raw_data_threaded strict sch data "rooms" w) = Ok false.
Proof.
  intros w sch data.
  assert (Hv : valid_schedule sch 3).
  { split; simpl; [apply perm_swap|].
    etrans; [apply perm_swap|]. apply perm_skip, perm_swap. }
  destruct (failed_chunk_reports_failure strict sch data "rooms" "rooms" w 3 Hv)
    as (Hfail & _).
  apply (Hfail 2 DatabaseError).
  assert (Hf : future_to_chunk
                 (fst (insert_raw_data_threaded_run strict sch data "rooms" w))
               = [(1, Ok 2); (0, Ok 2); (2, Raise DatabaseError)])
    by (vm_compute; reflexivity).
  rewrite Hf. do 2 apply list_elem_of_further. apply list_elem_of_here.
Defined.

(** C3, as stated, at a negative chunk size.  With [chunk_size] at -1 the
    threaded path cuts no chunk at all: it returns [True] and inserts
    nothing, while the sequential path returns [True] and inserts the
    record.  Both succeed, and the final row counts differ. *)
Lemma same_row_count_fails_for_negative_chunk_size :
  let w := world (PInt 4) (PInt (-1)) {[ "rooms" := [] ]} in
  let sch := {| started := []; completed := [] |} in
  let data := [room "a" (PInt 100)] in
  let seq_run := insert_raw_data healthy data (Some "rooms") w in
  let thr_run := insert_raw_data_threaded healthy sch data "rooms" w in
  _chunk_data data (PInt (-1)) = Ok []
  ∧ valid_schedule sch 0
  ∧ fst seq_run = Ok true
  ∧ fst thr_run = Ok true
  ∧ row_count (snd seq_run) "rooms" = Some 1
  ∧ row_count (snd thr_run) "rooms" = Some 0
  ∧ row_count (snd seq_run) "rooms" ≠ row_count (snd thr_run) "rooms".
Proof.
  intros w sch data seq_run thr_run.
  assert (H1 : row_count (snd seq_run) "rooms" = Some 1) by (vm_compute; reflexivity).
  assert (H2 : row_count (snd thr_run) "rooms" = Some 0) by (vm_compute; reflexivity).
  split; [reflexivity|]. split; [split; reflexivity|].
  split; [vm_compute; reflexivity|]. split; [vm_compute; reflexivity|].
  split; [exact H1|]. split; [exact H2|].
  rewrite H1, H2. discriminate.
Qed.

Lemma same_row_count_for_positive_chunk_size_witness :
  let w := world (PInt 4) (PInt 2) {[ "rooms" := [] ]} in
  let sch := {| started := [1; 0; 2]; completed := [2; 0; 1] |} in
  row_count (snd (insert_raw_data healthy five_rooms (Some "rooms") w)) "rooms"
  = row_count (snd (insert_raw_data_threaded healthy sch five_rooms "rooms" w))
      "rooms".
Proof.
  intros w sch.
  refine (proj1 (same_row_count_for_positive_chunk_size healthy healthy sch
                   five_rooms "rooms" w _ _ 2 _ _ _ _ _)).
  - lia.
  - reflexivity.
  - split; simpl; [apply perm_swap|].
    etrans; [apply perm_swap|]. apply perm_skip, perm_swap.
  - vm_compute. reflexivity.
  - vm_compute. reflexivity.
Defined.

Lemma config_cached_until_forced_reload_witness :
  let s := sql_state (Content sql_yml) in
  let s1 := snd (SqlConfig.get_config false s) in
  SqlConfig.get_config false (SqlConfig.with_file Absent s1)
  = (fst (SqlConfig.get_config false s), SqlConfig.with_file Absent s1).
Proof.
  intros s s1.
  refine (proj1 (proj2 (config_cached_until_forced_reload s s1
                          {| SqlConfig.oid := 0; SqlConfig.opath := [];
                             SqlConfig.oval := sql_yml |} Absent _ _))).
  - reflexivity.
  - reflexivity.
Defined.

Lemma unknown_environment_raises_witness :
  fst (SqlConfig.load_config (Some "staging") (sql_state (Content sql_yml)))
  = Raise DatabaseConfigError.
Proof.
  destruct (unknown_environment_raises (sql_state (Content sql_yml)) _ _ _
              "staging" eq_refl eq_refl eq_refl) as [_ H].
  rewrite H. reflexivity.
Defined.

Lemma default_environment_is_development_witness :
  let yml := PDict [("database",
                     PDict [("development", PDict [("host", PStr "db")])])] in
  fst (SqlConfig.get_current_environment (sql_state (Content yml)))
  = Ok (PStr "development").
Proof.
  intros yml.
  destruct (default_environment_is_development (sql_state (Content yml)) _ _ _
              eq_refl eq_refl (or_introl eq_refl)) as (_ & H & _).
  rewrite H. reflexivity.
Defined.

Lemma accessors_default_witness :
  let yml := PDict [("database", PDict [("table_name", PStr "rooms")])] in
  fst (ConfigManager.get_batch_size (cm_state yml)) = Ok (PInt 100)
  ∧ fst (ConfigManager.is_threading_enabled (cm_state yml)) = Ok (PBool false).
Proof.
  intros yml.
  destruct (accessors_default (cm_state yml) _ _ eq_refl) as (Hb & Ht & _).
  rewrite (Hb (or_introl eq_refl)).
  destruct (Ht (or_introl eq_refl)) as (_ & _ & _ & _ & He). rewrite He.
  split; reflexivity.
Defined.

(** Two calls in a row on an empty database. *)
Lemma create_table_idempotent_witness :
  let w1 := snd (create_table healthy (Some "rooms") (world (PInt 4) (PInt 2) ∅)) in
  fst (create_table healthy (Some "rooms") w1) = Ok true
  ∧ tables (snd (create_table healthy (Some "rooms") w1)) = tables w1.
Proof.
  intros w1.
  destruct (create_table_idempotent healthy "rooms" w1 (fun _ => eq_refl))
    as [_ Htwice].
  destruct (Htwice healthy (world (PInt 4) (PInt 2) ∅)) as (w' & Hrun & Ht & _).
  - vm_compute. reflexivity.
  - rewrite Hrun. split; [reflexivity|exact Ht].
Defined.

(** C9, as stated, at a configuration whose [environment] is a plain
    string.  It loads, it has no [environment.current] entry, and
    [get_current_environment] raises: subscripting the string is a
    [TypeError], which the [KeyError] handler lets through. *)
Lemma missing_current_raises_for_scalar_environment :
  let yml := PDict [("environment", PStr "production");
                    ("database", PDict [("production", PDict [])])] in
  let s := sql_state (Content yml) in
  (∃ config, fst (SqlConfig.get_config false s) = Ok config
             ∧ SqlConfig.oval config = yml)
  ∧ lookup_path yml ["environment"; "current"] = None
  ∧ fst (SqlConfig.DatabaseConfigLoader_get_current_environment s)
    = Raise TypeError
  ∧ fst (SqlConfig.get_current_environment s) = Raise TypeError
  ∧ fst (SqlConfig.load_config None s) = Raise TypeError.
Proof.
  intros yml s. split; [eexists; split; reflexivity|].
  repeat split; reflexivity.
Qed.

(** C7, as stated, at a connection that is lost while the body runs.  The
    connection was obtained and the body raises [ValueError]; the handler
    calls [rollback], which raises on the lost connection, and the exception
    that leaves the block is the one of the rollback, not the one of the
    body.  The connection is released all the same. *)
Lemma body_exception_is_replaced_when_rollback_raises :
  let w := world (PInt 4) (PInt 2) ∅ in
  let body : M World unit := raise ValueError in
  (fst (DatabaseManager_acquire (lost_from 1) w) = Ok tt
   ∧ fst (body (snd (DatabaseManager_acquire (lost_from 1) w)))
     = Raise ValueError
   ∧ fst (DatabaseManager_get_connection (lost_from 1) body w)
     = Raise DatabaseError
   ∧ log (snd (DatabaseManager_get_connection (lost_from 1) body w))
     = [EConnect; ERollback; EClose])
  ∧
  (fst (ConnectionPoolManager_acquire (lost_from 2) w) = Ok tt
   ∧ fst (body (snd (ConnectionPoolManager_acquire (lost_from 2) w)))
     = Raise ValueError
   ∧ fst (ConnectionPoolManager_get_connection (lost_from 2) body w)
     = Raise DatabaseError
   ∧ log (snd (ConnectionPoolManager_get_connection (lost_from 2) body w))
     = [EPoolInit; EGetConn; ERollback; EPutConn]).
Proof.
  intros w body. repeat split; vm_compute; reflexivity.
Qed.

End Instances.

(* ===================================================================== *)
(** * Further properties of the code *)
(* ===================================================================== *)

(** ** More on configuration loading *)

Section SqlConfigMore.
Import SqlConfig Spec Sample.

(** X1. [get_config] raises nothing but [DatabaseConfigError], and a call
    that raises leaves the cache as it was.  A configuration it returns is
    the cached object, with no file opened, or the document just read from
    the file, which is truthy and is now the cached object. *)
Theorem get_config_outcome (force_reload : bool) (s : state) :
  match get_config force_reload s with
  | (Raise e, s') =>
      e = DatabaseConfigError
      ∧ _config_cache s' = _config_cache s
      ∧ opens s' = match config_yml s with
                   | Absent => opens s
                   | _ => S (opens s)
                   end
  | (Ok o, s') =>
      _config_cache s' = Some o
      ∧ ((force_reload = false ∧ _config_cache s = Some o ∧ s' = s)
         ∨ (config_yml s = Content (oval o) ∧ truthy (oval o) = true
            ∧ oid o = next_oid s ∧ opens s' = S (opens s)))
  end.
Proof.
  assert (Hload : ∀ c, _config_cache s = c →
            match (let* o' := _load_yaml_config in
                   run modify (set_cache (Some o')) in ret o') s with
            | (Raise e, s') =>
                e = DatabaseConfigError ∧ _config_cache s' = c
                ∧ opens s' = match config_yml s with
                             | Absent => opens s
                             | _ => S (opens s)
                             end
            | (Ok o, s') =>
                _config_cache s' = Some o
                ∧ config_yml s = Content (oval o) ∧ truthy (oval o) = true
                ∧ oid o = next_oid s ∧ opens s' = S (opens s)
            end).
  { intros c Hc. unfold bind, modify, ret.
    destruct (_load_yaml_config s) as [r s'] eqn:Hl.
    apply _load_yaml_config_cases in Hl.
    destruct (config_yml s) as [|e0|v]; destruct Hl as [H1 H2]; subst;
      try (repeat split; first [reflexivity | exact Hc]).
    destruct (truthy v) eqn:Hv; repeat split; first [reflexivity | assumption]. }
  unfold get_config. unfold bind at 1, gets.
  destruct (_config_cache s) as [o|] eqn:Hc.
  - destruct force_reload.
    + specialize (Hload _ eq_refl).
      destruct ((let* o' := _load_yaml_config in
                 run modify (set_cache (Some o')) in ret o') s) as [[o'|e] s'].
      * destruct Hload as (H1 & H2). split; [exact H1|]. right. exact H2.
      * exact Hload.
    + simpl. split; [exact Hc|]. left. repeat split; first [reflexivity | exact Hc].
  - specialize (Hload _ eq_refl).
    destruct ((let* o' := _load_yaml_config in
               run modify (set_cache (Some o')) in ret o') s) as [[o'|e] s'].
    + destruct Hload as (H1 & H2). split; [exact H1|]. right. exact H2.
    + exact Hload.
Qed.

Lemma getitem_val_raise (v k : pyval) (e : exn) :
  getitem_val v k = Raise e →
  is_KeyError e = true ∨ e = TypeError ∨ e = IndexError.
Proof.
  unfold getitem_val, getitem.
  destruct v as [| | |str|l|d].
  1-3: intros H; inversion H; subst; auto.
  - destruct (as_int k) as [i|e0] eqn:Hk.
    + destruct (seq_index (String.length str) i);
        intros H; inversion H; subst; auto.
    + destruct k; inversion Hk; subst; intros H; inversion H; subst; auto.
  - destruct (as_int k) as [i|e0] eqn:Hk.
    + destruct (seq_index (length l) i) as [j|]; [destruct (l !! j)|];
        intros H; inversion H; subst; auto.
    + destruct k; inversion Hk; subst; intros H; inversion H; subst; auto.
  - destruct k as [| | |key| |]; simpl;
      try (intros H; inversion H; subst; auto; fail).
    destruct (dict_lookup d key); intros H; inversion H; subst; auto.
Qed.

Lemma obj_getitem_raise (o : pyobj) (k : pyval) (e : exn) :
  obj_getitem o k = Raise e →
  is_KeyError e = true ∨ e = TypeError ∨ e = IndexError.
Proof.
  unfold obj_getitem.
  destruct (getitem_val (oval o) k) as [x|e0] eqn:H; [discriminate|].
  intros Hx; inversion Hx; subst. eapply getitem_val_raise; eauto.
Qed.

(** A string key does not index a sequence: subscripting with one raises
    [KeyError] or [TypeError] only. *)
Lemma obj_getitem_str_raise (o : pyobj) (key : string) (e : exn) :
  obj_getitem o (PStr key) = Raise e → is_KeyError e = true ∨ e = TypeError.
Proof.
  unfold obj_getitem, getitem_val, getitem.
  destruct (oval o) as [| | |str|l|d]; simpl;
    try (intros H; inversion H; subst; auto; fail).
  destruct (dict_lookup d key); intros H; inversion H; subst; auto.
Qed.

Lemma get_config_raise (b : bool) (s s' : state) (e : exn) :
  get_config b s = (Raise e, s') → e = DatabaseConfigError.
Proof.
  assert (Hload : ∀ r s0, _load_yaml_config s = (r, s0) →
            ∀ e0, r = Raise e0 → e0 = DatabaseConfigError).
  { intros r s0 Hl e0 ->. apply _load_yaml_config_cases in Hl.
    destruct (config_yml s) as [|e1|v]; destruct Hl as [H1 H2];
      [..|destruct (truthy v)]; congruence. }
  unfold get_config, bind, gets, modify, ret.
  destruct (_config_cache s) as [o|]; [destruct b; [|discriminate]|];
    (destruct (_load_yaml_config s) as [[o'|e0] s0] eqn:Hl; [discriminate|]);
    intros H; inversion H; subst; eapply Hload; reflexivity.
Qed.

Lemma get_current_environment_raise (s s' : state) (e : exn) :
  DatabaseConfigLoader_get_current_environment s = (Raise e, s') →
  e = DatabaseConfigError ∨ e = TypeError.
Proof.
  unfold DatabaseConfigLoader_get_current_environment, bind.
  destruct (get_config false s) as [[config|e0] s0] eqn:Hc.
  2:{ intros H; inversion H; subst. left. eapply get_config_raise; eauto. }
  unfold try_except, bind, lift, ret.
  destruct (obj_getitem config (PStr "environment")) as [env|e0] eqn:H1.
  - destruct (obj_getitem env (PStr "current")) as [cur|e1] eqn:H2;
      [discriminate|].
    apply obj_getitem_str_raise in H2. destruct H2 as [H2| ->].
    + rewrite H2. discriminate.
    + simpl. intros H; inversion H; subst. right. reflexivity.
  - apply obj_getitem_str_raise in H1. destruct H1 as [H1| ->].
    + rewrite H1. discriminate.
    + simpl. intros H; inversion H; subst. right. reflexivity.
Qed.

(** X2. Whatever the file and the configuration are, [load_config] and
    [get_database_config] raise nothing but [DatabaseConfigError],
    [TypeError] (a section that is not a mapping, or a sequence subscripted
    with something that is not an integer) or [IndexError] (the database
    section is a sequence and the current environment an integer out of its
    range), and [get_current_environment] nothing but the first two: a
    [KeyError] never leaves them. *)
Theorem load_config_exceptions (environment : option string) (s : state) :
  (∀ e s', load_config environment s = (Raise e, s') →
           e = DatabaseConfigError ∨ e = TypeError ∨ e = IndexError)
  ∧ (∀ e s', get_database_config environment s = (Raise e, s') →
             e = DatabaseConfigError ∨ e = TypeError ∨ e = IndexError)
  ∧ (∀ e s', get_current_environment s = (Raise e, s') →
             e = DatabaseConfigError ∨ e = TypeError).
Proof.
  assert (Hdb : ∀ e s', get_database_config environment s = (Raise e, s') →
                  e = DatabaseConfigError ∨ e = TypeError ∨ e = IndexError).
  { intros e s'. unfold get_database_config, bind.
    destruct (get_config false s) as [[config|e0] s0] eqn:Hc.
    2:{ intros H; inversion H; subst. left. eapply get_config_raise; eauto. }
    assert (Henv : ∀ (m : M state pyval),
              (∀ e1 s1, m s0 = (Raise e1, s1) →
                        e1 = DatabaseConfigError ∨ e1 = TypeError) →
              match m s0 with
              | (Ok a, s1) =>
                  try_except
                    (let* d := lift (obj_getitem config (PStr "database")) in
                     lift (obj_getitem d a))
                    is_KeyError (fun _ => raise DatabaseConfigError) s1
              | (Raise e1, s1) => (Raise e1, s1)
              end = (Raise e, s') →
              e = DatabaseConfigError ∨ e = TypeError ∨ e = IndexError).
    { intros m Hm. destruct (m s0) as [[a|e1] s1] eqn:Hms.
      2:{ intros H; inversion H; subst.
          destruct (Hm _ _ eq_refl) as [->| ->]; auto. }
      unfold try_except, bind, lift, raise.
      destruct (obj_getitem config (PStr "database")) as [d|e1] eqn:H1.
      - destruct (obj_getitem d a) as [x|e2] eqn:H2; [discriminate|].
        apply obj_getitem_raise in H2. destruct H2 as [H2|[->| ->]].
        + rewrite H2. intros H; inversion H; subst. left. reflexivity.
        + simpl. intros H; inversion H; subst. right. left. reflexivity.
        + simpl. intros H; inversion H; subst. right. right. reflexivity.
      - apply obj_getitem_str_raise in H1. destruct H1 as [H1| ->].
        + rewrite H1. intros H; inversion H; subst. left. reflexivity.
        + simpl. intros H; inversion H; subst. right. left. reflexivity. }
    destruct environment as [name|].
    - apply (Henv (ret (PStr name))). intros e1 s1 H. inversion H.
    - apply (Henv DatabaseConfigLoader_get_current_environment).
      intros e1 s1. apply get_current_environment_raise. }
  split; [|split].
  - intros e s'. unfold load_config, try_except, raise.
    destruct (get_database_config environment s) as [[o|e0] s0] eqn:H0;
      [discriminate|].
    intros H; inversion H; subst. eapply Hdb; eauto.
  - exact Hdb.
  - intros e s'. apply get_current_environment_raise.
Qed.

(** X3. For an environment name that is a key of the database section,
    [load_config] and [get_database_config] return the object stored under
    it: the very object inside the cached configuration, so a second call
    returns the identical object, and no copy is made. *)
Theorem known_environment_returns_section
    (s s1 : state) (config : pyobj) (d : list (string * pyval))
    (name : string) (v : pyval) :
  get_config false s = (Ok config, s1) →
  getitem (oval config) "database" = Ok (PDict d) →
  dict_lookup d name = Some v →
  let section := {| oid := oid config;
                    opath := (opath config ++ ["database"]) ++ [name];
                    oval := v |} in
  get_database_config (Some name) s = (Ok section, s1)
  ∧ load_config (Some name) s = (Ok section, s1)
  ∧ load_config (Some name) s1 = (Ok section, s1).
Proof.
  intros Hcfg Hdb Hv section.
  assert (H : ∀ s0, get_config false s0 = (Ok config, s1) →
            get_database_config (Some name) s0 = (Ok section, s1)).
  { intros s0 H0. unfold get_database_config, bind. rewrite H0. simpl.
    unfold try_except, bind, lift, obj_getitem.
    destruct (oval config) as [| | | | |cfg] eqn:Hc; try discriminate.
    simpl in *. rewrite Hdb. simpl. rewrite Hv. reflexivity. }
  assert (Hhit : get_config false s1 = (Ok config, s1))
    by (apply get_config_hit; eapply get_config_caches; exact Hcfg).
  split; [apply H; exact Hcfg|].
  split; unfold load_config, try_except; rewrite H; auto.
Qed.

(** X4. When the loaded configuration has an [environment.current] entry
    that is a string, [get_current_environment] returns it, and
    [load_config] without an argument does what [load_config] with that
    name does. *)
Theorem current_environment_is_used
    (s s1 : state) (config : pyobj) (name : string) :
  get_config false s = (Ok config, s1) →
  lookup_path (oval config) ["environment"; "current"] = Some (PStr name) →
  get_current_environment s = (Ok (PStr name), s1)
  ∧ load_config None s = load_config (Some name) s.
Proof.
  intros Hcfg Hpath.
  assert (Henv : ∀ s0 s0', get_config false s0 = (Ok config, s0') →
            DatabaseConfigLoader_get_current_environment s0
            = (Ok (PStr name), s0')).
  { intros s0 s0' H0.
    unfold DatabaseConfigLoader_get_current_environment, bind. rewrite H0.
    unfold try_except, bind, lift, ret, obj_getitem.
    simpl in Hpath.
    destruct (oval config) as [| | | | |cfg]; try discriminate. simpl.
    destruct (dict_lookup cfg "environment") as [[| | | | |e]|];
      try discriminate. simpl.
    destruct (dict_lookup e "current") as [cur|]; [|discriminate].
    inversion Hpath; subst. reflexivity. }
  split; [apply Henv; exact Hcfg|].
  unfold load_config, get_database_config, try_except, bind. rewrite Hcfg.
  rewrite (Henv s1 s1); [reflexivity|].
  apply get_config_hit. eapply get_config_caches; exact Hcfg.
Qed.

End SqlConfigMore.

(** ** More on the application settings *)

Section ConfigManagerMore.
Import ConfigManager Obs Sample.


End ConfigManagerMore.

(** ** What the inserts store *)

Section StoredRows.
Import PgRoom Spec Obs Sample.
Variable c : Client.

(** The effect of a batch that went through, row by row. *)
Lemma execute_batch_rows (table : pyval) (columns : list string)
    (argslist : list Row) (page_size : pyval) (w w' : World) :
  execute_batch c table columns argslist page_size w = (Ok tt, w') →
  ∃ n existing rows,
    sql_ident table = Some n ∧ work w !! n = Some existing ∧
    bind_all columns argslist = Ok rows ∧
    work w' = <[n := existing ++ rows]> (work w).
Proof.
  unfold execute_batch, bind, lift, raise, ret.
  destruct (as_int page_size) as [ps|e]; [|discriminate].
  destruct (ps <=? 0)%Z; [discriminate|].
  destruct (bind_all columns argslist) as [rows|e] eqn:Hb; [|discriminate].
  destruct (client_call c _ DatabaseError w) as [[[]|e] w1] eqn:H1;
    apply client_call_inv in H1; destruct H1 as [-> _]; [|discriminate].
  destruct (sql_ident table) as [n|]; [|discriminate].
  simpl. destruct (work w !! n) as [existing|] eqn:Hw; [|discriminate].
  destruct (accepts c n existing rows); [|discriminate].
  intros H; inversion H; subst. exists n, existing, rows. repeat split.
  exact Hw.
Qed.

(** Every stored row has the columns of the statement, in their order. *)
Lemma bind_all_columns (columns : list string) (rows rows' : list Row) :
  bind_all columns rows = Ok rows' →
  Forall (λ r, dict_keys r = columns) rows'.
Proof.
  assert (Hp : ∀ cols r r', bind_params cols r = Ok r' → dict_keys r' = cols).
  { induction cols as [|col cols IH]; intros r r'; simpl.
    - intros H; inversion H; reflexivity.
    - destruct (dict_lookup r col); [|discriminate].
      destruct (bind_params cols r) as [row|] eqn:Hr; [|discriminate].
      intros H; inversion H; subst. simpl. f_equal. eapply IH; eauto. }
  revert rows'. induction rows as [|r rows IH]; intros rows'; simpl.
  - intros H; inversion H; constructor.
  - destruct (bind_params columns r) as [row|] eqn:Hr; [|discriminate].
    destruct (bind_all columns rows) as [rs|]; [|discriminate].
    intros H; inversion H; subst. constructor; [eapply Hp; eauto|].
    apply IH. reflexivity.
Qed.

(** X6. The sequential insert is all or nothing, and never raises.  When
    it returns [True] on a non-empty list, the target table has gained one
    row per record, in the order of the list, each with the columns of the
    first record and nothing else; every other table is as it was.  When it
    returns [False], no table has changed. *)
Theorem insert_raw_data_outcome (data : list Row) (target : string) (w : World) :
  match insert_raw_data c data (Some target) w with
  | (Raise _, _) => False
  | (Ok false, w') => data ≠ [] ∧ tables w' = tables w
  | (Ok true, w') =>
      match data with
      | [] => w' = w
      | first :: _ =>
          ∃ existing rows,
            tables w !! target = Some existing
            ∧ stored_rows data = Ok rows
            ∧ length rows = length data
            ∧ Forall (λ r, dict_keys r = dict_keys first) rows
            ∧ tables w' = <[target := existing ++ rows]> (tables w)
      end
  end.
Proof.
  unfold insert_raw_data. destruct data as [|first rest]; [reflexivity|].
  set (data := first :: rest).
  assert (Hd : data ≠ []) by discriminate.
  unfold try_except, DatabaseManager_get_connection, ret.
  destruct (DatabaseManager_acquire c w) as [[[]|e] w1] eqn:H1;
    apply DatabaseManager_acquire_inv in H1; destruct H1 as (Ht1 & H1);
    [|split; [exact Hd|exact Ht1]].
  destruct H1 as (Hw1 & _).
  unfold bind.
  destruct (zoom cm set_cm ConfigManager.get_batch_size w1) as [[bs|e] w2] eqn:H2;
    apply zoom_cm_frame in H2; destruct H2 as (Ht2 & Hw2 & _);
    [|roll; (simpl; split; [exact Hd|congruence])].
  destruct (execute_batch c (table_arg (Some target)) (dict_keys first) data bs w2)
    as [[[]|e] w3] eqn:H3.
  2:{ apply execute_batch_inv in H3. destruct H3 as (Ht3 & _).
      roll; (simpl; split; [exact Hd|congruence]). }
  pose proof (execute_batch_inv _ _ _ _ _ _ _ _ H3) as (Ht3 & _).
  apply execute_batch_rows in H3.
  destruct H3 as (n & existing & rows & Hn & Hex & Hb & Hw3).
  simpl in Hn. inversion Hn; subst n; clear Hn.
  destruct (commit c w3) as [[[]|e] w4] eqn:H4; apply commit_inv in H4;
    destruct H4 as (_ & Ht4); [|roll; (simpl; split; [exact Hd|congruence])].
  simpl. exists existing, rows.
  split; [rewrite <- Hw1, <- Hw2; exact Hex|].
  split; [exact Hb|].
  split; [exact (bind_all_length _ _ _ Hb)|].
  split; [exact (bind_all_columns _ _ _ Hb)|].
  rewrite Ht4, Hw3, Hw2, Hw1. reflexivity.
Qed.

(** One chunk, with what it stores. *)
Lemma _insert_chunk_rows (chunk : list Row) (target : string) (i : nat)
    (w w' : World) (r : Result nat) :
  _insert_chunk c chunk target i w = (r, w') →
  match r with
  | Ok n =>
      n = length chunk ∧
      ((chunk = [] ∧ w' = w) ∨
       ∃ existing rows,
         tables w !! target = Some existing ∧ stored_rows chunk = Ok rows ∧
         tables w' = <[target := existing ++ rows]> (tables w))
  | Raise _ => tables w' = tables w
  end.
Proof.
  intros Hrun. pose proof (_insert_chunk_inv c _ _ _ _ _ _ Hrun) as Hinv.
  destruct r as [n|e]; [|exact Hinv]. destruct Hinv as [Hn _].
  split; [exact Hn|]. revert Hrun.
  unfold _insert_chunk. destruct chunk as [|first rest].
  { intros H; inversion H; subst. left. split; reflexivity. }
  set (chunk := first :: rest). right. revert Hrun.
  unfold bind.
  destruct (zoom cm set_cm ConfigManager.get_batch_size w) as [[bs|e] w1] eqn:H1;
    apply zoom_cm_frame in H1; destruct H1 as (Ht1 & _); [|discriminate].
  unfold ConnectionPoolManager_get_connection.
  destruct (_initialize_pool c w1) as [[[]|e] w0] eqn:H0;
    apply _initialize_pool_tables in H0; [|discriminate].
  destruct (getconn c w0) as [[[]|e] w2] eqn:H2;
    apply getconn_inv in H2; destruct H2 as (Ht2 & _ & Hw2); [|discriminate].
  specialize (Hw2 eq_refl).
  unfold try_except, bind, raise, ret.
  destruct (execute_batch c (PStr target) (dict_keys first) chunk bs w2)
    as [[[]|e] w3] eqn:H3; [|simpl; roll; discriminate].
  pose proof (execute_batch_inv _ _ _ _ _ _ _ _ H3) as (Ht3 & _).
  apply execute_batch_rows in H3.
  destruct H3 as (m & existing & rows & Hm & Hex & Hb & Hw3).
  simpl in Hm. inversion Hm; subst m; clear Hm.
  destruct (commit c w3) as [[[]|e] w4] eqn:H4; apply commit_inv in H4;
    destruct H4 as (_ & Ht4); [|simpl; roll; discriminate].
  intros H; inversion H; subst; clear H. simpl.
  exists existing, rows.
  split; [rewrite <- Ht1, <- H0, <- Hw2; exact Hex|].
  split; [exact Hb|].
  rewrite Ht4, Hw3, Hw2, H0, Ht1. reflexivity.
Qed.

Lemma counts_cons (i : nat) (r : Result nat) (rest : list (nat * Result nat)) :
  counts ((i, r) :: rest)
  = match r with Ok n => n | Raise _ => 0 end + counts rest.
Proof. reflexivity. Qed.

(** The tasks of a call change the target table only, and by as many rows
    as the counts their futures hold. *)
Lemma run_tasks_growth (target : string) (chunks : list (list Row))
    (order : list nat) (w w' : World) (futures : list (nat * Result nat)) :
  run_tasks c target chunks order w = (futures, w') →
  row_count w' target = (λ k, k + counts futures) <$> row_count w target
  ∧ ∀ t, t ≠ target → tables w' !! t = tables w !! t.
Proof.
  revert w futures. induction order as [|i rest IH]; intros w futures; simpl.
  - intros H; inversion H; subst. split; [|reflexivity].
    unfold row_count. destruct (tables w' !! target); simpl;
      [f_equal; unfold counts; simpl; lia|done].
  - destruct (chunks !! i) as [chunk|]; [|apply IH].
    destruct (_insert_chunk c chunk target i w) as [r w1] eqn:H1.
    destruct (run_tasks c target chunks rest w1) as [rs w2] eqn:H2.
    intros H; inversion H; subst; clear H.
    destruct (IH _ _ H2) as (IHrows & IHother).
    pose proof (_insert_chunk_inv c _ _ _ _ _ _ H1) as Hinv.
    apply _insert_chunk_rows in H1.
    rewrite counts_cons. destruct r as [n|e].
    + destruct Hinv as [-> Hrows]. destruct H1 as [_ H1]. split.
      * rewrite IHrows, Hrows. destruct (row_count w target); simpl;
          [f_equal; lia|done].
      * intros t Ht. rewrite (IHother t Ht).
        destruct H1 as [[_ ->]|(existing & rows & _ & _ & ->)]; [reflexivity|].
        apply lookup_insert_ne. congruence.
    + split.
      * rewrite IHrows. unfold row_count. rewrite Hinv.
        destruct (tables w !! target); simpl; [f_equal; lia|done].
      * intros t Ht. rewrite (IHother t Ht), Hinv. reflexivity.
Qed.

(** X7. Whatever a call of [insert_raw_data_threaded] returns or raises,
    the target table has grown by exactly the sum of the counts its futures
    hold, and no other table has changed.  The chunks that went through
    stay committed when another chunk fails and the call returns
    [False]. *)
Theorem threaded_insert_keeps_committed_chunks
    (sch : Schedule) (data : list Row) (target : string) (w : World) :
  let '(r, w') := insert_raw_data_threaded_run c sch data target w in
  row_count w' target
  = (λ k, k + counts (future_to_chunk r)) <$> row_count w target
  ∧ (∀ t, t ≠ target → tables w' !! t = tables w !! t).
Proof.
  destruct (insert_raw_data_threaded_run c sch data target w) as [r w'] eqn:Hrun.
  assert (Hsame : tables w' = tables w →
            row_count w' target
            = (λ k, k + counts []) <$> row_count w target
            ∧ (∀ t, t ≠ target → tables w' !! t = tables w !! t)).
  { intros Ht. split; [|intros t _; rewrite Ht; reflexivity].
    unfold row_count. rewrite Ht. destruct (tables w !! target); simpl;
      [f_equal; unfold counts; simpl; lia|done]. }
  revert Hrun. unfold insert_raw_data_threaded_run.
  destruct data as [|first rest].
  { intros H; inversion H; subst. simpl. destruct (Hsame eq_refl). auto. }
  cbv beta iota. set (data := first :: rest).
  destruct (zoom cm set_cm ConfigManager.get_threading_config w)
    as [[tc|e] w1] eqn:Hz; apply zoom_cm_frame in Hz; destruct Hz as (Ht1 & _);
    [|intros H; inversion H; subst; simpl; destruct (Hsame Ht1); auto].
  destruct (getitem tc "max_workers") as [W|e];
    [|intros H; inversion H; subst; simpl; destruct (Hsame Ht1); auto].
  destruct (getitem tc "chunk_size") as [Cv|e];
    [|intros H; inversion H; subst; simpl; destruct (Hsame Ht1); auto].
  destruct (_chunk_data data Cv) as [chunks|e];
    [|intros H; inversion H; subst; simpl; destruct (Hsame Ht1); auto].
  destruct (ThreadPoolExecutor W);
    [|intros H; inversion H; subst; simpl; destruct (Hsame Ht1); auto].
  destruct (run_tasks c target chunks (started sch) w1) as [futures w2] eqn:Hr.
  destruct (gather futures (completed sch) 0) as [ok total].
  intros H; inversion H; subst; clear H. simpl.
  apply run_tasks_growth in Hr. destruct Hr as (Hrows & Hother).
  split; [rewrite Hrows, (row_count_tables w w1 target Ht1); reflexivity|].
  intros t Ht. rewrite (Hother t Ht), Ht1. reflexivity.
Qed.

End StoredRows.

(** ** Settings the threaded insert cannot work with *)

Section ThreadedSettings.
Import PgRoom Spec Obs Sample.
Variable c : Client.

(** A negative step makes [range(0, n, step)] empty: no chunk is cut. *)
Lemma _chunk_data_negative (data : list Row) (C : Z) :
  (C < 0)%Z → _chunk_data data (PInt C) = Ok [].
Proof.
  intros HC. unfold _chunk_data, range, range_len. simpl.
  destruct (Z.eqb_spec C 0); [lia|].
  destruct (Z.ltb_spec 0 C); [lia|].
  replace (Z.to_nat ((0 - Z.of_nat (length data) - C - 1) / - C)) with 0;
    [reflexivity|].
  assert (Hq : ((0 - Z.of_nat (length data) - C - 1) / - C ≤ 0)%Z).
  { destruct (Z.le_gt_cases 0 (0 - Z.of_nat (length data) - C - 1)).
    - rewrite Z.div_small; lia.
    - apply Z.lt_le_incl, Z.div_lt_upper_bound; lia. }
  lia.
Qed.

Lemma run_tasks_no_chunks (target : string) (order : list nat) (w : World) :
  run_tasks c target [] order w = ([], w).
Proof. induction order as [|i rest IH]; simpl; [reflexivity|exact IH]. Qed.

Lemma gather_no_futures (order : list nat) (total : nat) :
  gather [] order total = (true, total).
Proof.
  revert total. induction order as [|i rest IH]; intros total; simpl;
    [reflexivity|apply IH].
Qed.

(** X8. A call of [insert_raw_data_threaded] on a non-empty list with a
    chunk size or a worker count that is not positive never reaches the
    database, and what it reports depends on which setting is off: a chunk
    size of zero raises [ValueError] to the caller; otherwise a worker
    count of zero or less returns [False]; and a negative chunk size with a
    positive worker count returns [True], although nothing was inserted. *)
Theorem threaded_insert_invalid_settings
    (sch : Schedule) (data : list Row) (target : string) (w : World)
    (W C : Z) :
  data ≠ [] →
  configured w "max_workers" = Ok (PInt W) →
  configured w "chunk_size" = Ok (PInt C) →
  (C ≤ 0 ∨ W ≤ 0)%Z →
  let '(r, w') := insert_raw_data_threaded_run c sch data target w in
  returned r = (if (C =? 0)%Z then Raise ValueError
                else if (W <=? 0)%Z then Ok false else Ok true)
  ∧ fst (insert_raw_data_threaded c sch data target w) = returned r
  ∧ total_inserted r = 0 ∧ future_to_chunk r = []
  ∧ log w' = log w ∧ tables w' = tables w.
Proof.
  intros Hd HW HC Hbad.
  assert (Hfst : fst (insert_raw_data_threaded c sch data target w)
                 = returned (fst (insert_raw_data_threaded_run c sch data target w))).
  { unfold insert_raw_data_threaded.
    destruct (insert_raw_data_threaded_run c sch data target w); reflexivity. }
  revert Hfst.
  destruct (Z.eqb_spec C 0) as [->|HC0].
  - (* range() refuses a zero step, before the [try] *)
    unfold insert_raw_data_threaded_run.
    destruct data as [|first rest]; [congruence|].
    rewrite zoom_threading_config. unfold configured in HW, HC.
    destruct (ConfigManager.get_threading_config (cm w)) as [[tc|e] s'];
      simpl; [|discriminate].
    rewrite HW, HC. simpl. intros Hfst. repeat split. exact Hfst.
  - assert (Hch : ∃ chunks, _chunk_data data (PInt C) = Ok chunks
                            ∧ ((C < 0)%Z → chunks = [])).
    { destruct (Z.lt_trichotomy C 0) as [Hneg|[Hz|Hpos]]; [| lia |].
      - exists []. split; [apply _chunk_data_negative; exact Hneg|reflexivity].
      - destruct (_chunk_data_spec data C Hpos) as (chunks & Hch & _).
        exists chunks. split; [exact Hch|lia]. }
    destruct Hch as (chunks & Hch & Hneg).
    rewrite (threaded_run_unfold c sch data target w (PInt W) (PInt C) chunks
               Hd HW HC Hch).
    simpl. destruct (Z.leb_spec W 0) as [HW0|HW0].
    + intros Hfst. repeat split. exact Hfst.
    + rewrite (Hneg ltac:(lia)), run_tasks_no_chunks, gather_no_futures.
      intros Hfst. repeat split. exact Hfst.
Qed.

(** X9. The defaults of the threading settings are not merged into a
    [threading] section that is there: when the section lacks
    [max_workers], or has it and lacks [chunk_size], a call of
    [insert_raw_data_threaded] on a non-empty list raises [KeyError] for
    that key to the caller instead of returning a boolean, before anything
    is sent to the database. *)
Theorem partial_threading_section_raises
    (sch : Schedule) (data : list Row) (target : string) (w : World)
    (cfg app th : list (string * pyval)) (s1 : ConfigManager.state)
    (key : string) :
  data ≠ [] →
  ConfigManager.load_config (cm w) = (Ok (PDict cfg), s1) →
  dict_lookup cfg "app" = Some (PDict app) →
  dict_lookup app "threading" = Some (PDict th) →
  (key = "max_workers" ∧ dict_lookup th "max_workers" = None)
  ∨ (key = "chunk_size" ∧ is_Some (dict_lookup th "max_workers")
     ∧ dict_lookup th "chunk_size" = None) →
  insert_raw_data_threaded c sch data target w
  = (Raise (KeyError (PStr key)), set_cm s1 w).
Proof.
  intros Hd Hload Happ Hth Hkey.
  unfold insert_raw_data_threaded, insert_raw_data_threaded_run.
  destruct data as [|first rest]; [congruence|].
  rewrite zoom_threading_config.
  unfold ConfigManager.get_threading_config, bind. rewrite Hload.
  unfold lift, get. rewrite Happ. simpl. rewrite Hth. simpl.
  destruct Hkey as [[-> Hmw]|(-> & [mw Hmw] & Hcs)]; rewrite Hmw;
    [reflexivity|]. rewrite Hcs. reflexivity.
Qed.

Lemma gather_spec (futures : list (nat * Result nat)) (order : list nat)
    (total : nat) :
  fst (gather futures order total) = true
  ↔ ∀ i, i ∈ order → ∀ e, future_result futures i ≠ Some (Raise e).
Proof.
  revert total. induction order as [|j rest IH]; intros total; simpl.
  - split; [intros _ i Hi; inversion Hi|reflexivity].
  - destruct (future_result futures j) as [[n|e]|] eqn:Hj.
    + rewrite IH. split.
      * intros H i Hi. apply elem_of_cons in Hi. destruct Hi as [->|Hi];
          [rewrite Hj; discriminate|apply H; exact Hi].
      * intros H i Hi. apply H, list_elem_of_further, Hi.
    + simpl. split; [discriminate|].
      intros H. exfalso. apply (H j (list_elem_of_here _ _) e). exact Hj.
    + rewrite IH. split.
      * intros H i Hi. apply elem_of_cons in Hi. destruct Hi as [->|Hi];
          [rewrite Hj; discriminate|apply H; exact Hi].
      * intros H i Hi. apply H, list_elem_of_further, Hi.
Qed.

(** X10. What [insert_raw_data_threaded] returns and what it leaves in the
    database depend on the order in which the tasks run, not on the order
    in which their futures complete: two runs that differ only in the
    completion order end the same. *)
Theorem completion_order_is_immaterial
    (sch sch' : Schedule) (data : list Row) (target : string) (w : World) :
  started sch' = started sch →
  completed sch' ≡ₚ completed sch →
  insert_raw_data_threaded c sch' data target w
  = insert_raw_data_threaded c sch data target w.
Proof.
  intros Hst Hco. unfold insert_raw_data_threaded, insert_raw_data_threaded_run.
  destruct data as [|first rest]; [reflexivity|].
  cbv beta iota.
  destruct (zoom cm set_cm ConfigManager.get_threading_config w)
    as [[tc|e] w1]; [|reflexivity].
  destruct (getitem tc "max_workers") as [W|e]; [|reflexivity].
  destruct (getitem tc "chunk_size") as [Cv|e]; [|reflexivity].
  destruct (_chunk_data (first :: rest) Cv) as [chunks|e]; [|reflexivity].
  destruct (ThreadPoolExecutor W); [|reflexivity].
  rewrite Hst.
  destruct (run_tasks c target chunks (started sch) w1) as [futures w2].
  destruct (gather futures (completed sch') 0) as [ok' total'] eqn:Hg'.
  destruct (gather futures (completed sch) 0) as [ok total] eqn:Hg.
  simpl. f_equal. f_equal.
  assert (H : ok' = true ↔ ok = true).
  { change ok' with (fst (ok', total')). change ok with (fst (ok, total)).
    rewrite <- Hg', <- Hg, !gather_spec.
    split; intros H i Hi; apply H; [rewrite Hco|rewrite <- Hco]; exact Hi. }
  destruct ok, ok'; try reflexivity; destruct H as [H1 H2];
    [specialize (H2 eq_refl)|specialize (H1 eq_refl)]; discriminate.
Qed.

End ThreadedSettings.

(** ** What [create_table] leaves behind *)

Section CreateTableMore.
Import PgRoom Spec Obs Sample.
Variable c : Client.

Lemma execute_tables (s : Stmt) (w w' : World) (r : Result unit) :
  execute c s w = (r, w') → tables w' = tables w.
Proof.
  unfold execute, bind.
  destruct (client_call c (EExecute s) DatabaseError w) as [[[]|e] w1] eqn:H1;
    apply client_call_inv in H1; destruct H1 as [-> _];
    [|intros H; inversion H; subst; reflexivity].
  destruct s as [t|t col|t cols]; simpl.
  - destruct (sql_ident t) as [n|];
      [destruct (work w !! n)|]; intros H; inversion H; subst; reflexivity.
  - destruct (sql_ident t) as [n|];
      [destruct (work w !! n)|]; intros H; inversion H; subst; reflexivity.
  - intros H; inversion H; subst; reflexivity.
Qed.

Lemma execute_each_tables (sqls : list Stmt) (w w' : World) (r : Result unit) :
  execute_each c sqls w = (r, w') → tables w' = tables w.
Proof.
  revert w. induction sqls as [|s sqls IH]; intros w; simpl.
  - intros H; inversion H; subst; reflexivity.
  - unfold bind. destruct (execute c s w) as [[[]|e] w1] eqn:H1;
      apply execute_tables in H1.
    + intros H. rewrite (IH _ H). exact H1.
    + intros H; inversion H; subst. exact H1.
Qed.

Lemma execute_create_work (name : string) (w w' : World) :
  execute c (CreateTableIfNotExists (PStr name)) w = (Ok tt, w') →
  work w' = match work w !! name with
            | Some _ => work w
            | None => <[name := []]> (work w)
            end.
Proof.
  unfold execute, bind.
  destruct (client_call c _ DatabaseError w) as [[[]|e] w1] eqn:H1;
    apply client_call_inv in H1; destruct H1 as [-> _]; [|discriminate].
  simpl. destruct (work w !! name); intros H; inversion H; subst; reflexivity.
Qed.

(** X11. [create_table] with a table name never raises, and is all or
    nothing.  When it returns [True], a table that was missing is there and
    empty, a table that was there has kept its rows, and every other table
    is as it was.  When it returns [False], no table has changed. *)
Theorem create_table_outcome (name : string) (w : World) :
  match create_table c (Some name) w with
  | (Raise _, _) => False
  | (Ok false, w') => tables w' = tables w
  | (Ok true, w') =>
      tables w' = match tables w !! name with
                  | Some _ => tables w
                  | None => <[name := []]> (tables w)
                  end
  end.
Proof.
  unfold create_table, bind, ret, try_except, DatabaseManager_get_connection.
  destruct (DatabaseManager_acquire c w) as [[[]|e] w1] eqn:H1;
    apply DatabaseManager_acquire_inv in H1; destruct H1 as (Ht1 & H1);
    [|exact Ht1].
  destruct H1 as (Hw1 & _).
  destruct (execute c (CreateTableIfNotExists (PStr name)) w1)
    as [[[]|e] w2] eqn:H2.
  2:{ apply execute_tables in H2. roll; simpl; congruence. }
  pose proof (execute_tables _ _ _ _ H2) as Ht2.
  apply execute_create_work in H2.
  destruct (execute_each c (map (CommentOnColumn (PStr name)) agoda_columns) w2)
    as [[[]|e] w3] eqn:H3.
  2:{ apply execute_each_tables in H3. roll; simpl; congruence. }
  pose proof (execute_each_tables _ _ _ _ H3) as Ht3.
  apply execute_each_comments_inv in H3. destruct H3 as (_ & _ & Hw3).
  destruct (commit c w3) as [[[]|e] w4] eqn:H4; apply commit_inv in H4;
    destruct H4 as (_ & Ht4); [|roll; simpl; congruence].
  simpl. rewrite Ht4, Hw3, H2, Hw1. reflexivity.
Qed.

(** X12. [create_table] without a table name takes it from the settings,
    outside the [try]: when the settings cannot be read or have no
    [database.table_name], the exception ([FileNotFoundError], [KeyError],
    ...) reaches the caller and nothing is sent to the database; with a
    name in the settings the call does what [create_table] with that name
    does. *)
Theorem create_table_without_name (w : World) :
  match ConfigManager.get_table_name (cm w) with
  | (Raise e, s1) => create_table c None w = (Raise e, set_cm s1 w)
  | (Ok (PStr name), s1) =>
      create_table c None w = create_table c (Some name) (set_cm s1 w)
  | (Ok _, _) => True
  end
  ∧ (∀ cfg s1, ConfigManager.load_config (cm w) = (Ok (PDict cfg), s1) →
       (dict_lookup cfg "database" = None →
        create_table c None w
        = (Raise (KeyError (PStr "database")), set_cm s1 w))
       ∧ (∀ d, dict_lookup cfg "database" = Some (PDict d) →
               dict_lookup d "table_name" = None →
               create_table c None w
               = (Raise (KeyError (PStr "table_name")), set_cm s1 w)))
  ∧ (ConfigManager.config_yml (cm w) = Absent →
     ConfigManager._config_cache (cm w) = PNone →
     create_table c None w = (Raise FileNotFoundError, w)).
Proof.
  assert (Hz : ∀ r s1, ConfigManager.get_table_name (cm w) = (r, s1) →
            zoom cm set_cm ConfigManager.get_table_name w = (r, set_cm s1 w)).
  { intros r s1 H. unfold zoom. rewrite H. reflexivity. }
  split; [|split].
  - destruct (ConfigManager.get_table_name (cm w)) as [[v|e] s1] eqn:Hn.
    + destruct v; try exact I.
      unfold create_table at 1. unfold bind at 1.
      rewrite (Hz _ _ eq_refl). reflexivity.
    + unfold create_table, bind. rewrite (Hz _ _ eq_refl). reflexivity.
  - intros cfg s1 Hload. split.
    + intros Hdb. unfold create_table, bind.
      rewrite (Hz (Raise (KeyError (PStr "database"))) s1); [reflexivity|].
      unfold ConfigManager.get_table_name, bind. rewrite Hload.
      unfold lift, getitem. rewrite Hdb. reflexivity.
    + intros d Hdb Htn. unfold create_table, bind.
      rewrite (Hz (Raise (KeyError (PStr "table_name"))) s1); [reflexivity|].
      unfold ConfigManager.get_table_name, bind. rewrite Hload.
      unfold lift, getitem. rewrite Hdb. simpl. rewrite Htn. reflexivity.
  - intros Hfile Hcache. unfold create_table, bind.
    rewrite (Hz (Raise FileNotFoundError) (cm w)).
    + destruct w; reflexivity.
    + unfold ConfigManager.get_table_name, ConfigManager.load_config, bind,
        gets, try_except, ConfigManager.read_config_file, raise.
      rewrite Hcache, Hfile. reflexivity.
Qed.

End CreateTableMore.

(** ** Connections are released *)

Section Sessions.
Import PgRoom Spec Obs Sample.
Variable c : Client.

Lemma logs_refl (w w' : World) : log w' = log w → logs w w' [].
Proof. unfold logs. intros ->. rewrite app_nil_r. reflexivity. Qed.

Lemma logs_trans (w w1 w2 : World) (es1 es2 : list Event) :
  logs w w1 es1 → logs w1 w2 es2 → logs w w2 (es1 ++ es2).
Proof. unfold logs. intros H1 H2. rewrite H2, H1, app_assoc. reflexivity. Qed.

Lemma logs_calls_since (w w' : World) (es : list Event) :
  logs w w' es → calls_since w w' = es.
Proof. unfold logs, calls_since. intros ->. apply drop_app_length. Qed.

Lemma client_call_logs (ev : Event) (err : exn) (w w' : World) (r : Result unit) :
  client_call c ev err w = (r, w') → logs w w' [ev].
Proof. intros H. apply client_call_inv in H. destruct H as [-> _]. reflexivity. Qed.


(** A call to the client raises exactly when the client faults there. *)
Lemma client_call_fault (ev : Event) (err : exn) (w w' : World) (r : Result unit) :
  client_call c ev err w = (r, w') →
  fault c (length (log w)) = match r with Ok _ => false | Raise _ => true end.
Proof.
  intros H. apply client_call_inv in H. destruct H as [_ ->].
  destruct (fault c (length (log w))); reflexivity.
Qed.


Lemma rollback_logs (w w' : World) (r : Result unit) :
  rollback c w = (r, w') → logs w w' [ERollback].
Proof. intros H. apply rollback_inv in H. apply H. Qed.

Lemma execute_logs (s : Stmt) (w w' : World) (r : Result unit) :
  execute c s w = (r, w') → logs w w' [EExecute s].
Proof.
  unfold execute, bind.
  destruct (client_call c (EExecute s) DatabaseError w) as [[[]|e] w1] eqn:H1;
    apply client_call_logs in H1;
    [|intros H; inversion H; subst; exact H1].
  destruct s as [t|t col|t cols]; simpl.
  - destruct (sql_ident t) as [n|];
      [destruct (work w1 !! n)|]; intros H; inversion H; subst; exact H1.
  - destruct (sql_ident t) as [n|];
      [destruct (work w1 !! n)|]; intros H; inversion H; subst; exact H1.
  - intros H; inversion H; subst; exact H1.
Qed.

Lemma execute_each_logs (sqls : list Stmt) (w w' : World) (r : Result unit) :
  execute_each c sqls w = (r, w') → ∃ es, logs w w' es ∧ Forall inner es.
Proof.
  revert w. induction sqls as [|s sqls IH]; intros w; simpl.
  - intros H; inversion H; subst. exists []. split; [apply logs_refl; reflexivity|constructor].
  - unfold bind. destruct (execute c s w) as [[[]|e] w1] eqn:H1;
      apply execute_logs in H1.
    + intros H. destruct (IH _ H) as (es & Hl & Hi).
      exists ([EExecute s] ++ es). split; [eapply logs_trans; eauto|].
      constructor; [exact I|exact Hi].
    + intros H; inversion H; subst. exists [EExecute s].
      split; [exact H1|repeat constructor].
Qed.

Lemma execute_batch_logs (table : pyval) (columns : list string)
    (argslist : list Row) (page_size : pyval) (w w' : World) (r : Result unit) :
  execute_batch c table columns argslist page_size w = (r, w') →
  ∃ es, logs w w' es ∧ Forall inner es.
Proof.
  unfold execute_batch, bind, lift, raise, ret.
  assert (Hnone : ∀ r0, (r0, w) = (r, w') → ∃ es, logs w w' es ∧ Forall inner es).
  { intros r0 H; inversion H; subst. exists [].
    split; [apply logs_refl; reflexivity|constructor]. }
  destruct (as_int page_size) as [ps|e]; [|apply Hnone].
  destruct (ps <=? 0)%Z; [apply Hnone|].
  destruct (bind_all columns argslist) as [rows|e]; [|apply Hnone].
  destruct (client_call c _ DatabaseError w) as [[[]|e] w1] eqn:H1;
    apply client_call_logs in H1.
  2:{ intros H; inversion H; subst. eexists. split; [exact H1|repeat constructor]. }
  assert (Hone : ∀ r0 w2, log w2 = log w1 → (r0, w2) = (r, w') →
            ∃ es, logs w w' es ∧ Forall inner es).
  { intros r0 w2 Hl H; inversion H; subst.
    exists [EExecuteBatch (InsertInto table columns) (length argslist)].
    split; [|repeat constructor]. unfold logs in *. rewrite Hl. exact H1. }
  destruct (sql_ident table) as [n|]; [|apply Hone; reflexivity].
  destruct (work w1 !! n) as [existing|]; [|apply Hone; reflexivity].
  destruct (accepts c n existing rows); apply Hone; reflexivity.
Qed.

Lemma commit_logs (w w' : World) (r : Result unit) :
  commit c w = (r, w') → logs w w' [ECommit].
Proof. intros H. apply commit_inv in H. apply H. Qed.

Lemma DatabaseManager_acquire_logs (w w' : World) (r : Result unit) :
  DatabaseManager_acquire c w = (r, w') →
  match r with
  | Ok _ => logs w w' [EConnect] ∧ fault c (length (log w)) = false
  | Raise _ => logs w w' []
               ∨ (logs w w' [EConnect] ∧ fault c (length (log w)) = true)
  end.
Proof.
  unfold DatabaseManager_acquire, connect, bind, lift.
  destruct (DatabaseManager__get_db_config w) as [[o|e0] w1] eqn:H1;
    apply DatabaseManager__get_db_config_tables in H1; destruct H1 as [_ Hl].
  2:{ intros H; inversion H; subst. left. apply logs_refl. exact Hl. }
  destruct (kwargs (SqlConfig.oval o)).
  2:{ intros H; inversion H; subst. left. apply logs_refl. exact Hl. }
  destruct (client_call c EConnect DatabaseError w1) as [[[]|e0] w2] eqn:H2;
    pose proof (client_call_fault _ _ _ _ _ H2) as Hf;
    apply client_call_logs in H2; rewrite Hl in Hf;
    intros H; inversion H; subst; [|right];
    (split; [|exact Hf]); unfold logs in *; simpl; rewrite H2, Hl; reflexivity.
Qed.

(** The calls of a [with self.db_manager.get_connection()] block whose body
    makes inner calls only. *)
Lemma DatabaseManager_session {A} (body : M World A) (w w' : World)
    (r : Result A) :
  (∀ w1 w2 r1, body w1 = (r1, w2) → ∃ es, logs w1 w2 es ∧ Forall inner es) →
  DatabaseManager_get_connection c body w = (r, w') →
  ∃ es, logs w w' es ∧ session c (length (log w)) EConnect EClose es.
Proof.
  intros Hbody. unfold DatabaseManager_get_connection.
  destruct (DatabaseManager_acquire c w) as [[[]|e] w1] eqn:H1;
    apply DatabaseManager_acquire_logs in H1.
  2:{ intros H; inversion H; subst. destruct H1 as [H1|[H1 Hf]]; eexists;
        (split; [exact H1|]); [left; reflexivity|right; left].
      split; [reflexivity|exact Hf]. }
  destruct H1 as [H1 Hf].
  destruct (body w1) as [[a|e] w2] eqn:H2;
    destruct (Hbody _ _ _ H2) as (es & Hes & Hin).
  - intros H; inversion H; subst; clear H.
    exists ([EConnect] ++ es ++ [EClose]). split.
    + eapply logs_trans; [exact H1|]. eapply logs_trans; [exact Hes|].
      reflexivity.
    + right. right. exists es. repeat split; [exact Hin|exact Hf].
  - assert (Hend : ∀ (r0 : Result A) w3, logs w2 w3 [ERollback] →
              (r0, snd (close w3)) = (r, w') →
              ∃ es0, logs w w' es0
                     ∧ session c (length (log w)) EConnect EClose es0).
    { intros r0 w3 H3 H; inversion H; subst; clear H.
      exists ([EConnect] ++ (es ++ [ERollback]) ++ [EClose]). split.
      + eapply logs_trans; [exact H1|]. eapply logs_trans; [|reflexivity].
        eapply logs_trans; [exact Hes|exact H3].
      + right. right. exists (es ++ [ERollback]). repeat split; [|exact Hf].
        apply Forall_app. split; [exact Hin|repeat constructor]. }
    destruct (rollback c w2) as [[[]|e'] w3] eqn:H3; apply rollback_logs in H3;
      apply Hend; exact H3.
Qed.

(** A connection that was obtained and not released is no session: the
    calls of a session whose first call succeeded end with the release. *)
Lemma session_released (n : nat) (obtain release : Event) (es : list Event) :
  session c n obtain release es → fault c n = false → es ≠ [] →
  last es = Some release.
Proof.
  intros [->|[[_ Hf]|(mid & -> & _ & _)]] Hok Hne.
  - congruence.
  - congruence.
  - change (obtain :: mid ++ [release]) with ((obtain :: mid) ++ [release]).
    apply last_snoc.
Qed.

(** X13. Every call of [create_table] and of the sequential
    [insert_raw_data] uses at most one connection and never leaves it open.
    Either it makes no call at all; or its only call is a connect, and that
    connect failed; or the connect succeeded, and its calls are that
    connect, statements on the connection, and the close as the last call,
    whether it returns [True] or [False]. *)
Theorem sequential_calls_close_their_connection
    (name : string) (data : list Row) (target : option string) (w : World) :
  (let w' := snd (create_table c (Some name) w) in
   log w' = log w ++ calls_since w w'
   ∧ session c (length (log w)) EConnect EClose (calls_since w w'))
  ∧ (let w' := snd (insert_raw_data c data target w) in
     log w' = log w ++ calls_since w w'
     ∧ session c (length (log w)) EConnect EClose (calls_since w w')).
Proof.
  assert (Hfin : ∀ w', (∃ es, logs w w' es
                              ∧ session c (length (log w)) EConnect EClose es) →
            log w' = log w ++ calls_since w w'
            ∧ session c (length (log w)) EConnect EClose (calls_since w w')).
  { intros w' (es & Hl & Hs). rewrite (logs_calls_since _ _ _ Hl).
    split; [exact Hl|exact Hs]. }
  split; apply Hfin.
  - unfold create_table, bind, ret, try_except.
    destruct (DatabaseManager_get_connection c _ w) as [r w'] eqn:Hrun.
    assert (Hs : ∃ es, logs w w' es ∧ session c (length (log w)) EConnect EClose es).
    { eapply DatabaseManager_session; [|exact Hrun].
      intros w1 w2 r1. unfold bind.
      destruct (execute c _ w1) as [[[]|e] w3] eqn:H1;
        apply execute_logs in H1.
      2:{ intros H; inversion H; subst. eexists. split; [exact H1|repeat constructor]. }
      destruct (execute_each c _ w3) as [[[]|e] w4] eqn:H2;
        apply execute_each_logs in H2; destruct H2 as (es2 & H2 & Hi2).
      2:{ intros H; inversion H; subst. eexists.
          split; [eapply logs_trans; eauto|]. constructor; [exact I|exact Hi2]. }
      destruct (commit c w4) as [[[]|e] w5] eqn:H3; apply commit_logs in H3;
        intros H; inversion H; subst; eexists;
        (split; [eapply logs_trans; [exact H1|eapply logs_trans; [exact H2|exact H3]]|]);
        (constructor; [exact I|]); (apply Forall_app; split; [exact Hi2|]);
        repeat constructor. }
    destruct r as [b|e]; simpl; exact Hs.
  - unfold insert_raw_data. destruct data as [|first rest].
    { simpl. exists []. split; [apply logs_refl; reflexivity|left; reflexivity]. }
    unfold try_except, ret.
    destruct (DatabaseManager_get_connection c _ w) as [r w'] eqn:Hrun.
    assert (Hs : ∃ es, logs w w' es ∧ session c (length (log w)) EConnect EClose es).
    { eapply DatabaseManager_session; [|exact Hrun].
      intros w1 w2 r1. unfold bind.
      destruct (zoom cm set_cm ConfigManager.get_batch_size w1)
        as [[bs|e] w3] eqn:H0; apply zoom_cm_frame in H0;
        destruct H0 as (_ & _ & H0 & _).
      2:{ intros H; inversion H; subst. exists [].
          split; [apply logs_refl; exact H0|constructor]. }
      destruct (execute_batch c _ _ _ bs w3) as [[[]|e] w4] eqn:H1;
        apply execute_batch_logs in H1; destruct H1 as (es1 & H1 & Hi1).
      2:{ intros H; inversion H; subst. exists es1. split; [|exact Hi1].
          unfold logs in *. rewrite H1, H0. reflexivity. }
      destruct (commit c w4) as [[[]|e] w5] eqn:H3; apply commit_logs in H3;
        intros H; inversion H; subst; exists (es1 ++ [ECommit]);
        (split; [unfold logs in *; rewrite H3, H1, H0, app_assoc; reflexivity|]);
        (apply Forall_app; split; [exact Hi1|repeat constructor]). }
    destruct r as [b|e]; simpl; exact Hs.
Qed.




End Sessions.

(** ** The rows of the threaded insert *)

Section ThreadedRows.
Import PgRoom Spec Obs Sample.
Variable c : Client.








Lemma filter_all {A} (P : A → Prop) `{∀ x, Decision (P x)} (l : list A) :
  Forall P l → filter P l = l.
Proof.
  induction 1 as [|x l Hx _ IH]; [reflexivity|].
  rewrite filter_cons_True by exact Hx. f_equal. exact IH.
Qed.




End ThreadedRows.

(** ** Settings of an unexpected shape *)

Section AccessorsMore.
Import ConfigManager Spec Obs Sample.

(** A configuration that is not [None] is answered from the cache, and the
    manager stays as it is. *)
Lemma load_config_cached (s : state) :
  _config_cache s ≠ PNone → load_config s = (Ok (_config_cache s), s).
Proof.
  intros Hc. unfold load_config, bind, gets, ret.
  destruct (_config_cache s) eqn:Hv; [congruence|..]; simpl; rewrite ?Hv;
    reflexivity.
Qed.

Lemma load_config_stores (s s1 : state) (v : pyval) :
  load_config s = (Ok v, s1) → _config_cache s1 = v.
Proof.
  unfold load_config, bind, gets, ret, try_except, read_config_file, raise.
  destruct (_config_cache s) eqn:Hc; simpl;
    try (rewrite Hc; intros [= <- <-]; exact Hc).
  destruct (config_yml s) as [|e|v0]; simpl; try discriminate.
  - destruct (is_FileNotFoundError e); destruct (is_YAMLError e); discriminate.
  - intros [= <- <-]. reflexivity.
Qed.

(** X17. What the accessors do with settings of an unexpected shape.
    When the file does not hold a mapping (an empty file parses to [None]),
    [get_table_name] raises [TypeError] and the five accessors that go
    through [get] raise [AttributeError].  When the [app] entry is there
    and is not a mapping, the default [{}] does not apply and the five
    raise [AttributeError]; so does [is_threading_enabled] for a
    [threading] entry that is not a mapping.  With no [app] entry, or one
    without the key, [get_log_level] returns ['INFO'] and
    [get_connection_pool_config] the four default settings. *)
Theorem accessors_on_unexpected_settings (s s1 : state) (v : pyval) :
  load_config s = (Ok v, s1) →
  ((∀ d, v ≠ PDict d) →
   get_table_name s = (Raise TypeError, s1)
   ∧ get_log_level s = (Raise AttributeError, s1)
   ∧ get_batch_size s = (Raise AttributeError, s1)
   ∧ get_connection_pool_config s = (Raise AttributeError, s1)
   ∧ get_threading_config s = (Raise AttributeError, s1)
   ∧ is_threading_enabled s = (Raise AttributeError, s1))
  ∧ (∀ cfg app, v = PDict cfg → dict_lookup cfg "app" = Some app →
       (∀ d, app ≠ PDict d) →
       get_log_level s = (Raise AttributeError, s1)
       ∧ get_batch_size s = (Raise AttributeError, s1)
       ∧ get_connection_pool_config s = (Raise AttributeError, s1)
       ∧ get_threading_config s = (Raise AttributeError, s1)
       ∧ is_threading_enabled s = (Raise AttributeError, s1))
  ∧ (∀ cfg app th, v = PDict cfg → dict_lookup cfg "app" = Some (PDict app) →
       dict_lookup app "threading" = Some th → (∀ d, th ≠ PDict d) →
       get_threading_config s = (Ok th, s1)
       ∧ is_threading_enabled s = (Raise AttributeError, s1))
  ∧ (∀ cfg, v = PDict cfg →
       (app_lacks cfg "log_level" → get_log_level s = (Ok (PStr "INFO"), s1))
       ∧ (app_lacks cfg "connection_pool" →
          get_connection_pool_config s
          = (Ok (PDict [("min_connections", PInt 2);
                        ("max_connections", PInt 10);
                        ("connection_timeout", PInt 30);
                        ("idle_timeout", PInt 300)]), s1))).
Proof.
  intros Hload.
  assert (Hnd : ∀ x : pyval, (∀ d, x ≠ PDict d) →
            (∀ k, getitem x k = Raise TypeError)
            ∧ ∀ k dflt, get x k dflt = Raise AttributeError).
  { intros x Hx. destruct x; try (split; reflexivity). destruct (Hx d eq_refl). }
  split; [|split; [|split]].
  - intros Hv. destruct (Hnd v Hv) as [Hi Hg].
    unfold get_table_name, get_log_level, get_batch_size,
      get_connection_pool_config, is_threading_enabled, get_threading_config,
      bind, lift.
    rewrite Hload, Hi, !Hg. repeat split.
  - intros cfg app -> Happ Hv. destruct (Hnd app Hv) as [_ Hg].
    unfold get_log_level, get_batch_size, get_connection_pool_config,
      is_threading_enabled, get_threading_config, bind, lift.
    rewrite Hload. unfold get at 1 3 5 7 9. rewrite Happ, !Hg. repeat split.
  - intros cfg app th -> Happ Hth Hv. destruct (Hnd th Hv) as [_ Hg].
    unfold is_threading_enabled, get_threading_config, bind, lift.
    rewrite Hload. unfold get at 1 3. rewrite Happ. unfold get at 1 2.
    rewrite Hth, Hg. split; reflexivity.
  - intros cfg ->. split.
    + intros [H|(app & H & Hk)];
        unfold get_log_level, bind; rewrite Hload; unfold lift, get;
        rewrite H; simpl; [|rewrite Hk]; reflexivity.
    + intros [H|(app & H & Hk)];
        unfold get_connection_pool_config, bind; rewrite Hload; unfold lift, get;
        rewrite H; simpl; [|rewrite Hk]; reflexivity.
Qed.

End AccessorsMore.
(** ** A pool that cannot be set up *)

Section PoolSettings.
Import PgRoom Spec Obs Sample.
Variable c : Client.


Lemma set_cm_id (w : World) : set_cm (cm w) w = w.
Proof. destruct w; reflexivity. Qed.

(** Reading the database settings for the pool leaves the rest alone. *)
Lemma ConnectionPoolManager__get_db_config_frame (w w' : World)
    (r : Result SqlConfig.pyobj) :
  ConnectionPoolManager__get_db_config w = (r, w') →
  cm w' = cm w ∧ pool w' = pool w ∧ log w' = log w ∧ tables w' = tables w.
Proof.
  unfold ConnectionPoolManager__get_db_config, bind, gets, modify, lift, ret,
    zoom.
  destruct (cpm_db_config w) as [o|].
  - intros H; inversion H; subst. repeat split.
  - destruct (SqlConfig.load_config None (sql w)) as [[o|e] s1].
    + destruct (SqlConfig.obj_getitem o (PStr "host"));
        [destruct (SqlConfig.obj_getitem o (PStr "port"))|];
        intros H; inversion H; subst; repeat split.
    + intros H; inversion H; subst; repeat split.
Qed.

Lemma _insert_chunk_no_pool (chunk : list Row) (target : string) (i : nat)
    (w : World) (cfg app : list (string * pyval)) (pc : pyval) :
  chunk ≠ [] → pool w = false →
  ConfigManager._config_cache (cm w) = PDict cfg →
  dict_lookup cfg "app" = Some (PDict app) →
  dict_lookup app "connection_pool" = Some pc →
  pool_unconfigured pc →
  ∃ e w', _insert_chunk c chunk target i w = (Raise e, w')
          ∧ pool w' = false ∧ cm w' = cm w ∧ log w' = log w
          ∧ tables w' = tables w.
Proof.
  intros Hne Hpool Hcache Happ Hpc Hbad.
  assert (Hload : ∀ w0, cm w0 = cm w →
            ConfigManager.load_config (cm w0) = (Ok (PDict cfg), cm w0)).
  { intros w0 Hw0. rewrite Hw0, <- Hcache. apply load_config_cached.
    rewrite Hcache. discriminate. }
  assert (Hbs : ∃ bs, ∀ w0, cm w0 = cm w →
            zoom cm set_cm ConfigManager.get_batch_size w0 = (Ok bs, w0)).
  { exists (default (PInt 100) (dict_lookup app "batch_size")).
    intros w0 Hw0. unfold zoom, ConfigManager.get_batch_size, bind.
    rewrite (Hload w0 Hw0). unfold lift, get. rewrite Happ.
    rewrite set_cm_id. destruct (dict_lookup app "batch_size"); reflexivity. }
  assert (Hpcfg : ∀ w0, cm w0 = cm w →
            zoom cm set_cm ConfigManager.get_connection_pool_config w0
            = (Ok pc, w0)).
  { intros w0 Hw0.
    unfold zoom, ConfigManager.get_connection_pool_config, bind.
    rewrite (Hload w0 Hw0). unfold lift, get. rewrite Happ, Hpc.
    rewrite set_cm_id. reflexivity. }
  destruct Hbs as [bs Hbs].
  unfold _insert_chunk. destruct chunk as [|first rest]; [congruence|].
  unfold bind. rewrite (Hbs w eq_refl).
  unfold ConnectionPoolManager_get_connection, _initialize_pool, bind, gets.
  rewrite Hpool.
  destruct (ConnectionPoolManager__get_db_config w) as [[o|e] w1] eqn:H1;
    apply ConnectionPoolManager__get_db_config_frame in H1;
    destruct H1 as (Hcm & Hp & Hl & Ht).
  2:{ exists e, w1. repeat split; congruence. }
  rewrite (Hpcfg w1 Hcm). unfold lift.
  destruct (getitem pc "min_connections") as [mn|e] eqn:Hmin.
  2:{ exists e, w1. repeat split; congruence. }
  destruct (getitem pc "max_connections") as [mx|e] eqn:Hmax.
  2:{ exists e, w1. repeat split; congruence. }
  destruct Hbad as [[e He]|[e He]]; congruence.
Qed.

Lemma run_tasks_no_pool (target : string) (chunks : list (list Row))
    (order : list nat) (cfg app : list (string * pyval)) (pc : pyval) :
  Forall (λ chunk, chunk ≠ []) chunks →
  dict_lookup cfg "app" = Some (PDict app) →
  dict_lookup app "connection_pool" = Some pc →
  pool_unconfigured pc →
  ∀ (w w' : World) (futures : list (nat * Result nat)),
    pool w = false →
    ConfigManager._config_cache (cm w) = PDict cfg →
    run_tasks c target chunks order w = (futures, w') →
    Forall (λ f, ∃ e, snd f = Raise e) futures
    ∧ pool w' = false ∧ cm w' = cm w ∧ log w' = log w ∧ tables w' = tables w.
Proof.
  intros Hchunks Happ Hpc Hbad.
  induction order as [|i rest IH]; intros w w' futures Hpool Hcache; simpl.
  - intros H; inversion H; subst. split; [constructor|]. repeat split.
    exact Hpool.
  - destruct (chunks !! i) as [chunk|] eqn:Hi; [|apply IH; assumption].
    assert (Hne : chunk ≠ []).
    { rewrite Forall_forall in Hchunks. apply Hchunks.
      eapply list_elem_of_lookup_2; eauto. }
    destruct (_insert_chunk_no_pool chunk target i w cfg app pc Hne Hpool
                Hcache Happ Hpc Hbad) as (e & w1 & -> & Hp1 & Hcm1 & Hl1 & Ht1).
    destruct (run_tasks c target chunks rest w1) as [rs w2] eqn:H2.
    intros H; inversion H; subst; clear H.
    destruct (IH _ _ _ Hp1 ltac:(rewrite Hcm1; exact Hcache) H2)
      as (Hall & Hp2 & Hcm2 & Hl2 & Ht2).
    split; [constructor; [exists e; reflexivity|exact Hall]|].
    repeat split; congruence.
Qed.

(** X18. The defaults of the pool settings are not merged into a
    [connection_pool] section that is there.  When [min_connections] or
    [max_connections] cannot be read from it and no pool has been set up,
    a call of [insert_raw_data_threaded] with valid threading settings on a
    non-empty list returns [False]: every task raises when it sets up the
    pool, nothing is sent to the database, no table changes, and the pool
    is still not set up when the call returns. *)
Theorem partial_pool_section_fails_every_chunk
    (sch : Schedule) (data : list Row) (target : string) (w : World)
    (cfg app : list (string * pyval)) (pc W : pyval)
    (s1 : ConfigManager.state) (C : Z) :
  data ≠ [] →
  pool w = false →
  ConfigManager.load_config (cm w) = (Ok (PDict cfg), s1) →
  dict_lookup cfg "app" = Some (PDict app) →
  dict_lookup app "connection_pool" = Some pc →
  pool_unconfigured pc →
  configured w "chunk_size" = Ok (PInt C) → (0 < C)%Z →
  configured w "max_workers" = Ok W → ThreadPoolExecutor W = Ok tt →
  valid_schedule sch (chunk_count (length data) C) →
  let '(r, w') := insert_raw_data_threaded_run c sch data target w in
  returned r = Ok false
  ∧ length (future_to_chunk r) = chunk_count (length data) C
  ∧ Forall (λ f, ∃ e, snd f = Raise e) (future_to_chunk r)
  ∧ log w' = log w ∧ tables w' = tables w ∧ pool w' = false.
Proof.
  intros Hne Hpool Hload Happ Hpc Hbad HC Hpos HW Hexec Hv.
  destruct (_chunk_data_spec data C Hpos)
    as (chunks & Hch & Hlen & _ & Hsome & Hshape).
  pose proof (threaded_raise_false c sch data target w
                (chunk_count (length data) C)) as Hfalse.
  pose proof (threaded_run_unfold c sch data target w W (PInt C) chunks
                Hne HW HC Hch) as Hrun.
  cbv zeta in Hrun. rewrite Hexec in Hrun.
  assert (Hs1 : snd (ConfigManager.get_threading_config (cm w)) = s1).
  { unfold ConfigManager.get_threading_config, bind. rewrite Hload.
    unfold lift. destruct (get (PDict cfg) "app" (PDict [])); reflexivity. }
  rewrite Hs1 in Hrun.
  destruct (run_tasks c target chunks (started sch) (set_cm s1 w))
    as [futures w2] eqn:Htasks.
  destruct (gather futures (completed sch) 0) as [ok total] eqn:Hg.
  rewrite Hrun in Hfalse |- *. simpl in Hfalse |- *.
  assert (Hchunks : Forall (λ chunk : list Row, chunk ≠ []) chunks).
  { apply Forall_forall. intros chunk Hin.
    apply list_elem_of_lookup_1 in Hin. destruct Hin as [i Hi].
    destruct (Hshape i chunk Hi) as (_ & Hpos' & _).
    intros ->. simpl in Hpos'. lia. }
  pose proof (run_tasks_inv c _ _ _ _ _ _ Htasks) as (Hidx & _ & _).
  destruct (run_tasks_no_pool target chunks (started sch) cfg app pc Hchunks
              Happ Hpc Hbad (set_cm s1 w) w2 futures Hpool
              (load_config_stores _ _ _ Hload) Htasks)
    as (Hall & Hp2 & _ & Hl2 & Ht2).
  pose proof Hv as [Hst _]. rewrite <- Hlen in Hst.
  assert (Hcount : length futures = length chunks).
  { rewrite <- (length_fmap fst), Hidx.
    rewrite filter_all.
    - rewrite Hst. apply length_seq.
    - apply Forall_forall. intros i Hi. rewrite Hst in Hi.
      apply elem_of_seq in Hi. lia. }
  split.
  - destruct futures as [|[i r] futures'].
    + simpl in Hcount. destruct chunks; [|discriminate].
      destruct (Hsome Hne eq_refl).
    + inversion Hall as [|? ? [e He] _]; subst. simpl in He. subst r.
      apply (Hfalse i e Hv). left.
  - rewrite Hcount, Hlen. repeat split; assumption.
Qed.

End PoolSettings.

(** ** What every method leaves alone *)

Section Steps.
Import PgRoom AgodaDataPipeline PipelineSpec Obs.
Variable c : Client.
Variable quiet : bool.

Lemma pools_set_up_app (n : nat) (es1 es2 : list Event) :
  pools_set_up c n (es1 ++ es2)
  = pools_set_up c n es1 + pools_set_up c (n + length es1) es2.
Proof.
  revert n. induction es1 as [|e es1 IH]; intros n; simpl.
  - rewrite Nat.add_0_r. reflexivity.
  - rewrite IH. replace (S n + length es1) with (n + S (length es1)) by lia.
    lia.
Qed.

Lemma step_same (w w' : World) :
  cm w' = cm w → log w' = log w → pool w' = pool w → step quiet c w w'.
Proof.
  intros Hcm Hl Hp. split; [intros _; exact Hcm|].
  exists []. rewrite app_nil_r, Hp. split; [exact Hl|]. split.
  - unfold pool_delta. destruct (pool w); reflexivity.
  - intros _. split; [reflexivity|constructor].
Qed.

Lemma step_trans (w w1 w2 : World) :
  step quiet c w w1 → step quiet c w1 w2 → step quiet c w w2.
Proof.
  intros [Hcm1 (es1 & Hl1 & Hn1 & Hp1)] [Hcm2 (es2 & Hl2 & Hn2 & Hp2)].
  split.
  - intros Hc. rewrite Hcm2, Hcm1; auto. rewrite Hcm1; auto.
  - exists (es1 ++ es2). split; [rewrite Hl2, Hl1, app_assoc; reflexivity|].
    split.
    + rewrite pools_set_up_app, Hn1.
      replace (length (log w) + length es1) with (length (log w1))
        by (rewrite Hl1, length_app; reflexivity).
      rewrite Hn2. unfold pool_delta.
      destruct (pool w) eqn:Hw;
        [destruct (Hp1 (or_intror eq_refl)) as [-> _]; reflexivity|].
      destruct (pool w1) eqn:Hw1;
        [destruct (Hp2 (or_intror eq_refl)) as [-> _]; reflexivity|].
      destruct (pool w2); reflexivity.
    + intros Hq. destruct (Hp1 Hq) as [Hw1 Hf1].
      destruct (Hp2 ltac:(rewrite Hw1; exact Hq)) as [Hw2 Hf2].
      split; [congruence|]. apply Forall_app. split; assumption.
Qed.

Lemma step_event (ev : Event) (w : World) :
  ev ≠ EPoolInit → step quiet c w (add_event ev w).
Proof.
  intros Hev. split; [reflexivity|]. exists [ev]. split; [reflexivity|].
  split.
  - simpl. unfold pool_delta. destruct (pool w); destruct ev; try reflexivity;
      congruence.
  - intros _. split; [reflexivity|]. constructor; [exact Hev|constructor].
Qed.

Lemma steps_ret {A} (a : A) : steps quiet c (ret a).
Proof. intros w r w' [= <- <-]. apply step_same; reflexivity. Qed.

Lemma steps_raise {A} (e : exn) : steps quiet c (@raise World A e).
Proof. intros w r w' [= <- <-]. apply step_same; reflexivity. Qed.

Lemma steps_lift {A} (x : Result A) : steps quiet c (lift x).
Proof. intros w r w' [= <- <-]. apply step_same; reflexivity. Qed.

Lemma steps_gets {A} (f : World → A) : steps quiet c (gets f).
Proof. intros w r w' [= <- <-]. apply step_same; reflexivity. Qed.

Lemma steps_bind {A B} (m : M World A) (f : A → M World B) :
  steps quiet c m → (∀ a, steps quiet c (f a)) → steps quiet c (bind m f).
Proof.
  intros Hm Hf w r w'. unfold bind.
  destruct (m w) as [[a|e] w1] eqn:H1; specialize (Hm _ _ _ H1).
  - intros H2. eapply step_trans; [exact Hm|]. eapply Hf; eauto.
  - intros [= <- <-]. exact Hm.
Qed.

Lemma steps_try_except {A} (m : M World A) (sel : exn → bool)
    (h : exn → M World A) :
  steps quiet c m → (∀ e, steps quiet c (h e)) → steps quiet c (try_except m sel h).
Proof.
  intros Hm Hh w r w'. unfold try_except.
  destruct (m w) as [[a|e] w1] eqn:H1; specialize (Hm _ _ _ H1).
  - intros [= <- <-]. exact Hm.
  - destruct (sel e).
    + intros H2. eapply step_trans; [exact Hm|]. eapply Hh; eauto.
    + intros [= <- <-]. exact Hm.
Qed.

Lemma steps_zoom_sql {A} (m : M SqlConfig.state A) :
  steps quiet c (zoom sql set_sql m).
Proof.
  intros w r w'. unfold zoom. destruct (m (sql w)) as [r1 s1].
  intros [= <- <-]. apply step_same; reflexivity.
Qed.

(** An accessor of the [ConfigManager] leaves a manager that has its
    configuration as it is. *)
Lemma steps_zoom_cm {A} (m : M ConfigManager.state A) :
  (∀ s r s', m s = (r, s') → ConfigManager._config_cache s ≠ PNone → s' = s) →
  steps quiet c (zoom cm set_cm m).
Proof.
  intros Hm w r w'. unfold zoom. destruct (m (cm w)) as [r1 s1] eqn:H1.
  intros [= <- <-]. split.
  - intros Hc. simpl. eapply Hm; eauto.
  - exists []. rewrite app_nil_r. simpl. split; [reflexivity|]. split.
    + unfold pool_delta. destruct (pool w); reflexivity.
    + intros _. split; [reflexivity|constructor].
Qed.

Lemma get_table_name_stable (s : ConfigManager.state) (r : Result pyval)
    (s' : ConfigManager.state) :
  ConfigManager.get_table_name s = (r, s') →
  ConfigManager._config_cache s ≠ PNone → s' = s.
Proof.
  intros H Hc. revert H. unfold ConfigManager.get_table_name, bind.
  rewrite (load_config_cached s Hc). unfold lift.
  destruct (getitem _ "database"); intros [= _ <-]; reflexivity.
Qed.

Lemma get_batch_size_stable (s : ConfigManager.state) (r : Result pyval)
    (s' : ConfigManager.state) :
  ConfigManager.get_batch_size s = (r, s') →
  ConfigManager._config_cache s ≠ PNone → s' = s.
Proof.
  intros H Hc. revert H. unfold ConfigManager.get_batch_size, bind.
  rewrite (load_config_cached s Hc). unfold lift.
  destruct (get _ "app" _); intros [= _ <-]; reflexivity.
Qed.

Lemma get_connection_pool_config_stable (s : ConfigManager.state) (r : Result pyval)
    (s' : ConfigManager.state) :
  ConfigManager.get_connection_pool_config s = (r, s') →
  ConfigManager._config_cache s ≠ PNone → s' = s.
Proof.
  intros H Hc. revert H. unfold ConfigManager.get_connection_pool_config, bind.
  rewrite (load_config_cached s Hc). unfold lift.
  destruct (get _ "app" _); intros [= _ <-]; reflexivity.
Qed.

Lemma get_threading_config_stable (s : ConfigManager.state) (r : Result pyval)
    (s' : ConfigManager.state) :
  ConfigManager.get_threading_config s = (r, s') →
  ConfigManager._config_cache s ≠ PNone → s' = s.
Proof.
  intros H Hc. revert H. unfold ConfigManager.get_threading_config, bind.
  rewrite (load_config_cached s Hc). unfold lift.
  destruct (get _ "app" _); intros [= _ <-]; reflexivity.
Qed.

Lemma is_threading_enabled_stable (s : ConfigManager.state) (r : Result pyval)
    (s' : ConfigManager.state) :
  ConfigManager.is_threading_enabled s = (r, s') →
  ConfigManager._config_cache s ≠ PNone → s' = s.
Proof.
  intros H Hc. revert H. unfold ConfigManager.is_threading_enabled, bind.
  destruct (ConfigManager.get_threading_config s) as [[tc|e] s1] eqn:H1;
    apply get_threading_config_stable in H1; try exact Hc; subst s1;
    unfold lift; intros [= _ <-]; reflexivity.
Qed.

Lemma steps_client_call (ev : Event) (err : exn) :
  ev ≠ EPoolInit → steps quiet c (client_call c ev err).
Proof.
  intros Hev w r w' H. apply client_call_inv in H. destruct H as [-> _].
  apply step_event. exact Hev.
Qed.

Lemma steps_fun {A} (f : World → Result A * World) :
  (∀ w, cm (snd (f w)) = cm w ∧ log (snd (f w)) = log w
        ∧ pool (snd (f w)) = pool w) →
  steps quiet c f.
Proof.
  intros Hf w r w' H. destruct (Hf w) as (H1 & H2 & H3). rewrite H in *.
  apply step_same; assumption.
Qed.

Lemma steps_connect (db_config : pyval) : steps quiet c (connect c db_config).
Proof.
  unfold connect. apply steps_bind; [apply steps_lift|intros _].
  apply steps_bind; [apply steps_client_call; discriminate|intros _].
  apply steps_fun. intros w. repeat split.
Qed.

Lemma steps_getconn : steps quiet c (getconn c).
Proof.
  unfold getconn.
  apply steps_bind; [apply steps_client_call; discriminate|intros _].
  apply steps_fun. intros w. repeat split.
Qed.

Lemma steps_rollback : steps quiet c (rollback c).
Proof.
  unfold rollback.
  apply steps_bind; [apply steps_client_call; discriminate|intros _].
  apply steps_fun. intros w. repeat split.
Qed.

Lemma steps_close : steps quiet c PgRoom.close.
Proof. intros w r w' [= <- <-]. apply step_event. discriminate. Qed.

Lemma steps_putconn : steps quiet c putconn.
Proof. intros w r w' [= <- <-]. apply step_event. discriminate. Qed.

Lemma steps_commit : steps quiet c (commit c).
Proof.
  unfold commit.
  apply steps_bind; [apply steps_client_call; discriminate|intros _].
  apply steps_fun. intros w. repeat split.
Qed.

Lemma steps_execute (s : Stmt) : steps quiet c (execute c s).
Proof.
  unfold execute.
  apply steps_bind; [apply steps_client_call; discriminate|intros _].
  apply steps_fun. intros w.
  destruct s as [t|t col|t cols]; simpl;
    try (destruct (sql_ident t) as [n|]; [destruct (work w !! n)|]);
    repeat split.
Qed.

Lemma steps_execute_each (sqls : list Stmt) : steps quiet c (execute_each c sqls).
Proof.
  induction sqls as [|s sqls IH]; simpl; [apply steps_ret|].
  apply steps_bind; [apply steps_execute|intros _; exact IH].
Qed.

Lemma steps_execute_batch (table : pyval) (columns : list string)
    (argslist : list Row) (page_size : pyval) :
  steps quiet c (execute_batch c table columns argslist page_size).
Proof.
  unfold execute_batch.
  apply steps_bind; [apply steps_lift|intros ps].
  apply steps_bind;
    [destruct (ps <=? 0)%Z; [apply steps_raise|apply steps_ret]|intros _].
  apply steps_bind; [apply steps_lift|intros rows].
  apply steps_bind; [apply steps_client_call; discriminate|intros _].
  apply steps_fun. intros w.
  destruct (sql_ident table) as [n|]; [|repeat split].
  destruct (work w !! n) as [existing|]; [|repeat split].
  destruct (accepts c n existing rows); repeat split.
Qed.

Lemma steps_DatabaseManager__get_db_config :
  steps quiet c DatabaseManager__get_db_config.
Proof.
  unfold DatabaseManager__get_db_config.
  apply steps_bind; [apply steps_gets|intros [o|]]; [apply steps_ret|].
  apply steps_bind; [apply steps_zoom_sql|intros o].
  apply steps_bind; [apply steps_fun; intros w; repeat split|intros _].
  apply steps_bind; [apply steps_lift|intros _].
  apply steps_bind; [apply steps_lift|intros _]. apply steps_ret.
Qed.

Lemma steps_ConnectionPoolManager__get_db_config :
  steps quiet c ConnectionPoolManager__get_db_config.
Proof.
  unfold ConnectionPoolManager__get_db_config.
  apply steps_bind; [apply steps_gets|intros [o|]]; [apply steps_ret|].
  apply steps_bind; [apply steps_zoom_sql|intros o].
  apply steps_bind; [apply steps_fun; intros w; repeat split|intros _].
  apply steps_bind; [apply steps_lift|intros _].
  apply steps_bind; [apply steps_lift|intros _]. apply steps_ret.
Qed.

Lemma steps_DatabaseManager_get_connection {A} (body : M World A) :
  steps quiet c body → steps quiet c (DatabaseManager_get_connection c body).
Proof.
  intros Hbody w r w'. unfold DatabaseManager_get_connection.
  destruct (DatabaseManager_acquire c w) as [[[]|e] w1] eqn:H1.
  2:{ intros [= <- <-]. revert H1. unfold DatabaseManager_acquire.
      apply steps_bind; [apply steps_DatabaseManager__get_db_config|intros o].
      apply steps_connect. }
  assert (S1 : step quiet c w w1).
  { revert H1. unfold DatabaseManager_acquire.
    apply steps_bind; [apply steps_DatabaseManager__get_db_config|intros o].
    apply steps_connect. }
  destruct (body w1) as [[a|e] w2] eqn:H2; specialize (Hbody _ _ _ H2).
  - intros [= <- <-].
    eapply step_trans; [exact S1|]. eapply step_trans; [exact Hbody|].
    apply step_event. discriminate.
  - destruct (rollback c w2) as [[[]|e'] w3] eqn:H3;
      apply steps_rollback in H3; intros [= <- <-];
      (eapply step_trans; [exact S1|]); (eapply step_trans; [exact Hbody|]);
      (eapply step_trans; [exact H3|]); apply step_event; discriminate.
Qed.

Lemma steps_create_table (table_name : option string) :
  steps quiet c (PgRoom.create_table c table_name).
Proof.
  unfold PgRoom.create_table. apply steps_bind.
  { destruct table_name;
      [apply steps_ret|apply steps_zoom_cm, get_table_name_stable]. }
  intros t. apply steps_try_except; [|intros _; apply steps_ret].
  apply steps_DatabaseManager_get_connection.
  apply steps_bind; [apply steps_execute|intros _].
  apply steps_bind; [apply steps_execute_each|intros _].
  apply steps_bind; [apply steps_commit|intros _]. apply steps_ret.
Qed.

Lemma steps_insert_raw_data (room_list : list Row) (target_table : pyval) :
  steps quiet c (AnyTable.insert_raw_data c room_list target_table).
Proof.
  unfold AnyTable.insert_raw_data. destruct room_list as [|first rest];
    [apply steps_ret|].
  apply steps_try_except; [|intros _; apply steps_ret].
  apply steps_DatabaseManager_get_connection.
  apply steps_bind; [apply steps_zoom_cm, get_batch_size_stable|intros bs].
  apply steps_bind; [apply steps_execute_batch|intros _].
  apply steps_bind; [apply steps_commit|intros _]. apply steps_ret.
Qed.

End Steps.

Section PooledSteps.
Import PgRoom AgodaDataPipeline PipelineSpec Obs.
Variable c : Client.

(** Setting up the pool: the one place where a pool comes to be set. *)
Lemma steps__initialize_pool : steps false c (_initialize_pool c).
Proof.
  intros w r w'. unfold _initialize_pool. unfold bind at 1, gets.
  destruct (pool w) eqn:Hpool.
  { intros [= <- <-]. apply step_same; reflexivity. }
  unfold bind at 1.
  destruct (ConnectionPoolManager__get_db_config w) as [[o|e] w1] eqn:H1.
  2:{ intros [= <- <-]. eapply steps_ConnectionPoolManager__get_db_config; eauto. }
  pose proof (ConnectionPoolManager__get_db_config_frame _ _ _ H1)
    as (Hcm1 & Hp1 & Hl1 & _).
  apply (steps_ConnectionPoolManager__get_db_config c false) in H1.
  unfold bind at 1.
  destruct (zoom cm set_cm ConfigManager.get_connection_pool_config w1)
    as [[pc|e] w2] eqn:H2.
  2:{ intros [= <- <-]. eapply step_trans; [exact H1|].
      eapply (steps_zoom_cm c false _ get_connection_pool_config_stable); eauto. }
  pose proof (zoom_cm_frame _ _ _ _ H2) as (_ & _ & Hl2 & Hp2).
  apply (steps_zoom_cm c false _ get_connection_pool_config_stable) in H2.
  assert (H12 : step false c w w2) by (eapply step_trans; eauto).
  unfold bind, lift.
  destruct (getitem pc "min_connections"); [|intros [= <- <-]; exact H12].
  destruct (getitem pc "max_connections"); [|intros [= <- <-]; exact H12].
  destruct (kwargs (SqlConfig.oval o)); [|intros [= <- <-]; exact H12].
  destruct (client_call c EPoolInit DatabaseError w2) as [[[]|e] w3] eqn:H3;
    apply client_call_inv in H3; destruct H3 as [-> Hr].
  - unfold modify. intros [= <- <-].
    destruct H12 as [Hcm (es & Hl & Hn & Hp)]. split; [exact Hcm|].
    exists (es ++ [EPoolInit]). simpl. split; [rewrite Hl, app_assoc; reflexivity|].
    split; [|intros [Hx|Hx]; congruence].
    rewrite pools_set_up_app, Hn, Hpool, Hp2, Hp1, Hpool. simpl.
    replace (length (log w) + length es) with (length (log w2))
      by (rewrite Hl, length_app; reflexivity).
    destruct (fault c (length (log w2))); [discriminate|reflexivity].
  - intros [= <- <-].
    destruct H12 as [Hcm (es & Hl & Hn & Hp)]. split; [exact Hcm|].
    exists (es ++ [EPoolInit]). simpl. split; [rewrite Hl, app_assoc; reflexivity|].
    split; [|intros [Hx|Hx]; congruence].
    rewrite pools_set_up_app, Hn, Hpool, Hp2, Hp1, Hpool. simpl.
    replace (length (log w) + length es) with (length (log w2))
      by (rewrite Hl, length_app; reflexivity).
    destruct (fault c (length (log w2))); [reflexivity|discriminate].
Qed.

Lemma steps_ConnectionPoolManager_get_connection {A} (body : M World A) :
  steps false c body → steps false c (ConnectionPoolManager_get_connection c body).
Proof.
  intros Hbody w r w'. unfold ConnectionPoolManager_get_connection.
  destruct (_initialize_pool c w) as [[[]|e] w0] eqn:H0;
    apply steps__initialize_pool in H0; [|intros [= <- <-]; exact H0].
  destruct (getconn c w0) as [[[]|e] w1] eqn:H1;
    apply (steps_getconn c false) in H1;
    [|intros [= <- <-]; eapply step_trans; eauto].
  destruct (body w1) as [[a|e] w2] eqn:H2; specialize (Hbody _ _ _ H2).
  - intros [= <- <-].
    eapply step_trans; [exact H0|]. eapply step_trans; [exact H1|].
    eapply step_trans; [exact Hbody|]. apply step_event. discriminate.
  - destruct (rollback c w2) as [[[]|e'] w3] eqn:H3;
      apply (steps_rollback c false) in H3; intros [= <- <-];
      (eapply step_trans; [exact H0|]); (eapply step_trans; [exact H1|]);
      (eapply step_trans; [exact Hbody|]); (eapply step_trans; [exact H3|]);
      apply step_event; discriminate.
Qed.

Lemma steps__insert_chunk (chunk : list Row) (target_table : pyval) (i : nat) :
  steps false c (AnyTable._insert_chunk c chunk target_table i).
Proof.
  unfold AnyTable._insert_chunk. destruct chunk as [|first rest];
    [apply steps_ret|].
  apply steps_bind; [apply steps_zoom_cm, get_batch_size_stable|intros bs].
  apply steps_ConnectionPoolManager_get_connection.
  apply steps_try_except.
  - apply steps_bind; [apply steps_execute_batch|intros _].
    apply steps_bind; [apply steps_commit|intros _]. apply steps_ret.
  - intros e. apply steps_bind; [apply steps_rollback|intros _].
    apply steps_raise.
Qed.

Lemma step_run_tasks (target_table : pyval) (chunks : list (list Row))
    (order : list nat) (w w' : World) (futures : list (nat * Result nat)) :
  AnyTable.run_tasks c target_table chunks order w = (futures, w') →
  step false c w w'.
Proof.
  revert w futures. induction order as [|i rest IH]; intros w futures; simpl.
  - intros [= <- <-]. apply step_same; reflexivity.
  - destruct (chunks !! i) as [chunk|]; [|apply IH].
    destruct (AnyTable._insert_chunk c chunk target_table i w) as [r w1] eqn:H1.
    destruct (AnyTable.run_tasks c target_table chunks rest w1)
      as [rs w2] eqn:H2.
    intros [= <- <-]. eapply step_trans; [|eapply IH; eauto].
    eapply steps__insert_chunk; eauto.
Qed.

Lemma steps_insert_raw_data_threaded (sch : Schedule) (room_list : list Row)
    (target_table : pyval) :
  steps false c (AnyTable.insert_raw_data_threaded c sch room_list target_table).
Proof.
  intros w r w'.
  unfold AnyTable.insert_raw_data_threaded,
    AnyTable.insert_raw_data_threaded_run.
  destruct room_list as [|first rest].
  { intros [= <- <-]. apply step_same; reflexivity. }
  cbv beta iota.
  destruct (zoom cm set_cm ConfigManager.get_threading_config w)
    as [[tc|e] w1] eqn:Hz;
    apply (steps_zoom_cm c false _ get_threading_config_stable) in Hz;
    [|intros [= <- <-]; exact Hz].
  destruct (getitem tc "max_workers") as [W|e]; [|intros [= <- <-]; exact Hz].
  destruct (getitem tc "chunk_size") as [Cv|e]; [|intros [= <- <-]; exact Hz].
  destruct (_chunk_data (first :: rest) Cv) as [chunks|e];
    [|intros [= <- <-]; exact Hz].
  destruct (ThreadPoolExecutor W); [|intros [= <- <-]; exact Hz].
  destruct (AnyTable.run_tasks c target_table chunks (started sch) w1)
    as [futures w2] eqn:Hr.
  destruct (gather futures (completed sch) 0) as [ok total].
  intros [= <- <-]. eapply step_trans; [exact Hz|].
  eapply step_run_tasks; eauto.
Qed.

End PooledSteps.

(** ** The pipeline *)

Section PipelineFacts.
Import PgRoom AgodaDataPipeline PipelineSpec Obs.
Variable c : Client.

Lemma pools_set_up_none (n : nat) (es : list Event) :
  Forall (λ e, e ≠ EPoolInit) es → pools_set_up c n es = 0.
Proof.
  intros H. revert n. induction H as [|e es He _ IH]; intros n; simpl;
    [reflexivity|].
  rewrite IH. destruct e; try reflexivity. congruence.
Qed.

Lemma is_threading_enabled_settles (s s1 : ConfigManager.state) (v : pyval) :
  ConfigManager.is_threading_enabled s = (Ok v, s1) → settled s1 (truthy v).
Proof.
  unfold ConfigManager.is_threading_enabled, ConfigManager.get_threading_config,
    bind, lift.
  destruct (ConfigManager.load_config s) as [[cfg|e] s0] eqn:Hl; [|discriminate].
  pose proof (load_config_stores _ _ _ Hl) as Hc.
  destruct (get cfg "app" (PDict [])) as [app|e] eqn:Happ; [|discriminate].
  destruct (get app "threading" ConfigManager.default_threading) as [th|e] eqn:Hth;
    [|discriminate].
  intros [= Hget <-].
  assert (Hne : ConfigManager._config_cache s0 ≠ PNone).
  { rewrite Hc. intros ->. discriminate Happ. }
  split; [exact Hne|]. exists v. split; [|reflexivity].
  unfold ConfigManager.is_threading_enabled, ConfigManager.get_threading_config,
    bind, lift.
  rewrite (load_config_cached s0 Hne), Hc, Happ, Hth, Hget. reflexivity.
Qed.

Lemma settled_enabled (w : World) (m : bool) :
  settled (cm w) m → threading_enabled w = (Ok m, w).
Proof.
  intros [_ (v & Hv & Ht)]. unfold threading_enabled, zoom, bind, ret.
  rewrite Hv, set_cm_id, Ht. reflexivity.
Qed.

Lemma threading_enabled_settles (w w' : World) (m : bool) :
  threading_enabled w = (Ok m, w') →
  settled (cm w') m ∧ w' = set_cm (cm w') w.
Proof.
  unfold threading_enabled, zoom, bind, ret.
  destruct (ConfigManager.is_threading_enabled (cm w)) as [[v|e] s1] eqn:H1;
    [|discriminate].
  intros [= <- <-]. split; [|reflexivity].
  simpl. eapply is_threading_enabled_settles; eauto.
Qed.

Lemma steps_threading_enabled (quiet : bool) : steps quiet c threading_enabled.
Proof.
  unfold threading_enabled.
  apply steps_bind; [apply steps_zoom_cm, is_threading_enabled_stable|intros v].
  apply steps_ret.
Qed.

(** *** Managers at work *)

Lemma on_db_manager_step {A} (o o' : DbManager) (m : M World A) (w w' : World)
    (r : Result A) :
  steps true c m → on_db_manager o m w = (r, o', w') →
  step true c w w'.
Proof.
  intros Hm. unfold on_db_manager.
  destruct (m (set_dbm_db_config o w)) as [r1 w1] eqn:H1.
  intros [= <- <- <-]. apply Hm in H1.
  destruct H1 as [Hcm (es & Hl & Hn & Hq)]. split; [exact Hcm|].
  exists es. repeat split; try assumption; apply Hq; left; reflexivity.
Qed.

Lemma steps_temp_db_manager {A} (m : M World A) :
  steps true c m →
  steps true c (fun w => let '(r, _, w') := on_db_manager None m w in (r, w')).
Proof.
  intros Hm w r w'.
  destruct (on_db_manager None m w) as [[r1 o1] w1] eqn:H1.
  intros [= <- <-]. eapply on_db_manager_step; eauto.
Qed.

Lemma on_pool_manager_step (o o' : PoolManager) (x x' : DbManager)
    (sch : Schedule) (room_list : list Row) (target : pyval) (w w' : World)
    (r : Result bool) :
  on_pool_manager o
    (AnyTable.insert_raw_data_threaded (through_pool c o) sch room_list target)
    w = (r, o', w') →
  (ConfigManager._config_cache (cm w) ≠ PNone → cm w' = cm w)
  ∧ ∃ es, log w' = log w ++ es
          ∧ open_pools (Threaded o' x')
            = open_pools (Threaded o x) + pools_set_up c (length (log w)) es.
Proof.
  unfold on_pool_manager.
  destruct (AnyTable.insert_raw_data_threaded _ _ _ _ _) as [r1 w1] eqn:H1.
  intros [= <- <- <-].
  apply steps_insert_raw_data_threaded in H1.
  destruct H1 as [Hcm (es & Hl & Hn & Hq)]. split; [exact Hcm|].
  exists es. split; [exact Hl|]. simpl in *.
  unfold through_pool in Hn. destruct (_connection_pool o) eqn:Hs; simpl in *.
  - rewrite Hn. unfold pool_delta. destruct (pool w1); reflexivity.
  - rewrite Hn. reflexivity.
  - destruct (Hq (or_intror eq_refl)) as [_ Hf].
    rewrite (pools_set_up_none _ _ Hf). reflexivity.
Qed.

(** *** Calls on the pipeline *)

Lemma kept_here (p p' : state) :
  cm (env (process p')) = cm (env (process p)) →
  self p' = self p →
  log (env (process p')) = log (env (process p)) →
  pools_closed (process p') = pools_closed (process p) →
  kept c p p'.
Proof.
  intros Hcm Hs Hl Hn. unfold kept. rewrite Hcm, Hs, Hl, Hn.
  repeat split. exists []. rewrite app_nil_r. simpl. split; [reflexivity|lia].
Qed.

Lemma kept_trans (p p1 p2 : state) : kept c p p1 → kept c p1 p2 → kept c p p2.
Proof.
  intros (Hcm1 & Ht1 & Ho1 & es1 & Hl1 & Hb1) (Hcm2 & Ht2 & Ho2 & es2 & Hl2 & Hb2).
  repeat split; try congruence.
  exists (es1 ++ es2). split; [rewrite Hl2, Hl1, app_assoc; reflexivity|].
  rewrite pools_set_up_app.
  replace (length (log (env (process p))) + length es1)
    with (length (log (env (process p1))))
    by (rewrite Hl1, length_app; reflexivity).
  lia.
Qed.

Lemma keeps_ret {A} (a : A) : keeps c (ret a).
Proof. intros p r p' [= <- <-] _. apply kept_here; reflexivity. Qed.

Lemma keeps_bind {A B} (m : M state A) (f : A → M state B) :
  keeps c m → (∀ a, keeps c (f a)) → keeps c (bind m f).
Proof.
  intros Hm Hf p r p'. unfold bind.
  destruct (m p) as [[a|e] p1] eqn:H1; intros H2 Hc;
    specialize (Hm _ _ _ H1 Hc).
  - eapply kept_trans; [exact Hm|]. eapply Hf; [exact H2|].
    destruct Hm as [-> _]. exact Hc.
  - injection H2 as <- <-. exact Hm.
Qed.

(** A quiet method that does not involve the managers of the pipeline. *)
Lemma keeps_in_env {A} (m : M World A) :
  steps true c m → keeps c (in_process (in_env m)).
Proof.
  intros Hm p r p'. unfold in_process, in_env, zoom.
  destruct (m (env (process p))) as [r1 w1] eqn:H1.
  intros [= <- <-] Hc. apply Hm in H1.
  destruct H1 as [Hcm (es & Hl & _ & Hq)].
  destruct (Hq (or_introl eq_refl)) as [_ Hf].
  repeat split; simpl; auto.
  exists es. split; [exact Hl|]. rewrite (pools_set_up_none _ _ Hf). lia.
Qed.

Lemma keeps_create_table (table_name : option string) :
  keeps c (AgodaDataPipeline.create_table c table_name).
Proof.
  intros p r p' H Hc. revert H. unfold AgodaDataPipeline.create_table.
  assert (Hstep : ∀ o o' w' r',
            on_db_manager o (PgRoom.create_table c table_name)
              (env (process p)) = (r', o', w') →
            cm w' = cm (env (process p))
            ∧ ∃ es, log w' = log (env (process p)) ++ es
                    ∧ pools_set_up c (length (log (env (process p)))) es = 0).
  { intros o o' w' r' H.
    apply (on_db_manager_step _ _ _ _ _ _ (steps_create_table c true table_name))
      in H.
    destruct H as [Hcm (es & Hl & _ & Hq)].
    destruct (Hq (or_introl eq_refl)) as [_ Hf].
    split; [auto|]. exists es. split; [exact Hl|].
    apply pools_set_up_none. exact Hf. }
  destruct (self p) as [pm o|o [t|]] eqn:Hself.
  - destruct (on_db_manager o _ _) as [[r1 o1] w1] eqn:H1.
    destruct (Hstep _ _ _ _ H1) as (Hcm & es & Hl & Hn).
    intros [= <- <-]. unfold kept. simpl. rewrite Hself. simpl.
    repeat split; try assumption. exists es. split; [exact Hl|]. lia.
  - destruct (on_db_manager t _ _) as [[r1 o1] w1] eqn:H1.
    destruct (Hstep _ _ _ _ H1) as (Hcm & es & Hl & Hn).
    intros [= <- <-]. unfold kept. simpl. rewrite Hself. simpl.
    repeat split; try assumption. exists es. split; [exact Hl|]. lia.
  - destruct (on_db_manager o _ _) as [[r1 o1] w1] eqn:H1.
    destruct (Hstep _ _ _ _ H1) as (Hcm & es & Hl & Hn).
    intros [= <- <-]. unfold kept. simpl. rewrite Hself. simpl.
    repeat split; try assumption. exists es. split; [exact Hl|]. lia.
Qed.

Lemma keeps_default_table (target_table : option string) :
  keeps c (default_table target_table).
Proof.
  destruct target_table as [name|]; simpl; [apply keeps_ret|].
  apply keeps_in_env, steps_zoom_cm, get_table_name_stable.
Qed.

Lemma keeps_threaded_data_manager (sch : Schedule) (room_list : list Row)
    (target : pyval) :
  keeps c (threaded_data_manager c sch room_list target).
Proof.
  intros p r p' H Hc. revert H. unfold threaded_data_manager.
  destruct (self p) as [pm o|o t] eqn:Hself.
  - destruct (on_pool_manager pm _ _) as [[r1 pm1] w1] eqn:H1.
    apply (on_pool_manager_step _ _ o o) in H1.
    destruct H1 as (Hcm & es & Hl & Hn).
    intros [= <- <-]. unfold kept. rewrite Hself. simpl in *.
    repeat split; auto. exists es. split; [exact Hl|]. lia.
  - intros [= <- <-]. apply kept_here; reflexivity.
Qed.

Lemma keeps_data_manager (room_list : list Row) (target : pyval) :
  keeps c (data_manager c room_list target).
Proof.
  intros p r p' H Hc. revert H. unfold data_manager.
  destruct (self p) as [pm o|o t] eqn:Hself.
  - intros [= <- <-]. apply kept_here; reflexivity.
  - destruct (on_db_manager o _ _) as [[r1 o1] w1] eqn:H1.
    apply (on_db_manager_step _ _ _ _ _ _
             (steps_insert_raw_data c true room_list target)) in H1.
    destruct H1 as [Hcm (es & Hl & _ & Hq)].
    destruct (Hq (or_introl eq_refl)) as [_ Hf].
    intros [= <- <-]. unfold kept. rewrite Hself. simpl.
    repeat split; auto. exists es. split; [exact Hl|].
    rewrite (pools_set_up_none _ _ Hf). lia.
Qed.

Lemma keeps_insert_data (sch : Schedule) (room_list : list Row)
    (target_table : option string) :
  keeps c (insert_data c sch room_list target_table).
Proof.
  unfold insert_data.
  apply keeps_bind; [apply keeps_default_table|intros t].
  apply keeps_bind;
    [apply keeps_in_env, steps_threading_enabled|intros [|]].
  - apply keeps_threaded_data_manager.
  - apply keeps_data_manager.
Qed.

Lemma keeps_insert_data_single_thread (room_list : list Row)
    (target_table : option string) :
  keeps c (insert_data_single_thread c room_list target_table).
Proof.
  unfold insert_data_single_thread.
  apply keeps_bind; [apply keeps_default_table|intros t].
  apply keeps_bind;
    [apply keeps_in_env, steps_threading_enabled|intros [|]].
  - apply keeps_in_env, steps_temp_db_manager, steps_insert_raw_data.
  - apply keeps_data_manager.
Qed.

(** The manager made for one call, and its pool. *)
Lemma temp_pool_manager_closed (sch : Schedule) (room_list : list Row)
    (target : pyval) (e e' : Process) (r : Result bool) :
  temp_threaded_data_manager c sch room_list target e = (r, e') →
  (∃ b, r = Ok b)
  ∧ (ConfigManager._config_cache (cm (env e)) ≠ PNone → cm (env e') = cm (env e))
  ∧ ∃ es, log (env e') = log (env e) ++ es
          ∧ pools_closed e'
            = pools_closed e + pools_set_up c (length (log (env e))) es.
Proof.
  unfold temp_threaded_data_manager.
  destruct (on_pool_manager _ _ _) as [[r1 pm1] w1] eqn:H1.
  pose proof (on_pool_manager_step
                {| _db_config := None; _connection_pool := NoPool |} pm1
                None None sch room_list target (env e) w1 r1 H1)
    as (Hcm & es & Hl & Hn).
  assert (Hpm : _connection_pool pm1 ≠ PoolClosed).
  { revert H1. unfold on_pool_manager.
    destruct (AnyTable.insert_raw_data_threaded _ _ _ _ _) as [r2 w2].
    intros [= _ <- _]. simpl. destruct (pool w2); discriminate. }
  simpl in Hn.
  unfold try_except, bind, ret, close_pool.
  destruct (_connection_pool pm1) eqn:Hs; [| |congruence];
    destruct r1 as [b|x]; simpl; intros [= <- <-]; simpl;
    (split; [eauto|]); (split; [exact Hcm|]);
    exists es; (split; [exact Hl|]); lia.
Qed.

Lemma keeps_insert_data_multi_thread (sch : Schedule) (room_list : list Row)
    (target_table : option string) :
  keeps c (insert_data_multi_thread c sch room_list target_table).
Proof.
  unfold insert_data_multi_thread.
  apply keeps_bind; [apply keeps_default_table|intros t].
  apply keeps_bind;
    [apply keeps_in_env, steps_threading_enabled|intros [|]]; simpl.
  - apply keeps_threaded_data_manager.
  - intros p r p'. unfold in_process, zoom.
    destruct (temp_threaded_data_manager c sch room_list t (process p))
      as [r1 e1] eqn:H1.
    intros [= <- <-] Hc.
    apply temp_pool_manager_closed in H1.
    destruct H1 as (_ & Hcm & es & Hl & Hn).
    unfold kept. simpl. repeat split; auto.
    exists es. split; [exact Hl|]. lia.
Qed.

Lemma keeps_close : keeps c AgodaDataPipeline.close.
Proof.
  unfold AgodaDataPipeline.close.
  apply keeps_bind; [apply keeps_in_env, steps_threading_enabled|intros m].
  intros p r p' H Hc. revert H.
  destruct m; [|intros [= <- <-]; apply kept_here; reflexivity].
  destruct (self p) as [pm o|o t] eqn:Hself;
    [|intros [= <- <-]; apply kept_here; reflexivity].
  unfold close_pool.
  destruct (_connection_pool pm) eqn:Hs; intros [= <- <-];
    unfold kept; rewrite Hself; simpl; rewrite ?Hs;
    repeat split; exists []; rewrite app_nil_r; simpl; (split; [reflexivity|lia]).
Qed.

Lemma kept_perform (k : Call) (p : state) :
  ConfigManager._config_cache (cm (env (process p))) ≠ PNone →
  kept c p (perform c k p).
Proof.
  intros Hc. destruct k; simpl.
  - destruct (AgodaDataPipeline.create_table c table_name p) as [r p'] eqn:H.
    eapply keeps_create_table; eauto.
  - destruct (insert_data c sch room_list target_table p) as [r p'] eqn:H.
    eapply keeps_insert_data; eauto.
  - destruct (insert_data_single_thread c room_list target_table p)
      as [r p'] eqn:H.
    eapply keeps_insert_data_single_thread; eauto.
  - destruct (insert_data_multi_thread c sch room_list target_table p)
      as [r p'] eqn:H.
    eapply keeps_insert_data_multi_thread; eauto.
  - destruct (AgodaDataPipeline.close p) as [r p'] eqn:H.
    eapply keeps_close; eauto.
Qed.

Lemma kept_perform_all (calls : list Call) (p : state) :
  ConfigManager._config_cache (cm (env (process p))) ≠ PNone →
  kept c p (perform_all c calls p).
Proof.
  revert p. induction calls as [|k calls IH]; intros p Hc.
  - apply kept_here; reflexivity.
  - simpl. pose proof (kept_perform k p Hc) as Hk.
    eapply kept_trans; [exact Hk|]. apply IH.
    destruct Hk as [-> _]. exact Hc.
Qed.

Lemma in_mode_kept (p p' : state) : in_mode p → kept c p p' → in_mode p'.
Proof.
  intros [Hs Ho] (Hcm & Ht & Ho' & _). unfold in_mode.
  rewrite Hcm, Ht, Ho'. split; assumption.
Qed.

(** What [__init__] builds. *)
Lemma __init___builds (e e1 : Process) (r : Result Self) :
  __init__ e = (r, e1) →
  log (env e1) = log (env e) ∧ tables (env e1) = tables (env e)
  ∧ pools_closed e1 = pools_closed e
  ∧ match r with
    | Ok o => in_mode {| self := o; process := e1 |} ∧ open_pools o = 0
    | Raise _ => True
    end.
Proof.
  unfold __init__, in_env, zoom. unfold bind at 1, modify.
  set (w0 := set_cm _ (env e)).
  unfold bind at 1.
  destruct (threading_enabled w0) as [[m|x] w1] eqn:H1.
  2:{ intros [= <- <-]. simpl.
      revert H1. unfold threading_enabled, zoom, bind.
      destruct (ConfigManager.is_threading_enabled (cm w0)) as [[v|x0] s1];
        intros [= _ <-]; repeat split. }
  apply threading_enabled_settles in H1. destruct H1 as [Hs Hw1].
  pose proof (settled_enabled _ _ Hs) as He.
  assert (Hframe : log w1 = log (env e) ∧ tables w1 = tables (env e)).
  { rewrite Hw1. split; reflexivity. }
  destruct m; unfold _get_database_manager, bind; rewrite He; unfold ret;
    intros [= <- <-]; simpl;
    (split; [apply Hframe|]); (split; [apply Hframe|]);
    (split; [reflexivity|]); (split; [|reflexivity]);
    (split; [exact Hs|reflexivity]).
Qed.

End PipelineFacts.

(** ** The pipeline: mode and pools *)

Section PipelineTheorems.
Import PgRoom AgodaDataPipeline PipelineSpec Obs.
Variable c : Client.

Lemma enabled_in_mode (p : state) :
  in_mode p →
  in_process (in_env threading_enabled) p = (Ok (threaded (self p)), p).
Proof.
  intros [Hs _]. unfold in_process, in_env, zoom.
  rewrite (settled_enabled _ _ Hs). destruct p as [o [w n]]. reflexivity.
Qed.

Lemma in_mode_cached (p : state) :
  in_mode p → ConfigManager._config_cache (cm (env (process p))) ≠ PNone.
Proof. intros [[Hc _] _]. exact Hc. Qed.

(** X19. The mode of a pipeline is fixed when it is built.  [__init__]
    makes the managers of one mode, by what the settings say.  After any
    calls on the pipeline, whether they returned or raised, the
    [ConfigManager] is as [__init__] left it, the settings are answered
    from its cache and say the same, and the managers are still those of
    that mode, the table manager having a [DatabaseManager] of its own
    exactly in threaded mode.  So the manager a method asks for is always
    there: [insert_data] goes to the threaded data manager in threaded mode
    and to the data manager otherwise. *)
Theorem pipeline_keeps_its_mode
    (e e1 : Process) (o : Self) (calls : list Call) :
  __init__ e = (Ok o, e1) →
  let p := perform_all c calls {| self := o; process := e1 |} in
  cm (env (process p)) = cm (env e1)
  ∧ threaded (self p) = threaded o
  ∧ table_db_is_own (self p) = threaded o
  ∧ in_process (in_env threading_enabled) p = (Ok (threaded o), p)
  ∧ ∀ sch room_list name,
      insert_data c sch room_list (Some name) p
      = if threaded o
        then threaded_data_manager c sch room_list (PStr name) p
        else data_manager c room_list (PStr name) p.
Proof.
  intros Hinit p.
  apply __init___builds in Hinit. destruct Hinit as (_ & _ & _ & Hmode & _).
  pose proof (kept_perform_all c calls _ (in_mode_cached _ Hmode)) as Hk.
  fold p in Hk. pose proof (in_mode_kept c _ _ Hmode Hk) as Hp.
  destruct Hk as (Hcm & Ht & Ho & _). simpl in Hcm, Ht, Ho.
  pose proof (enabled_in_mode p Hp) as He. rewrite Ht in He.
  destruct Hmode as [_ Hown]. simpl in Hown.
  split; [exact Hcm|]. split; [exact Ht|]. split; [congruence|].
  split; [exact He|].
  intros sch room_list name. unfold insert_data, default_table, bind, ret.
  rewrite He. destruct (threaded o); reflexivity.
Qed.

(** X20. A pipeline accounts for its pools.  After any calls on a pipeline,
    whether they returned or raised, the pools that [closeall] has closed
    and the pool of the pipeline that is still open are, between them, the
    pools that were set up: a pool made for one call is closed before the
    call ends, no pool is closed twice, and at most one is open. *)
Theorem pipeline_accounts_for_its_pools
    (e e1 : Process) (o : Self) (calls : list Call) :
  __init__ e = (Ok o, e1) →
  let p := perform_all c calls {| self := o; process := e1 |} in
  ∃ es, log (env (process p)) = log (env e) ++ es
        ∧ pools_closed (process p) + open_pools (self p)
          = pools_closed e + pools_set_up c (length (log (env e))) es
        ∧ open_pools (self p) ≤ 1.
Proof.
  intros Hinit p.
  apply __init___builds in Hinit.
  destruct Hinit as (Hl & _ & Hn & Hmode & Hopen).
  pose proof (kept_perform_all c calls _ (in_mode_cached _ Hmode)) as Hk.
  fold p in Hk. destruct Hk as (_ & _ & _ & es & Hes & Hb). simpl in Hes, Hb.
  rewrite Hl in Hes, Hb. rewrite Hn, Hopen in Hb.
  exists es. split; [exact Hes|]. split; [lia|].
  destruct (self p) as [pm x|x t]; simpl; [|lia].
  destruct (_connection_pool pm); lia.
Qed.

(** [close] leaves no pool open in a pipeline. *)
Lemma close_closes (p p' : state) (r : Result unit) :
  in_mode p → AgodaDataPipeline.close p = (r, p') →
  kept c p p' ∧ open_pools (self p') = 0.
Proof.
  intros Hmode Hrun.
  split; [eapply keeps_close; [exact Hrun|apply in_mode_cached, Hmode]|].
  revert Hrun. unfold AgodaDataPipeline.close, bind.
  rewrite (enabled_in_mode p Hmode).
  destruct (self p) as [pm o|o t] eqn:Hself; simpl.
  - unfold close_pool. destruct (_connection_pool pm) eqn:Hs;
      intros [= _ <-]; simpl; rewrite ?Hself; simpl; rewrite ?Hs; reflexivity.
  - intros [= _ <-]. rewrite Hself. reflexivity.
Qed.

Lemma with_pipeline_closes {A} (body : M state A) :
  keeps c body → closes_its_pools c (with_pipeline body).
Proof.
  intros Hbody e. unfold with_pipeline.
  destruct (__init__ e) as [[o|x] e1] eqn:Hinit;
    apply __init___builds in Hinit;
    destruct Hinit as (Hl & _ & Hn & Hmode).
  2:{ exists []. rewrite app_nil_r. simpl. split; [exact Hl|lia]. }
  destruct Hmode as [Hmode Hopen].
  destruct (body {| self := o; process := e1 |}) as [r p1] eqn:Hb.
  pose proof (Hbody _ _ _ Hb (in_mode_cached _ Hmode)) as Hk1.
  pose proof (in_mode_kept c _ _ Hmode Hk1) as Hmode1.
  destruct (AgodaDataPipeline.close p1) as [r2 p2] eqn:Hc.
  destruct (close_closes _ _ _ Hmode1 Hc) as [Hk2 Hclosed].
  destruct (kept_trans c _ _ _ Hk1 Hk2) as (_ & _ & _ & es & Hes & Hbal).
  simpl in Hes, Hbal.
  assert (Hgoal : ∃ es0, log (env (process p2)) = log (env e) ++ es0
            ∧ pools_closed (process p2)
              = pools_closed e + pools_set_up c (length (log (env e))) es0).
  { rewrite Hl in Hes, Hbal. rewrite Hn, Hopen, Hclosed in Hbal.
    exists es. split; [exact Hes|lia]. }
  destruct r2 as [[]|x]; exact Hgoal.
Qed.

(** X21. The three functions at the end of the module leave no pool
    behind: every pool that a call set up, the call has closed when it
    returns or raises, whatever the mode and whatever went wrong. *)
Theorem functions_close_their_pools
    (sch : Schedule) (room_list : list Row)
    (table_name target_table : option string) :
  closes_its_pools c (Functions.create_table c table_name)
  ∧ closes_its_pools c (Functions.insert_raw_data c sch room_list)
  ∧ closes_its_pools c
      (Functions.insert_raw_data_threaded c sch room_list target_table).
Proof.
  split; [|split].
  - apply with_pipeline_closes, keeps_create_table.
  - apply with_pipeline_closes, keeps_insert_data.
  - apply with_pipeline_closes, keeps_insert_data_multi_thread.
Qed.

(** On a string the methods for any table name are those of the
    managers. *)
Lemma AnyTable_run_tasks (target : string) (chunks : list (list Row))
    (order : list nat) (w : World) :
  AnyTable.run_tasks c (PStr target) chunks order w
  = PgRoom.run_tasks c target chunks order w.
Proof.
  revert w. induction order as [|i rest IH]; intros w; simpl; [reflexivity|].
  destruct (chunks !! i) as [chunk|]; [|apply IH].
  change (AnyTable._insert_chunk c chunk (PStr target) i w)
    with (PgRoom._insert_chunk c chunk target i w).
  destruct (PgRoom._insert_chunk c chunk target i w) as [r w1].
  rewrite IH. reflexivity.
Qed.

Lemma AnyTable_insert_raw_data_threaded (sch : Schedule) (room_list : list Row)
    (target : string) (w : World) :
  AnyTable.insert_raw_data_threaded c sch room_list (PStr target) w
  = PgRoom.insert_raw_data_threaded c sch room_list target w.
Proof.
  unfold AnyTable.insert_raw_data_threaded, PgRoom.insert_raw_data_threaded,
    AnyTable.insert_raw_data_threaded_run, PgRoom.insert_raw_data_threaded_run.
  destruct room_list as [|first rest]; [reflexivity|]. cbv beta iota.
  destruct (zoom cm set_cm ConfigManager.get_threading_config w)
    as [[tc|e] w1]; [|reflexivity].
  destruct (getitem tc "max_workers") as [W|e]; [|reflexivity].
  destruct (getitem tc "chunk_size") as [Cv|e]; [|reflexivity].
  destruct (_chunk_data (first :: rest) Cv) as [chunks|e]; [|reflexivity].
  destruct (ThreadPoolExecutor W); [|reflexivity].
  rewrite AnyTable_run_tasks. reflexivity.
Qed.

Lemma AnyTable_insert_raw_data (room_list : list Row) (target : string) :
  AnyTable.insert_raw_data c room_list (PStr target)
  = PgRoom.insert_raw_data c room_list (Some target).
Proof. destruct room_list; reflexivity. Qed.

(** X22. The forced modes.  On a pipeline in single-thread mode,
    [insert_data_multi_thread] with a table name never raises: it runs the
    threaded insert on a pool manager of its own, returns what that
    returned, or [False] where that raised, and leaves the managers of the
    pipeline as they were.  On a pipeline in threaded mode it is the
    threaded data manager of the pipeline that runs, and what that raises
    reaches the caller.  On a pipeline in threaded mode,
    [insert_data_single_thread] runs the sequential insert on a database
    manager of its own, and leaves the managers and the pool of the
    pipeline as they were. *)
Theorem forced_modes
    (p : state) (sch : Schedule) (room_list : list Row) (name : string) :
  in_mode p →
  (threaded (self p) = false →
   let w0 := set_pool false (set_cpm_db_config None (env (process p))) in
   let manager := PgRoom.insert_raw_data_threaded c sch room_list name w0 in
   let '(r, p') := insert_data_multi_thread c sch room_list (Some name) p in
   r = Ok (match fst manager with Ok b => b | Raise _ => false end)
   ∧ self p' = self p
   ∧ tables (env (process p')) = tables (snd manager))
  ∧ (threaded (self p) = true →
     insert_data_multi_thread c sch room_list (Some name) p
     = threaded_data_manager c sch room_list (PStr name) p
     ∧ let w0 := set_dbm_db_config None (env (process p)) in
       let manager := PgRoom.insert_raw_data c room_list (Some name) w0 in
       let '(r, p') := insert_data_single_thread c room_list (Some name) p in
       r = fst manager
       ∧ self p' = self p
       ∧ tables (env (process p')) = tables (snd manager)).
Proof.
  intros Hmode. pose proof (enabled_in_mode p Hmode) as He. split.
  - intros Hsingle. rewrite Hsingle in He. cbv zeta.
    unfold insert_data_multi_thread, default_table, bind, ret.
    rewrite He. cbn [negb]. cbv beta iota.
    unfold in_process, zoom, temp_threaded_data_manager, on_pool_manager.
    cbn [pool_is_set _db_config _connection_pool].
    rewrite AnyTable_insert_raw_data_threaded.
    destruct (PgRoom.insert_raw_data_threaded c sch room_list name _)
      as [r1 w1].
    unfold try_except, bind, ret, close_pool. simpl.
    destruct (pool w1); destruct r1 as [b|x]; simpl; repeat split.
  - intros Hthreaded. rewrite Hthreaded in He. split.
    + unfold insert_data_multi_thread, default_table, bind, ret.
      rewrite He. reflexivity.
    + cbv zeta.
      unfold insert_data_single_thread, default_table, bind, ret.
      rewrite He. unfold in_process, in_env, zoom, on_db_manager.
      rewrite AnyTable_insert_raw_data.
      destruct (PgRoom.insert_raw_data c room_list (Some name) _) as [r1 w1].
      simpl. repeat split.
Qed.

End PipelineTheorems.

(** ** The function [create_table] *)

Section FunctionCreateTable.
Import PgRoom AgodaDataPipeline PipelineSpec Obs.
Variable c : Client.

Lemma get_raises (v : pyval) (k : string) (d : pyval) (x : exn) :
  get v k d = Raise x → x = AttributeError.
Proof.
  unfold get. destruct v as [| | | | |l]; try (intros [= <-]; reflexivity).
  destruct (dict_lookup l k); discriminate.
Qed.

(** What [is_threading_enabled] raises on a manager that has loaded
    nothing yet: what opening or loading the file raised, or
    [AttributeError] for a file that loads. *)
Lemma is_threading_enabled_raises (s s1 : ConfigManager.state) (x : exn) :
  ConfigManager._config_cache s = PNone →
  ConfigManager.is_threading_enabled s = (Raise x, s1) →
  match ConfigManager.config_yml s with
  | Absent => x = FileNotFoundError
  | Unloadable e' => x = e'
  | Content _ => x = AttributeError
  end.
Proof.
  intros Hc.
  unfold ConfigManager.is_threading_enabled, ConfigManager.get_threading_config,
    ConfigManager.load_config, bind, gets, ret, try_except,
    ConfigManager.read_config_file, raise, lift.
  rewrite Hc. destruct (ConfigManager.config_yml s) as [|e'|v]; simpl.
  - intros [= <- _]. reflexivity.
  - destruct (is_FileNotFoundError e'); destruct (is_YAMLError e');
      intros [= <- _]; reflexivity.
  - destruct (get v "app" (PDict [])) as [app|x0] eqn:Happ.
    2:{ intros [= <- _]. apply get_raises in Happ. exact Happ. }
    destruct (get app "threading" ConfigManager.default_threading)
      as [th|x0] eqn:Hth.
    2:{ intros [= <- _]. apply get_raises in Hth. exact Hth. }
    intros [= H _]. apply get_raises in H. exact H.
Qed.

(** The two pipelines [__init__] can build, and what it raises. *)
Lemma __init___cases (e e1 : Process) (r : Result Self) :
  __init__ e = (r, e1) →
  match r with
  | Ok o => o = Threaded {| _db_config := None; _connection_pool := NoPool |} None
            ∨ o = Single None None
  | Raise x => match ConfigManager.config_yml (cm (env e)) with
               | Absent => x = FileNotFoundError
               | Unloadable e' => x = e'
               | Content _ => x = AttributeError
               end
  end.
Proof.
  unfold __init__, in_env, zoom. unfold bind at 1, modify.
  set (w0 := set_cm _ (env e)).
  unfold bind at 1.
  destruct (threading_enabled w0) as [[m|x] w1] eqn:H1.
  2:{ intros [= <- _]. revert H1. unfold threading_enabled, zoom, bind.
      destruct (ConfigManager.is_threading_enabled (cm w0)) as [[v|x0] s1] eqn:H;
        [discriminate|].
      intros [= <- _].
      apply is_threading_enabled_raises in H; [exact H|reflexivity]. }
  apply threading_enabled_settles in H1. destruct H1 as [Hs Hw1].
  pose proof (settled_enabled _ _ Hs) as He.
  destruct m; unfold _get_database_manager, bind; rewrite He; unfold ret;
    intros [= <- _]; auto.
Qed.

(** X23. The function [create_table] with a table name raises exactly when
    the pipeline cannot be built, and nothing is then sent to the database.
    What it raises is what reading the settings raised: [FileNotFoundError]
    for a file that is not there; for a file that is there and does not
    load, whatever [open], the decoding or [yaml.safe_load] raised
    ([OSError], [UnicodeDecodeError] and the other [ValueError]s,
    [YAMLError]), as it is; and [AttributeError] for a file that loads to
    settings that are not mappings.  Otherwise it returns the boolean of
    [TableManager.create_table] run with a new [DatabaseManager], leaves
    what that leaves in the database and in the log, and closing the
    pipeline neither raises nor makes a call. *)
Theorem function_create_table (name : string) (e : Process) :
  match __init__ e with
  | (Raise x, e1) =>
      Functions.create_table c (Some name) e = (Raise x, e1)
      ∧ match ConfigManager.config_yml (cm (env e)) with
        | Absent => x = FileNotFoundError
        | Unloadable e' => x = e'
        | Content _ => x = AttributeError
        end
      ∧ log (env e1) = log (env e) ∧ tables (env e1) = tables (env e)
  | (Ok _, e1) =>
      let w0 := set_dbm_db_config None (env e1) in
      let manager := PgRoom.create_table c (Some name) w0 in
      let '(r, e') := Functions.create_table c (Some name) e in
      r = fst manager
      ∧ (∃ b, r = Ok b)
      ∧ tables (env e') = tables (snd manager)
      ∧ log (env e') = log (snd manager)
      ∧ pools_closed e' = pools_closed e
  end.
Proof.
  unfold Functions.create_table, with_pipeline.
  destruct (__init__ e) as [[o|x] e1] eqn:Hinit.
  2:{ pose proof (__init___cases _ _ _ Hinit) as Hx.
      apply __init___builds in Hinit. destruct Hinit as (Hl & Ht & _).
      repeat split; assumption. }
  pose proof (__init___cases _ _ _ Hinit) as Ho.
  apply __init___builds in Hinit.
  destruct Hinit as (_ & _ & Hn & Hmode & _).
  cbv zeta.
  assert (Hbool : ∃ b, fst (PgRoom.create_table c (Some name)
                              (set_dbm_db_config None (env e1))) = Ok b).
  { apply create_table_returns. }
  destruct Ho as [-> | ->].
  - unfold AgodaDataPipeline.create_table, on_db_manager.
    cbn [self process].
    destruct (PgRoom.create_table c (Some name)
                (set_dbm_db_config None (env e1))) as [r w'] eqn:H.
    pose proof (steps_create_table c true (Some name) _ _ _ H) as Hstep.
    cbv beta iota.
    match goal with |- context [AgodaDataPipeline.close ?q] =>
      set (p1 := q) end.
    assert (Hmode1 : in_mode p1).
    { destruct Hmode as [Hs Hown]. split; [|reflexivity]. simpl in *.
      destruct Hstep as [Hcm _]. rewrite (Hcm (proj1 Hs)). exact Hs. }
    unfold AgodaDataPipeline.close, bind.
    rewrite (enabled_in_mode p1 Hmode1). simpl.
    repeat split; try assumption.
  - unfold AgodaDataPipeline.create_table, on_db_manager.
    cbn [self process].
    destruct (PgRoom.create_table c (Some name)
                (set_dbm_db_config None (env e1))) as [r w'] eqn:H.
    pose proof (steps_create_table c true (Some name) _ _ _ H) as Hstep.
    cbv beta iota.
    match goal with |- context [AgodaDataPipeline.close ?q] =>
      set (p1 := q) end.
    assert (Hmode1 : in_mode p1).
    { destruct Hmode as [Hs Hown]. split; [|reflexivity]. simpl in *.
      destruct Hstep as [Hcm _]. rewrite (Hcm (proj1 Hs)). exact Hs. }
    unfold AgodaDataPipeline.close, bind.
    rewrite (enabled_in_mode p1 Hmode1). simpl.
    repeat split; try assumption.
Qed.

End FunctionCreateTable.

(** ** Instances of the further properties *)

Section MoreInstances.
Import PgRoom Spec Obs Sample.

(** A configuration whose database section is a sequence and whose
    current environment is an integer past its end: the call without an
    argument raises, and what it raises is the [IndexError]. *)
Lemma load_config_exceptions_witness :
  let yml := PDict [("environment", PDict [("current", PInt 5)]);
                    ("database", PList [PDict []])] in
  ∃ e, SqlConfig.load_config None (sql_state (Content yml)) =
       (Raise e, snd (SqlConfig.load_config None (sql_state (Content yml))))
       ∧ (e = DatabaseConfigError ∨ e = TypeError ∨ e = IndexError)
       ∧ e = IndexError.
Proof.
  intros yml.
  destruct (SqlConfig.load_config None (sql_state (Content yml)))
    as [[o|e] s'] eqn:E.
  - vm_compute in E. discriminate E.
  - exists e. split; [reflexivity|]. split.
    + exact (proj1 (load_config_exceptions None (sql_state (Content yml))) e s' E).
    + vm_compute in E. inversion E. reflexivity.
Defined.

Lemma known_environment_returns_section_witness :
  let s := sql_state (Content sql_yml) in
  let s1 := snd (SqlConfig.get_config false s) in
  SqlConfig.load_config (Some "development") s1
  = SqlConfig.load_config (Some "development") s.
Proof.
  intros s s1.
  destruct (known_environment_returns_section s s1
              {| SqlConfig.oid := 0; SqlConfig.opath := [];
                 SqlConfig.oval := sql_yml |}
              _ "development" _ eq_refl eq_refl eq_refl) as (_ & H2 & H3).
  rewrite H2, H3. reflexivity.
Defined.

Lemma current_environment_is_used_witness :
  let s := sql_state (Content sql_yml) in
  SqlConfig.load_config None s = SqlConfig.load_config (Some "development") s.
Proof.
  intros s.
  exact (proj2 (current_environment_is_used s (snd (SqlConfig.get_config false s))
                  {| SqlConfig.oid := 0; SqlConfig.opath := [];
                     SqlConfig.oval := sql_yml |}
                  "development" eq_refl eq_refl)).
Defined.

(** Six records of which the last has no price, on a server that wants
    one: the call returns [False], and the four records of the first two
    chunks are in the table. *)
Lemma threaded_insert_keeps_committed_chunks_witness :
  let w := world (PInt 4) (PInt 2) {[ "rooms" := [] ]} in
  let sch := {| started := [1; 0; 2]; completed := [2; 0; 1] |} in
  let data := five_rooms ++ [room "f" PNone] in
  let out := insert_raw_data_threaded_run strict sch data "rooms" w in
  returned (fst out) = Ok false ∧ row_count (snd out) "rooms" = Some 4.
Proof.
  intros w sch data out.
  pose proof (threaded_insert_keeps_committed_chunks strict sch data "rooms" w)
    as H.
  fold out in H. destruct out as [r w'] eqn:E. destruct H as [H _].
  split; [vm_compute in E; injection E as <- _; reflexivity|].
  simpl. rewrite H.
  assert (Hf : counts (future_to_chunk r) = 4)
    by (vm_compute in E; injection E as <- _; reflexivity).
  rewrite Hf. reflexivity.
Defined.

(** A chunk size of zero. *)
Lemma threaded_insert_invalid_settings_witness :
  let w := world (PInt 4) (PInt 0) {[ "rooms" := [] ]} in
  let sch := {| started := []; completed := [] |} in
  fst (insert_raw_data_threaded healthy sch five_rooms "rooms" w)
  = Raise ValueError.
Proof.
  intros w sch.
  pose proof (threaded_insert_invalid_settings healthy sch five_rooms "rooms" w
                4 0 ltac:(discriminate) eq_refl eq_refl
                ltac:(left; lia)) as H.
  destruct (insert_raw_data_threaded_run healthy sch five_rooms "rooms" w)
    as [r w'].
  destruct H as (H1 & H2 & _). rewrite H2, H1. reflexivity.
Defined.

(** A [threading] section that only switches threading on. *)
Lemma partial_threading_section_raises_witness :
  let yml := PDict [("app",
                     PDict [("threading",
                             PDict [("enable_threading", PBool true)])])] in
  let w := set_cm (cm_state yml) (world (PInt 4) (PInt 2) {[ "rooms" := [] ]}) in
  let sch := {| started := [0]; completed := [0] |} in
  fst (insert_raw_data_threaded healthy sch five_rooms "rooms" w)
  = Raise (KeyError (PStr "max_workers")).
Proof.
  intros yml w sch.
  rewrite (partial_threading_section_raises healthy sch five_rooms "rooms" w
             _ _ _ _ "max_workers" ltac:(discriminate) eq_refl eq_refl eq_refl
             (or_introl (conj eq_refl eq_refl))).
  reflexivity.
Defined.

Lemma completion_order_is_immaterial_witness :
  let w := world (PInt 4) (PInt 2) {[ "rooms" := [] ]} in
  insert_raw_data_threaded strict
    {| started := [1; 0; 2]; completed := [2; 0; 1] |}
    (five_rooms ++ [room "f" PNone]) "rooms" w
  = insert_raw_data_threaded strict
      {| started := [1; 0; 2]; completed := [0; 1; 2] |}
      (five_rooms ++ [room "f" PNone]) "rooms" w.
Proof.
  intros w. apply completion_order_is_immaterial; [reflexivity|]. simpl.
  etrans; [apply perm_swap|]. apply perm_skip, perm_swap.
Defined.

(** No settings file. *)
Lemma create_table_without_name_witness :
  let w := set_cm {| ConfigManager.config_yml := Absent;
                     ConfigManager._config_cache := PNone |}
             (world (PInt 4) (PInt 2) ∅) in
  create_table healthy None w = (Raise FileNotFoundError, w).
Proof.
  intros w.
  exact (proj2 (proj2 (create_table_without_name healthy w)) eq_refl eq_refl).
Defined.

End MoreInstances.

(** ** Instances for the rows, the settings and the pipeline *)

Section PipelineInstances.
Import PgRoom AgodaDataPipeline PipelineSpec Spec Obs Sample.



(** An empty settings file. *)
Lemma accessors_on_unexpected_settings_witness :
  fst (ConfigManager.get_batch_size (cm_state PNone)) = Raise AttributeError.
Proof.
  destruct (accessors_on_unexpected_settings (cm_state PNone) (cm_state PNone)
              PNone eq_refl) as (H & _).
  destruct (H ltac:(intros d; discriminate)) as (_ & _ & Hb & _).
  rewrite Hb. reflexivity.
Defined.

(** Pool settings that give [max_connections] only. *)
Lemma partial_pool_section_fails_every_chunk_witness :
  let yml :=
    PDict [("app",
            PDict [("connection_pool", PDict [("max_connections", PInt 5)]);
                   ("threading",
                    PDict [("max_workers", PInt 4);
                           ("chunk_size", PInt 2)])])] in
  let w := set_cm (cm_state yml) (world (PInt 4) (PInt 2) {[ "rooms" := [] ]}) in
  let sch := {| started := [1; 0; 2]; completed := [2; 0; 1] |} in
  let out := insert_raw_data_threaded_run healthy sch five_rooms "rooms" w in
  returned (fst out) = Ok false ∧ log (snd out) = [].
Proof.
  intros yml w sch out.
  pose proof (partial_pool_section_fails_every_chunk healthy sch five_rooms
                "rooms" w _ _ (PDict [("max_connections", PInt 5)]) (PInt 4)
                _ 2 ltac:(discriminate) eq_refl eq_refl eq_refl eq_refl
                (or_introl (ex_intro _ (KeyError (PStr "min_connections"))
                              eq_refl))
                eq_refl ltac:(lia) eq_refl eq_refl) as H.
  fold out in H. destruct out as [r w']. simpl.
  destruct H as (Hr & _ & _ & Hl & _).
  - split; simpl; [apply perm_swap|].
    etrans; [apply perm_swap|]. apply perm_skip, perm_swap.
  - split; [exact Hr|exact Hl].
Defined.

(** A pipeline in threaded mode, an insert, and two calls of [close]. *)
Lemma pipeline_keeps_its_mode_witness :
  let e := {| env := world (PInt 4) (PInt 2) {[ "rooms" := [] ]};
              pools_closed := 0 |} in
  let sch := {| started := [1; 0; 2]; completed := [2; 0; 1] |} in
  let calls := [InsertData sch five_rooms None; Close; Close;
                InsertDataSingleThread five_rooms None] in
  let p := perform_all healthy calls
             {| self := Threaded {| _db_config := None;
                                    _connection_pool := NoPool |} None;
                process := snd (__init__ e) |} in
  threaded (self p) = true ∧ table_db_is_own (self p) = true.
Proof.
  intros e sch calls p.
  pose proof (pipeline_keeps_its_mode healthy e (snd (__init__ e))
                (Threaded {| _db_config := None; _connection_pool := NoPool |}
                   None)
                calls ltac:(vm_compute; reflexivity)) as H.
  destruct H as (_ & Ht & Ho & _). split; [exact Ht|exact Ho].
Defined.

Lemma pipeline_accounts_for_its_pools_witness :
  let e := {| env := world (PInt 4) (PInt 2) {[ "rooms" := [] ]};
              pools_closed := 0 |} in
  let sch := {| started := [1; 0; 2]; completed := [2; 0; 1] |} in
  let calls := [InsertData sch five_rooms None; Close; Close] in
  let p := perform_all healthy calls
             {| self := Threaded {| _db_config := None;
                                    _connection_pool := NoPool |} None;
                process := snd (__init__ e) |} in
  ∃ es, log (env (process p)) = log (env e) ++ es
        ∧ pools_closed (process p) + open_pools (self p)
          = pools_closed e + pools_set_up healthy (length (log (env e))) es
        ∧ open_pools (self p) ≤ 1.
Proof.
  intros e sch calls.
  exact (pipeline_accounts_for_its_pools healthy e (snd (__init__ e))
           (Threaded {| _db_config := None; _connection_pool := NoPool |} None)
           calls ltac:(vm_compute; reflexivity)).
Defined.

(** A pipeline in single-thread mode, with the default threading
    settings: the forced threaded insert goes through. *)
Lemma forced_modes_witness :
  let yml := PDict [("database", PDict [("table_name", PStr "rooms")])] in
  let e := {| env := set_cm (cm_state yml)
                       (world (PInt 4) (PInt 2) {[ "rooms" := [] ]});
              pools_closed := 0 |} in
  let sch := {| started := [0]; completed := [0] |} in
  let p := {| self := Single None None; process := snd (__init__ e) |} in
  fst (insert_data_multi_thread healthy sch five_rooms (Some "rooms") p)
  = Ok true.
Proof.
  intros yml e sch p.
  assert (Hinit : __init__ e = (Ok (Single None None), snd (__init__ e)))
    by (vm_compute; reflexivity).
  pose proof (__init___builds e _ _ Hinit) as (_ & _ & _ & Hmode & _).
  pose proof (proj1 (forced_modes healthy p sch five_rooms "rooms" Hmode)
                eq_refl) as H.
  cbv zeta in H.
  destruct (insert_data_multi_thread healthy sch five_rooms (Some "rooms") p)
    as [r p'].
  destruct H as (Hr & _). simpl. rewrite Hr. vm_compute. reflexivity.
Defined.

End PipelineInstances.
